(** * caros: vendor-portal acquisition pipeline

    A shallow embedding of the provider pipeline of the repository
    (BaseProvider, BMWProvider, VWProvider, MetadataManager): version
    extraction and the update-acceptance policy, categorisation, the
    transfer manager with its cleanup of stale files, the metadata store,
    the login boundary and the check cycle.

    Conventions of the embedding.
    - JavaScript strings are modelled as [string] (sequences of bytes).
      [toLowerCase] lowers the ASCII letters, which is what the needles
      and patterns of the source look at; lengths count bytes.
    - Effects are world passing with exceptions: [M A] takes a world and
      returns [Ok a] or [Throw message] with the next world; [tryCatch]
      is [try]/[catch].  Logging is left out.
    - [new Date().toISOString()] is a reading of a wall clock; a reading
      is a number ([Time]) and the clock is a field of the world.
    - The browser, the network and the decoder of URI escapes are
      inputs: a function that awaits one of them takes the outcome as an
      argument.
    - The vendor directory is a finite map from plain file names to
      sizes; the two metadata files are kept apart from it, with what
      [readFile] and [JSON.parse] make of them: absent, not JSON, or an
      object of the shape the program writes.  The file system is
      ideal: a write succeeds, and [access], [stat] and [unlink] fail
      only on a missing file.
    - A transfer settles in a [Transfer]; a [Response] may also leave
      the promise [downloadFile] awaits unsettled.  Computations that
      return or throw are in [M]; those that may never return are a
      [Call], with [None] for the call that does not return. *)

From Stdlib Require Import Ascii String.
From stdpp Require Import gmap strings list fin_maps pretty.

Local Open Scope string_scope.
#[local] Arguments String.append !_ _ / : simpl nomatch.

(** ** JavaScript string primitives *)

Module Js.

Definition isUpper (c : ascii) : bool :=
  let n := nat_of_ascii c in (65 <=? n)%nat && (n <=? 90)%nat.

Definition isDigit (c : ascii) : bool :=
  let n := nat_of_ascii c in (48 <=? n)%nat && (n <=? 57)%nat.

Definition lowerChar (c : ascii) : ascii :=
  if isUpper c then ascii_of_nat (nat_of_ascii c + 32) else c.

(** [s.toLowerCase()] *)
Fixpoint toLowerCase (s : string) : string :=
  match s with
  | EmptyString => EmptyString
  | String c s' => String (lowerChar c) (toLowerCase s')
  end.

(** [s.startsWith(p)] *)
Fixpoint startsWith (p s : string) : bool :=
  match p, s with
  | EmptyString, _ => true
  | String _ _, EmptyString => false
  | String a p', String b s' => if Ascii.eqb a b then startsWith p' s' else false
  end.

(** [s.includes(needle)] *)
Fixpoint includes (s needle : string) : bool :=
  startsWith needle s ||
  match s with
  | EmptyString => false
  | String _ s' => includes s' needle
  end.

(** [s.indexOf(needle)], [None] for -1 *)
Fixpoint indexOf (s needle : string) : option nat :=
  if startsWith needle s then Some 0
  else match s with
       | EmptyString => None
       | String _ s' => S <$> indexOf s' needle
       end.

Fixpoint drop (n : nat) (s : string) : string :=
  match n, s with
  | O, _ => s
  | S n', String _ s' => drop n' s'
  | S _, EmptyString => EmptyString
  end.

Fixpoint take (n : nat) (s : string) : string :=
  match n, s with
  | S n', String c s' => String c (take n' s')
  | _, _ => EmptyString
  end.

(** [s.endsWith(suffix)] *)
Definition endsWith (s suffix : string) : bool :=
  (String.length suffix <=? String.length s)%nat &&
  String.eqb (drop (String.length s - String.length suffix) s) suffix.

(** [s.replace(needle, '')] with a string needle: the first occurrence. *)
Definition removeFirst (s needle : string) : string :=
  match indexOf s needle with
  | Some i => take i s +:+ drop (i + String.length needle) s
  | None => s
  end.

(** [s.split(sep)[0]] for a one-character separator. *)
Fixpoint beforeFirst (sep : ascii) (s : string) : string :=
  match s with
  | EmptyString => EmptyString
  | String c s' => if Ascii.eqb c sep then EmptyString else String c (beforeFirst sep s')
  end.

(** [parts = s.split(sep); parts[parts.length - 1]] *)
Fixpoint afterLast (sep : ascii) (s : string) : string :=
  match s with
  | EmptyString => EmptyString
  | String c s' =>
      if includes s' (String sep EmptyString) then afterLast sep s'
      else if Ascii.eqb c sep then s' else s
  end.

(** Truthiness of a string value: only the empty string is falsy. *)
Definition truthy (s : string) : bool :=
  match s with EmptyString => false | String _ _ => true end.

(** [s.split(sep)] for a one-character separator. *)
Fixpoint split (sep : ascii) (s : string) : list string :=
  match s with
  | EmptyString => [EmptyString]
  | String c s' =>
      if Ascii.eqb c sep then EmptyString :: split sep s'
      else match split sep s' with
           | part :: parts => String c part :: parts
           | [] => [String c EmptyString]
           end
  end.

(** White space and line terminators, as [trim] sees them, in the UTF-8
    encoding of the string: TAB to CR and SP; U+00A0; U+1680;
    U+2000 to U+200A, U+2028, U+2029, U+202F; U+205F; U+3000; U+FEFF. *)
Definition isSpace1 (a : nat) : bool := ((9 <=? a) && (a <=? 13) || (a =? 32))%nat.
Definition isSpace2 (a b : nat) : bool := ((a =? 194) && (b =? 160))%nat.
Definition isSpace3 (a b c : nat) : bool :=
  ((a =? 225) && (b =? 154) && (c =? 128)
   || (a =? 226) && (b =? 128)
      && ((128 <=? c) && (c <=? 138) || (c =? 168) || (c =? 169) || (c =? 175))
   || (a =? 226) && (b =? 129) && (c =? 159)
   || (a =? 227) && (b =? 128) && (c =? 128)
   || (a =? 239) && (b =? 187) && (c =? 191))%nat.

(** The number of bytes of the white space character [s] starts with,
    0 when it starts with none; [backwards] when [s] is read from its
    end, last byte first. *)
Definition spaceLength (backwards : bool) (s : string) : nat :=
  match s with
  | String x s1 =>
      let x := nat_of_ascii x in
      if isSpace1 x then 1%nat
      else
        match s1 with
        | String y s2 =>
            let y := nat_of_ascii y in
            if (if backwards then isSpace2 y x else isSpace2 x y) then 2%nat
            else
              match s2 with
              | String z _ =>
                  let z := nat_of_ascii z in
                  if (if backwards then isSpace3 z y x else isSpace3 x y z)
                  then 3%nat else 0%nat
              | EmptyString => 0%nat
              end
        | EmptyString => 0%nat
        end
  | EmptyString => 0%nat
  end.

Fixpoint dropSpaces (backwards : bool) (fuel : nat) (s : string) : string :=
  match fuel with
  | O => s
  | S fuel' =>
      match spaceLength backwards s with
      | O => s
      | n => dropSpaces backwards fuel' (drop n s)
      end
  end.

(** [s.trim()] *)
Definition trim (s : string) : string :=
  let s := dropSpaces false (String.length s) s in
  String.rev (dropSpaces true (String.length s) (String.rev s)).

Definition isLower (c : ascii) : bool :=
  let n := nat_of_ascii c in (97 <=? n)%nat && (n <=? 122)%nat.

Definition upperChar (c : ascii) : ascii :=
  if isLower c then ascii_of_nat (nat_of_ascii c - 32) else c.

(** [s.toUpperCase()] *)
Fixpoint toUpperCase (s : string) : string :=
  match s with
  | EmptyString => EmptyString
  | String c s' => String (upperChar c) (toUpperCase s')
  end.

End Js.

(** ** The regular expressions of the source

    Every regular expression literal of the provider code is a sequence
    of quantified character classes, possibly closed by [$].  They are
    run the way the JavaScript engine runs them: leftmost match, greedy
    quantifiers, backtracking. *)

Module Regex.

Inductive item : Type :=
| Rep (cls : ascii -> bool) (lo : nat) (hi : option nat)
| AtEnd.

Definition pattern := list item.

(** Greedy repetition of one class, between [lo] and [hi] times, followed
    by the continuation [k]; the result is the number of characters the
    whole match consumed. *)
Fixpoint rep (cls : ascii -> bool) (lo : nat) (hi : option nat)
    (k : string -> option nat) (s : string) : option nat :=
  let stop := match lo with O => k s | S _ => None end in
  match hi with
  | Some O => stop
  | _ =>
      match s with
      | String c s' =>
          if cls c then
            match rep cls (pred lo) (pred <$> hi) k s' with
            | Some n => Some (S n)
            | None => stop
            end
          else stop
      | EmptyString => stop
      end
  end.

Fixpoint matchHere (p : pattern) (s : string) {struct p} : option nat :=
  match p with
  | [] => Some 0
  | Rep cls lo hi :: p' => rep cls lo hi (matchHere p') s
  | AtEnd :: p' =>
      match s with
      | EmptyString => matchHere p' s
      | String _ _ => None
      end
  end.

(** Leftmost match: start index and length. *)
Fixpoint search (p : pattern) (s : string) : option (nat * nat) :=
  match matchHere p s with
  | Some n => Some (0, n)
  | None =>
      match s with
      | EmptyString => None
      | String _ s' => (fun '(i, n) => (S i, n)) <$> search p s'
      end
  end.

(** [s.match(re)[0]], the matched text. *)
Definition firstMatch (p : pattern) (s : string) : option string :=
  (fun '(i, n) => Js.take n (Js.drop i s)) <$> search p s.

(** [s.replace(re, '')] without the [g] flag. *)
Definition removeMatch (p : pattern) (s : string) : string :=
  match search p s with
  | Some (i, n) => Js.take i s +:+ Js.drop (i + n) s
  | None => s
  end.

(** Character classes. *)
Definition lit (a : ascii) : ascii -> bool := Ascii.eqb a.
Definition upperOrDash (c : ascii) : bool := Js.isUpper c || Ascii.eqb c "-".
(** [.] matches everything but a line terminator. *)
Definition notNewline (c : ascii) : bool :=
  negb (Ascii.eqb c "010" || Ascii.eqb c "013").

Definition digits : item := Rep Js.isDigit 1 None.            (* \d+ *)
Definition digitsN (n : nat) : item := Rep Js.isDigit n (Some n). (* \d{n} *)
Definition chr (a : ascii) : item := Rep (lit a) 1 (Some 1).
Definition anything : item := Rep notNewline 0 None.          (* .* *)

(** The first pattern of the list that matches decides. *)
Fixpoint firstOf (ps : list pattern) (s : string) : option string :=
  match ps with
  | [] => None
  | p :: ps' =>
      match firstMatch p s with
      | Some v => Some v
      | None => firstOf ps' s
      end
  end.

End Regex.

(** ** Version extraction *)

Module Version.
Import Regex.

Definition fourDot : pattern :=   (* /(\d+\.\d+\.\d+\.\d+)/ *)
  [digits; chr "."; digits; chr "."; digits; chr "."; digits].
Definition threeDot : pattern :=  (* /(\d+\.\d+\.\d+)/ *)
  [digits; chr "."; digits; chr "."; digits].
Definition dashed : pattern :=    (* /(\d+-\d+-\d+)/ *)
  [digits; chr "-"; digits; chr "-"; digits].
Definition underscoreRegionDate : pattern := (* /(\d+_\d+_\d+[A-Z-]*_\d{8})/ *)
  [digits; chr "_"; digits; chr "_"; digits; Rep upperOrDash 0 None; chr "_"; digitsN 8].
Definition underscoreDate : pattern := (* /(\d+_\d+_\d+_\d{8})/ *)
  [digits; chr "_"; digits; chr "_"; digits; chr "_"; digitsN 8].
Definition isoDate : pattern :=   (* /(\d{4}-\d{2}-\d{2})/ *)
  [digitsN 4; chr "-"; digitsN 2; chr "-"; digitsN 2].

Definition unknown : string := "unknown".

(** BaseProvider.extractVersion(url) *)
Definition basePatterns : list pattern := [fourDot; threeDot; dashed].

Definition extractVersion (url : string) : string :=
  default unknown (firstOf basePatterns url).

(** VWProvider.extractVersion(url, filename = '') *)
Definition filenamePatterns : list pattern :=
  [underscoreRegionDate; underscoreDate; fourDot; threeDot; dashed; isoDate].
Definition urlPatterns : list pattern := [fourDot; threeDot; dashed].

Definition vwExtractVersion (url filename : string) : string :=
  match (if Js.truthy filename then firstOf filenamePatterns filename else None) with
  | Some v => v
  | None => default unknown (firstOf urlPatterns url)
  end.

End Version.

(** ** Node's [path] module, on names without a separator

    The names handled by the cleanup are directory entries (from
    [readdir]) and resolved download names; they are plain names. *)

Module Path.

Fixpoint lastDot (s : string) : option nat :=
  match s with
  | EmptyString => None
  | String c s' =>
      match lastDot s' with
      | Some i => Some (S i)
      | None => if Ascii.eqb c "." then Some 0 else None
      end
  end.

(** [path.extname(name)]: from the last dot on; empty when there is no
    dot, when the only dot leads the name, and for [..]. *)
Definition extname (name : string) : string :=
  match lastDot name with
  | None | Some O => ""
  | Some i => if String.eqb name ".." then "" else Js.drop i name
  end.

(** [path.basename(name, path.extname(name))] *)
Definition basename (name ext : string) : string :=
  if Js.truthy ext && (String.length ext <=? String.length name)%nat then
    if String.eqb ext name then ""
    else if Js.endsWith name ext
         then Js.take (String.length name - String.length ext) name
         else name
  else name.

(** [path.join(dir, name)] *)
Definition join (dir name : string) : string := dir +:+ "/" +:+ name.

End Path.

(** ** Data model *)

Definition Time := Z.

(** A link or button found on a portal page ([foundDownloads.push]). *)
Record Candidate := {
  title : string;
  url : string;
  method : string;
  actualFilename : option string   (* set by the VW scan only *)
}.

(** A categorised download: the candidate spread, plus the fields added
    by [categorizeDownloads]. *)
Record Artifact := {
  candidate : Candidate;
  category : string;
  appType : string;
  displayName : option string;
  version : string;
  originalFilename : option string (* VW only *)
}.

(** What [updateMetadata] stores for a category: the download spread,
    plus the fields added by [downloadFile]. *)
Record ArtifactRecord := {
  artifact : Artifact;
  fileName : string;
  filePath : string;
  fileSize : N;
  downloadedAt : Time
}.

(** [<provider>_metadata.json] and [this.metadata]. *)
Record Metadata := {
  lastUpdate : option Time;
  downloads : option (gmap string ArtifactRecord)
}.

(** An entry of [global_metadata.json]:
    [{...providerData, lastUpdate, version}]. *)
Record ProviderEntry := {
  entryDownloads : option (gmap string ArtifactRecord);
  entryLastUpdate : option Time;
  entryVersion : string
}.

Record GlobalMetadata := {
  providers : gmap string ProviderEntry;
  lastGlobalUpdate : option Time;
  schemaVersion : string
}.

(** The state of a JSON file on disk, as [readFile] + [JSON.parse] see
    it: absent, not JSON, or an object of the shape this program writes.
    A file that parses to a value of another shape, on which a later
    property access throws a [TypeError], is not among these states. *)
Inductive stored (A : Type) : Type :=
| Missing
| Unparsable
| Json (a : A).
Arguments Missing {A}.
Arguments Unparsable {A}.
Arguments Json {A} a.

(** Calls received by the e-mail service. *)
Inductive Notification : Type :=
| NewVersions (provider : string) (updates : list Artifact)
| LoginFailure (provider : string) (errorMessage : string).

(** The world a provider instance runs in: the clock, the vendor
    directory, the two metadata files, the mails handed to the e-mail
    service, and the fields of the instance itself. *)
Record World := {
  clock : nat -> Time;        (* the successive readings of [new Date()] *)
  ticks : nat;                (* readings taken so far *)
  files : gmap string N;      (* downloaded files of the vendor directory, with sizes *)
  vendorFile : stored Metadata;
  globalFile : stored GlobalMetadata;
  smtpUp : bool;
  mails : list Notification;
  metadata : Metadata;        (* this.metadata *)
  isLoggedIn : bool           (* this.isLoggedIn *)
}.

Definition withTicks (n : nat) (w : World) : World :=
  {| clock := clock w; ticks := n; files := files w; vendorFile := vendorFile w;
     globalFile := globalFile w; smtpUp := smtpUp w; mails := mails w;
     metadata := metadata w; isLoggedIn := isLoggedIn w |}.
Definition withFiles (f : gmap string N) (w : World) : World :=
  {| clock := clock w; ticks := ticks w; files := f; vendorFile := vendorFile w;
     globalFile := globalFile w; smtpUp := smtpUp w; mails := mails w;
     metadata := metadata w; isLoggedIn := isLoggedIn w |}.
Definition withVendorFile (v : stored Metadata) (w : World) : World :=
  {| clock := clock w; ticks := ticks w; files := files w; vendorFile := v;
     globalFile := globalFile w; smtpUp := smtpUp w; mails := mails w;
     metadata := metadata w; isLoggedIn := isLoggedIn w |}.
Definition withGlobalFile (g : stored GlobalMetadata) (w : World) : World :=
  {| clock := clock w; ticks := ticks w; files := files w; vendorFile := vendorFile w;
     globalFile := g; smtpUp := smtpUp w; mails := mails w;
     metadata := metadata w; isLoggedIn := isLoggedIn w |}.
Definition withMails (ms : list Notification) (w : World) : World :=
  {| clock := clock w; ticks := ticks w; files := files w; vendorFile := vendorFile w;
     globalFile := globalFile w; smtpUp := smtpUp w; mails := ms;
     metadata := metadata w; isLoggedIn := isLoggedIn w |}.
Definition withMetadata (m : Metadata) (w : World) : World :=
  {| clock := clock w; ticks := ticks w; files := files w; vendorFile := vendorFile w;
     globalFile := globalFile w; smtpUp := smtpUp w; mails := mails w;
     metadata := m; isLoggedIn := isLoggedIn w |}.
Definition withLoggedIn (b : bool) (w : World) : World :=
  {| clock := clock w; ticks := ticks w; files := files w; vendorFile := vendorFile w;
     globalFile := globalFile w; smtpUp := smtpUp w; mails := mails w;
     metadata := metadata w; isLoggedIn := b |}.

(** ** Effects: world passing with exceptions *)

Inductive outcome (A : Type) : Type :=
| Ok (a : A)
| Throw (message : string).
Arguments Ok {A} a.
Arguments Throw {A} message.

Definition M (A : Type) : Type := World -> outcome A * World.

Definition ret {A} (a : A) : M A := fun w => (Ok a, w).
Definition throw {A} (message : string) : M A := fun w => (Throw message, w).
Definition bind {A B} (m : M A) (f : A -> M B) : M B :=
  fun w => match m w with
           | (Ok a, w') => f a w'
           | (Throw e, w') => (Throw e, w')
           end.
(** [try { m } catch (error) { h(error.message) }] *)
Definition tryCatch {A} (m : M A) (h : string -> M A) : M A :=
  fun w => match m w with
           | (Ok a, w') => (Ok a, w')
           | (Throw e, w') => h e w'
           end.
(** An awaited outcome supplied by the environment. *)
Definition await {A} (o : outcome A) : M A := fun w => (o, w).

Declare Scope js_scope.
Delimit Scope js_scope with js.
Notation "x <- m ;; k" := (bind m (fun x => k))
  (at level 100, m at next level, right associativity) : js_scope.
Notation "m ;; k" := (bind m (fun _ => k))
  (at level 100, right associativity) : js_scope.
Local Open Scope js_scope.

(** [for (const x of xs) { body(x) }] *)
Fixpoint forEach {A} (xs : list A) (body : A -> M unit) : M unit :=
  match xs with
  | [] => ret tt
  | x :: xs' => body x ;; forEach xs' body
  end.

Definition ignoreErrors (m : M unit) : M unit := tryCatch m (fun _ => ret tt).

(** ** Primitive operations on the world *)

(** [new Date().toISOString()] *)
Definition now : M Time :=
  fun w => (Ok (clock w (ticks w)), withTicks (S (ticks w)) w).

Definition getMetadata : M Metadata := fun w => (Ok (metadata w), w).
Definition setMetadata (m : Metadata) : M unit := fun w => (Ok tt, withMetadata m w).
Definition getLoggedIn : M bool := fun w => (Ok (isLoggedIn w), w).
Definition setLoggedIn (b : bool) : M unit := fun w => (Ok tt, withLoggedIn b w).

(** [fs.access(path.join(downloadDir, name))] *)
Definition access (name : string) : M unit :=
  fun w => match files w !! name with
           | Some _ => (Ok tt, w)
           | None => (Throw "ENOENT", w)
           end.
(** [fs.unlink(path.join(downloadDir, name))] *)
Definition unlink (name : string) : M unit :=
  fun w => match files w !! name with
           | Some _ => (Ok tt, withFiles (delete name (files w)) w)
           | None => (Throw "ENOENT", w)
           end.
(** [fs.stat(path).size] *)
Definition statSize (name : string) : M N :=
  fun w => match files w !! name with
           | Some n => (Ok n, w)
           | None => (Throw "ENOENT", w)
           end.
(** The write stream of a transfer has put [size] bytes under [name]. *)
Definition written (name : string) (size : N) : M unit :=
  fun w => (Ok tt, withFiles (<[name := size]> (files w)) w).

Definition readStored {A} (f : stored A) : outcome A :=
  match f with
  | Missing => Throw "ENOENT"
  | Unparsable => Throw "SyntaxError"
  | Json a => Ok a
  end.

(** [JSON.parse(await fs.readFile(path))] and
    [fs.writeFile(path, JSON.stringify(x))] for the two metadata files,
    in a directory that can be written: [writeFile] succeeds. *)
Definition readVendorFile : M Metadata := fun w => (readStored (vendorFile w), w).
Definition writeVendorFile (m : Metadata) : M unit :=
  fun w => (Ok tt, withVendorFile (Json m) w).
Definition readGlobalFile : M GlobalMetadata := fun w => (readStored (globalFile w), w).
Definition writeGlobalFile (g : GlobalMetadata) : M unit :=
  fun w => (Ok tt, withGlobalFile (Json g) w).

(** The e-mail service: it takes the call and answers whether the mail
    went out; it never throws. *)
Definition emailService (n : Notification) : M bool :=
  fun w => (Ok (smtpUp w), withMails (mails w ++ [n]) w).

(** ** MetadataManager *)

Module MetadataManager.

Definition emptyGlobal : GlobalMetadata :=
  {| providers := ∅; lastGlobalUpdate := None; schemaVersion := "1.0.0" |}.

Definition loadGlobalMetadata : M GlobalMetadata :=
  tryCatch readGlobalFile (fun _ => ret emptyGlobal).

Definition saveGlobalMetadata (g : GlobalMetadata) : M unit := writeGlobalFile g.

(** The synchronous middle of [updateProviderMetadata]: the entry of the
    provider is replaced and both timestamps are taken. *)
Definition stamp (providerName : string) (providerData : Metadata)
    (g : GlobalMetadata) : M GlobalMetadata :=
  t1 <- now ;;
  t2 <- now ;;
  ret {| providers :=
           <[providerName :=
               {| entryDownloads := downloads providerData;
                  entryLastUpdate := Some t1;
                  entryVersion := schemaVersion g |}]> (providers g);
         lastGlobalUpdate := Some t2;
         schemaVersion := schemaVersion g |}.

Definition updateProviderMetadata (providerName : string) (providerData : Metadata) : M unit :=
  g <- loadGlobalMetadata ;;
  g' <- stamp providerName providerData g ;;
  saveGlobalMetadata g'.

(** [getProviderStatus(providerName)]: the entry of the provider, or
    [null]. *)
Definition getProviderStatus (providerName : string) : M (option ProviderEntry) :=
  g <- loadGlobalMetadata ;;
  ret (providers g !! providerName).

Definition getAllProvidersStatus : M (gmap string ProviderEntry) :=
  g <- loadGlobalMetadata ;;
  ret (providers g).

Section Cleanup.
(** [cutoffDate.setDate(cutoffDate.getDate() - daysToKeep)] on a reading
    of the clock: the calendar arithmetic of [Date] in local time. *)
Variable daysBefore : Z -> Time -> Time.

(** [download.downloadedAt && new Date(download.downloadedAt) < cutoffDate];
    the stamp of a record is the one [downloadFile] took, never empty. *)
Definition expired (cutoffDate : Time) (download : ArtifactRecord) : bool :=
  (downloadedAt download <? cutoffDate)%Z.

(** The inner loop of [cleanupOldMetadata], over the entries of the
    downloads of one provider: the downloads and the count it leaves. *)
Definition cleanDownloads (cutoffDate : Time) (downloads : gmap string ArtifactRecord)
    (cleanedCount : nat) : gmap string ArtifactRecord * nat :=
  map_fold (fun category download '(downloads, cleanedCount) =>
              if expired cutoffDate download
              then (delete category downloads, S cleanedCount)
              else (downloads, cleanedCount))
           (downloads, cleanedCount) downloads.

(** The outer loop, over the entries of the providers. *)
Definition cleanProviders (cutoffDate : Time) (providers : gmap string ProviderEntry)
    : gmap string ProviderEntry * nat :=
  map_fold (fun providerName providerData '(providers, cleanedCount) =>
              match entryDownloads providerData with
              | Some downloads =>
                  let '(downloads, cleanedCount) :=
                    cleanDownloads cutoffDate downloads cleanedCount in
                  (<[providerName :=
                       {| entryDownloads := Some downloads;
                          entryLastUpdate := entryLastUpdate providerData;
                          entryVersion := entryVersion providerData |}]> providers,
                   cleanedCount)
              | None => (providers, cleanedCount)
              end)
           (providers, 0%nat) providers.

Definition cleanupOldMetadata (daysToKeep : Z) : M nat :=
  g <- loadGlobalMetadata ;;
  t <- now ;;
  let cutoffDate := daysBefore daysToKeep t in
  let '(providers', cleanedCount) := cleanProviders cutoffDate (providers g) in
  if (0 <? cleanedCount)%nat then
    saveGlobalMetadata {| providers := providers';
                          lastGlobalUpdate := lastGlobalUpdate g;
                          schemaVersion := schemaVersion g |} ;;
    ret cleanedCount
  else ret 0%nat.

End Cleanup.

End MetadataManager.

(** ** BaseProvider *)

Record Provider := {
  providerName : string;
  baseDownloadDir : string
}.

Definition downloadDir (self : Provider) : string :=
  Path.join (baseDownloadDir self) (providerName self).
Definition metadataName (self : Provider) : string :=
  providerName self +:+ "_metadata.json".

(** [fs.readdir(this.downloadDir)]: the downloaded files and, when it
    exists, the metadata file, which lives in the same directory. *)
Definition readdir (self : Provider) : M (list string) :=
  fun w => (Ok (app (map_to_list (files w)).*1
                    match vendorFile w with
                    | Missing => []
                    | _ => [metadataName self]
                    end), w).

(** Outcome of the streamed HTTP transfer of [downloadFile], when the
    promise it awaits after [pipe] settles: the request is rejected, or
    the writer emits [error] or [finish]. *)
Inductive Transfer : Type :=
| RequestFails (message : string)              (* nothing was written *)
| StreamFails (partial : N) (message : string) (* the writer failed midway *)
| Finished (size : N).                         (* the writer emitted [finish] *)

(** What the response of the transfer does.  [downloadFile] listens to
    the writer only ([finish], [error]); when the response stream
    itself fails midway, [pipe] neither ends nor fails the writer, so
    neither event comes: the awaited promise never settles and
    [downloadFile] does not return, with what was written so far left
    in the file. *)
Inductive Response : Type :=
| Settles (transfer : Transfer)
| SourceFails (partial : N).   (* [response.data] failed after [partial] bytes were written *)

(** ** Calls that may not return

    The result of a call that may never settle: [None] when it does
    not, with the world it has left by then. *)
Definition Call (A : Type) : Type := World -> option (outcome A) * World.

(** A computation that returns or throws. *)
Definition returning {A} (m : M A) : Call A :=
  fun w => (Some (m w).1, (m w).2).
(** [m] runs, and the promise awaited next never settles. *)
Definition stuck {A} (m : M unit) : Call A :=
  fun w => (None, (m w).2).
Definition andThen {A B} (c : Call A) (f : A -> Call B) : Call B :=
  fun w => match c w with
           | (Some (Ok a), w') => f a w'
           | (Some (Throw e), w') => (Some (Throw e), w')
           | (None, w') => (None, w')
           end.
(** [try { c } catch (error) { return false }] around a call. *)
Definition attempt (c : Call bool) : Call bool :=
  fun w => match c w with
           | (Some (Throw _), w') => (Some (Ok false), w')
           | r => r
           end.

Notation "x <~ c ;; k" := (andThen c (fun x => k))
  (at level 100, c at next level, right associativity) : js_scope.

Module BaseProvider.
Import Regex.

Definition emptyMetadata : Metadata := {| lastUpdate := None; downloads := Some ∅ |}.
(** [this.metadata = {}] of the constructor. *)
Definition constructedMetadata : Metadata := {| lastUpdate := None; downloads := None |}.

(** The two writes that end [updateMetadata], [updateLastCheck] and the
    deletion branch of [cleanupOldVersions]: the vendor file, then the
    entry of the vendor in the aggregate file. *)
Definition persist (self : Provider) : M unit :=
  md <- getMetadata ;;
  writeVendorFile md ;;
  MetadataManager.updateProviderMetadata (providerName self) md.

Definition loadMetadata (self : Provider) : M unit :=
  tryCatch (md <- readVendorFile ;; setMetadata md)
           (fun _ => setMetadata emptyMetadata) ;;
  _ <- MetadataManager.loadGlobalMetadata ;;
  ret tt.

Definition updateMetadata (self : Provider) (category : string) (data : ArtifactRecord) : M unit :=
  md <- getMetadata ;;
  let dl := default ∅ (downloads md) in
  t <- now ;;
  setMetadata {| lastUpdate := Some t; downloads := Some (<[category := data]> dl) |} ;;
  persist self.

Definition updateLastCheck (self : Provider) : M unit :=
  md <- getMetadata ;;
  t <- now ;;
  setMetadata {| lastUpdate := Some t; downloads := downloads md |} ;;
  persist self.

Definition versionSuffix3 : pattern :=  (* /_\d+\.\d+\.\d+.*$/ *)
  [chr "_"; digits; chr "."; digits; chr "."; digits; anything; AtEnd].
Definition isoSuffix : pattern :=       (* /_\d{4}-\d{2}-\d{2}.*$/ *)
  [chr "_"; digitsN 4; chr "-"; digitsN 2; chr "-"; digitsN 2; anything; AtEnd].
Definition dashSuffix : pattern :=      (* /_\d+-\d+-\d+.*$/ *)
  [chr "_"; digits; chr "-"; digits; chr "-"; digits; anything; AtEnd].
Definition versionSuffix2 : pattern :=  (* /_\d+\.\d+.*$/ *)
  [chr "_"; digits; chr "."; digits; anything; AtEnd].

Definition getBaseFileName (fileName : string) : string :=
  let baseName := Path.basename fileName (Path.extname fileName) in
  let baseName := removeMatch versionSuffix3 baseName in
  let baseName := removeMatch isoSuffix baseName in
  let baseName := removeMatch dashSuffix baseName in
  removeMatch versionSuffix2 baseName.

(** The test of the loop of [cleanupSimilarFiles]: the entry is neither
    skipped nor different in base name or extension. *)
Definition similar (newFileName file : string) : bool :=
  negb (Js.endsWith file ".json" || String.eqb file newFileName) &&
  (String.eqb (getBaseFileName file) (getBaseFileName newFileName) &&
   String.eqb (Path.extname file) (Path.extname newFileName)).

Definition cleanupSimilarFiles (self : Provider) (category newFileName : string) : M unit :=
  ignoreErrors (
    names <- readdir self ;;
    forEach names (fun file =>
      if similar newFileName file then ignoreErrors (unlink file) else ret tt)).

Definition cleanupOldVersions (self : Provider) (category newFileName : string) : M unit :=
  ignoreErrors (
    md <- getMetadata ;;
    match downloads md ≫= (.!! category) with
    | Some existingDownload =>
        let existingFileName := fileName existingDownload in
        if Js.truthy existingFileName && negb (String.eqb existingFileName newFileName) then
          ignoreErrors (
            access existingFileName ;;
            unlink existingFileName ;;
            setMetadata {| lastUpdate := lastUpdate md;
                           downloads := delete category <$> downloads md |} ;;
            persist self)
        else ret tt
    | None => ret tt
    end ;;
    cleanupSimilarFiles self category newFileName).

Definition getFileExtension (url : string) : string :=
  let urlLower := Js.toLowerCase url in
  if Js.includes urlLower ".exe" then ".exe"
  else if Js.includes urlLower ".zip" then ".zip"
  else if Js.includes urlLower ".istapdata" then ".istapdata"
  else ".bin".

(** [!fileName || fileName === 'download' || fileName.length < 5] *)
Definition unusable (fileName : option string) : bool :=
  match fileName with
  | None => true
  | Some f => negb (Js.truthy f) || String.eqb f "download" || (String.length f <? 5)%nat
  end.

Definition fallbackName (download : Artifact) : string :=
  let v := if String.eqb (version download) "unknown" then ""
           else "_" +:+ version download in
  category download +:+ v +:+ getFileExtension (url (candidate download)).

(** [record.version], a field of the download spread into the record;
    a record without the field reads as the empty string, which is
    falsy like [undefined]. *)
Definition recordedVersion (r : ArtifactRecord) : string := version (artifact r).

(** [isNewVersion(category, version)], on [this.metadata] *)
Definition isNewVersion (md : Metadata) (category version : string) : bool :=
  let lastVersion := recordedVersion <$> (downloads md ≫= (.!! category)) in
  match lastVersion with
  | None => true
  | Some lv =>
      if negb (Js.truthy lv) then true
      else if String.eqb version "unknown" then false
      else negb (String.eqb version lv)
  end.

Definition sendNewVersionNotification (self : Provider) (updates : list Artifact) : M unit :=
  match updates with
  | [] => ret tt
  | _ => ignoreErrors (_ <- emailService (NewVersions (providerName self) updates) ;; ret tt)
  end.

Definition sendLoginFailureNotification (self : Provider) (errorMessage : string) : M unit :=
  ignoreErrors (_ <- emailService (LoginFailure (providerName self) errorMessage) ;; ret tt).

(** The body shared by [BaseProvider.downloadFile] and
    [VWProvider.downloadFile] once the file name is resolved, for a
    transfer that settles; [transferOn] below has the response that
    leaves it waiting. *)
Definition transferTo (self : Provider) (download : Artifact) (fileName : string)
    (transfer : Transfer) : M bool :=
  cleanupOldVersions self (category download) fileName ;;
  let filePath := Path.join (downloadDir self) fileName in
  tryCatch (
    match transfer with
    | RequestFails e => throw e
    | StreamFails n e => written fileName n ;; throw e
    | Finished n => written fileName n
    end ;;
    size <- statSize fileName ;;
    if (0 <? size)%N then
      t <- now ;;
      updateMetadata self (category download)
        {| artifact := download; fileName := fileName; filePath := filePath;
           fileSize := size; downloadedAt := t |} ;;
      ret true
    else throw "Downloaded file is empty")
  (fun _ => ignoreErrors (unlink fileName) ;; ret false).

(** The same on the response as it comes.  When the response stream
    fails midway, the old versions have been cleaned up and the bytes
    received so far are in the file; nothing after the awaited promise
    runs, the [catch] blocks included. *)
Definition transferOn (self : Provider) (download : Artifact) (fileName : string)
    (response : Response) : Call bool :=
  match response with
  | Settles transfer => returning (transferTo self download fileName transfer)
  | SourceFails partial =>
      stuck (cleanupOldVersions self (category download) fileName ;;
             written fileName partial)
  end.

Section Decoder.
(** [decodeURIComponent]: [None] when it throws a [URIError]. *)
Variable decodeURIComponent : string -> option string.

Definition extractCleanFilename (url : string) : option string :=
  let filename := Js.afterLast "/" url in
  let filename := if Js.includes filename "?" then Js.beforeFirst "?" filename else filename in
  match decodeURIComponent filename with
  | None => None
  | Some filename =>
      let filename :=
        if Js.includes filename "&signed=true"
        then Js.removeFirst filename "&signed=true" else filename in
      if Js.truthy filename && (0 <? String.length filename)%nat
         && negb (String.eqb filename "download")
      then Some filename else None
  end.

Definition resolveFileName (download : Artifact) : string :=
  let fileName := extractCleanFilename (url (candidate download)) in
  if unusable fileName then fallbackName download else default "" fileName.

Definition downloadFile (self : Provider) (download : Artifact) (transfer : Transfer) : M bool :=
  tryCatch (transferTo self download (resolveFileName download) transfer)
           (fun _ => ret false).

(** [downloadFile] on the response as it comes. *)
Definition downloadFileOn (self : Provider) (download : Artifact) (response : Response)
    : Call bool :=
  match response with
  | Settles transfer => returning (downloadFile self download transfer)
  | SourceFails _ => transferOn self download (resolveFileName download) response
  end.

End Decoder.

(** A decoder for the examples: the identity on a string without an
    escape, as [decodeURIComponent] is. *)
Definition decodePlain (s : string) : option string :=
  if Js.includes s "%" then None else Some s.

End BaseProvider.

(** Objects used as ordered dictionaries: key order is insertion order. *)
Fixpoint assoc {A} (k : string) (l : list (string * A)) : option A :=
  match l with
  | [] => None
  | (k', a) :: l' => if String.eqb k k' then Some a else assoc k l'
  end.

(** [categorized[category]] is set. *)
Definition occupied {A} (k : string) (l : list (string * A)) : bool :=
  match assoc k l with Some _ => true | None => false end.

(** The filters of the constructors of both providers:
    [process.env.X ? process.env.X.split(',').map(f => f.trim()) : []];
    [None] is an unset variable. *)
Definition parseFilter (value : option string) : list string :=
  match value with
  | Some s => if Js.truthy s then Js.trim <$> Js.split "," s else []
  | None => []
  end.

(** ** BMWProvider *)

Module BMWProvider.

Record Filters := {
  istaPFilter : list string;      (* BMW_ISTA_P_FILTER *)
  istaNextFilter : list string    (* BMW_ISTA_NEXT_FILTER *)
}.

Definition downloadCategories : list (string * list (string * string)) :=
  [("ista-p",
    [("installer", "Installationsprogramm ISTA/P");
     ("data_archive", "Datenarchiv ISTA/P")]);
   ("ista-next",
    [("client", "Installationsdatei ISTA Client");
     ("programming_data", "ISTA Programmierdaten");
     ("icom_firmware", "ICOM Next Firmware");
     ("ptd_driver", "BMW PTD-Treiber")])].

(** [super('bmw')]; the base directory is [DOWNLOAD_DIR]. *)
Definition self (baseDir : string) : Provider :=
  {| providerName := "bmw"; baseDownloadDir := baseDir |}.

(** [Object.keys(this.downloadCategories[appType] || {})] *)
Definition validCategories (appType : string) : list string :=
  (default [] (assoc appType downloadCategories)).*1.

(** [filter.some(...)] on the title of the candidate *)
Definition matchesFilter (filter : list string) (d : Candidate) : bool :=
  existsb (fun filterText =>
             Js.includes (Js.toLowerCase (title d)) (Js.toLowerCase filterText)
             || Js.includes (title d) filterText) filter.

(** The rule chain of [categorizeDownloads]; [title] and [url] are the
    lowercased ones. *)
Definition categoryOf (appType title url : string) : option string :=
  if String.eqb appType "ista-p" then
    if Js.includes title "installationsprogramm"
       || Js.includes title "installationsdatei"
       || Js.includes url "istaoss"
       || Js.includes url "bdrclient"
    then Some "installer"
    else if Js.includes title "datenarchiv"
            || Js.includes url "commondat"
            || Js.includes url ".istapdata"
            || (Js.includes url "ista-p" && Js.includes url "commondat")
    then Some "data_archive"
    else None
  else if String.eqb appType "ista-next" then
    if Js.includes title "programmierdaten"
       || Js.includes url "ISTAOSS_ProgrammingData_"
    then Some "programming_data"
    else if Js.includes title "installationsdatei"
            || Js.includes title "client"
            || Js.includes url "istaoss"
            || Js.includes url "client"
    then Some "client"
    else if (Js.includes title "icom" && Js.includes title "firmware")
            || Js.includes url "ICOM-Next-FW"
            || (Js.includes url "icom" && Js.includes url "fw")
    then Some "icom_firmware"
    else if Js.includes title "ptd"
            || Js.includes title "treiber"
            || Js.includes url "ptd"
            || Js.includes url "passthru"
    then Some "ptd_driver"
    else None
  else None.

Definition categorize (appType : string) (d : Candidate) (category : string) : Artifact :=
  {| candidate := d;
     category := category;
     appType := appType;
     displayName := assoc appType downloadCategories ≫= assoc category;
     version := Version.extractVersion (url d);
     originalFilename := None |}.

(** One turn of the loop of [categorizeDownloads]. *)
Definition categorizeStep (filter : list string) (appType : string)
    (categorized : list (string * Artifact)) (d : Candidate) : list (string * Artifact) :=
  if negb (matchesFilter filter d) then categorized
  else
    match categoryOf appType (Js.toLowerCase (title d)) (Js.toLowerCase (url d)) with
    | Some category =>
        if existsb (String.eqb category) (validCategories appType)
           && negb (occupied category categorized)
        then app categorized [(category, categorize appType d category)]
        else categorized
    | None => categorized
    end.

Definition categorizeDownloads (cfg : Filters) (downloads : list Candidate)
    (appType : string) : list (string * Artifact) :=
  let filter := if String.eqb appType "ista-p" then istaPFilter cfg else istaNextFilter cfg in
  fold_left (categorizeStep filter appType) downloads [].

Section Instance.
Variable baseDir : string.

(** [login()]; [page] is where the browser ends up after the form was
    submitted, or the error of the first step that threw. *)
Definition login (page : outcome string) : M bool :=
  loggedIn <- getLoggedIn ;;
  if loggedIn then ret true
  else
    tryCatch (
      currentUrl <- await page ;;
      if Js.includes currentUrl "startpage-workshop"
         || Js.includes currentUrl "aos.bmwgroup.com"
      then setLoggedIn true ;; ret true
      else throw ("Login verification failed - URL: " +:+ currentUrl))
    (fun message =>
       BaseProvider.sendLoginFailureNotification (self baseDir) message ;;
       ret false).

End Instance.

(** What the portal answers during one cycle. *)
Record Portal := {
  loginPage : outcome string;
  navigates : string -> bool;                    (* navigateToApplication(appType) *)
  found : string -> outcome (list Candidate);    (* the page scan of findDownloads(appType) *)
  transfers : string -> Transfer                 (* the transfer of a URL *)
}.

Section Cycle.
Variable decodeURIComponent : string -> option string.
Variable baseDir : string.
Variable cfg : Filters.
Variable portal : Portal.

Definition findDownloads (appType : string) : list (string * Artifact) :=
  match found portal appType with
  | Ok downloads => categorizeDownloads cfg downloads appType
  | Throw _ => []
  end.

(** The download loop of [checkApplicationUpdates]:
    success count, failure count, successful updates. *)
Fixpoint downloadAll (updates : list Artifact) (acc : nat * nat * list Artifact)
    : M (nat * nat * list Artifact) :=
  match updates with
  | [] => ret acc
  | update :: rest =>
      let '(successCount, failCount, successfulUpdates) := acc in
      success <- tryCatch
        (BaseProvider.downloadFile decodeURIComponent (self baseDir) update
           (transfers portal (url (candidate update))))
        (fun _ => ret false) ;;
      downloadAll rest
        (if success
         then (S successCount, failCount, app successfulUpdates [update])
         else (successCount, S failCount, successfulUpdates))
  end.

Definition checkApplicationUpdates (appType : string) : M (nat * nat) :=
  if negb (navigates portal appType) then ret (0, 0)
  else
    let downloads := findDownloads appType in
    md <- getMetadata ;;
    let updates :=
      (filter (fun cd => BaseProvider.isNewVersion md cd.1 (version cd.2)) downloads).*2 in
    match updates with
    | [] => ret (0, 0)
    | _ =>
        r <- downloadAll updates (0, 0, []) ;;
        let '(successCount, failCount, successfulUpdates) := r in
        BaseProvider.sendNewVersionNotification (self baseDir) successfulUpdates ;;
        ret (successCount, failCount)
    end.

(** [checkForUpdates()]; [true] when the cycle ran to its end, [false]
    when it was skipped after a failed login. *)
Definition checkForUpdates : M bool :=
  loggedIn <- getLoggedIn ;;
  proceed <- (if loggedIn then ret true else login baseDir (loginPage portal)) ;;
  if proceed then
    _ <- checkApplicationUpdates "ista-p" ;;
    _ <- checkApplicationUpdates "ista-next" ;;
    BaseProvider.updateLastCheck (self baseDir) ;;
    ret true
  else ret false.

End Cycle.

(** The cycle on the responses as they come.  [breaks] gives, for the
    URLs whose response stream fails midway, the bytes written by then;
    the other transfers settle as the portal says.  What stands after
    an [await] that never settles does not run. *)
Section Responses.
Variable decodeURIComponent : string -> option string.
Variable baseDir : string.
Variable cfg : Filters.
Variable portal : Portal.
Variable breaks : string -> option N.

Definition responseOf (u : string) : Response :=
  match breaks u with
  | Some partial => SourceFails partial
  | None => Settles (transfers portal u)
  end.

Fixpoint downloadAllOn (updates : list Artifact) (acc : nat * nat * list Artifact)
    : Call (nat * nat * list Artifact) :=
  match updates with
  | [] => returning (ret acc)
  | update :: rest =>
      let '(successCount, failCount, successfulUpdates) := acc in
      success <~ attempt
        (BaseProvider.downloadFileOn decodeURIComponent (self baseDir) update
           (responseOf (url (candidate update)))) ;;
      downloadAllOn rest
        (if success
         then (S successCount, failCount, app successfulUpdates [update])
         else (successCount, S failCount, successfulUpdates))
  end.

Definition checkApplicationUpdatesOn (appType : string) : Call (nat * nat) :=
  if negb (navigates portal appType) then returning (ret (0, 0))
  else
    let downloads := findDownloads cfg portal appType in
    md <~ returning getMetadata ;;
    let updates :=
      (filter (fun cd => BaseProvider.isNewVersion md cd.1 (version cd.2)) downloads).*2 in
    match updates with
    | [] => returning (ret (0, 0))
    | _ =>
        r <~ downloadAllOn updates (0, 0, []) ;;
        let '(successCount, failCount, successfulUpdates) := r in
        returning (
          BaseProvider.sendNewVersionNotification (self baseDir) successfulUpdates ;;
          ret (successCount, failCount))
    end.

Definition checkForUpdatesOn : Call bool :=
  proceed <~ returning (
    loggedIn <- getLoggedIn ;;
    if loggedIn then ret true else login baseDir (loginPage portal)) ;;
  if proceed then
    _ <~ checkApplicationUpdatesOn "ista-p" ;;
    _ <~ checkApplicationUpdatesOn "ista-next" ;;
    returning (BaseProvider.updateLastCheck (self baseDir) ;; ret true)
  else returning (ret false).

End Responses.

(** The page as the scan of [findDownloads] sees it: the links with an
    [href] and the buttons of a document, the main document and the
    documents of its frames; [None] is a frame without a document or
    one that may not be read. *)
Record Link := {
  href : string;          (* link.href *)
  linkText : string       (* link.textContent *)
}.

Record Button := {
  buttonText : string;    (* button.textContent *)
  onclick : option string (* button.getAttribute('onclick') *)
}.

Record Document := {
  links : list Link;
  buttons : list Button
}.

Record Page := {
  document : Document;
  frames : list (option Document)
}.

Definition scanLink (frameInfo : string) (link : Link) : option Candidate :=
  let text := Js.trim (linkText link) in
  if Js.includes (Js.toLowerCase (href link)) ".pdf"
     || Js.includes (Js.toLowerCase text) ".pdf"
  then None
  else if Js.truthy (href link) && Js.includes (href link) "/api/v2/downloads"
          && Js.truthy text
  then Some {| title := text; url := href link;
               method := "link_search_" +:+ frameInfo; actualFilename := None |}
  else None.

Definition scanButton (frameInfo : string) (button : Button) : option Candidate :=
  let text := Js.trim (buttonText button) in
  match onclick button with
  | Some code =>
      if Js.truthy text && Js.truthy code && Js.includes code "download"
      then Some {| title := text; url := code;
                   method := "button_search_" +:+ frameInfo; actualFilename := None |}
      else None
  | None => None
  end.

(** [searchForDownloads(doc, frameInfo)] *)
Definition searchForDownloads (doc : Document) (frameInfo : string) : list Candidate :=
  app (omap (scanLink frameInfo) (links doc)) (omap (scanButton frameInfo) (buttons doc)).

(** The downloads the page evaluation of [findDownloads] returns. *)
Definition scan (page : Page) : list Candidate :=
  app (searchForDownloads (document page) "main")
      (concat (imap (fun index frame =>
                       match frame with
                       | Some doc => searchForDownloads doc ("frame_" +:+ pretty index)
                       | None => []
                       end) (frames page))).

Section Run.
Variable decodeURIComponent : string -> option string.
Variable baseDir : string.
Variable cfg : Filters.

(** One turn of the loop of [run()], after the wait: the browser is
    restarted ([restart] is what [cleanup()] and [launchBrowser()] come
    to), the session is reset and the check runs; an error is logged and
    the loop goes on. *)
Definition periodicCheck (restart : outcome unit) (portal : Portal) : M unit :=
  ignoreErrors (
    await restart ;;
    setLoggedIn false ;;
    _ <- checkForUpdates decodeURIComponent baseDir cfg portal ;;
    ret tt).

(** The first turns of the loop, with what the browser and the portal
    do in each. *)
Definition periodicChecks (turns : list (outcome unit * Portal)) : M unit :=
  forEach turns (fun turn => periodicCheck turn.1 turn.2).

End Run.

End BMWProvider.

(** ** VWProvider *)

Module VWProvider.

Definition downloadCategories : list (string * list (string * string)) :=
  [("odis_service",
    [("installation", "ODIS-Service Installation");
     ("update", "ODIS-Service Update")]);
   ("fmc", [("installer", "FMC-Installer")])].

(** [super('vw')] *)
Definition self (baseDir : string) : Provider :=
  {| providerName := "vw"; baseDownloadDir := baseDir |}.

Definition matchesFilter (filter : list string) (d : Candidate) : bool :=
  existsb (fun filterText =>
             Js.includes (Js.toLowerCase (title d)) (Js.toLowerCase filterText)
             || Js.includes (title d) filterText) filter.

(** The rule chain of [categorizeDownloads] on the lowercased title:
    application type and category. *)
Definition categoryOf (title : string) : option (string * string) :=
  if (Js.includes title "odis-service" || Js.includes title "odis_service")
     && (Js.includes title "installation" || Js.includes title "install")
  then Some ("odis_service", "installation")
  else if (Js.includes title "odis-service" || Js.includes title "odis_service")
          && (Js.includes title "update" || Js.includes title "update")
  then Some ("odis_service", "update")
  else if (Js.includes title "fmc" || Js.includes title "flashmediacreator"
           || Js.includes title "flashmedia" || Js.includes title "FMC-Installer")
          && (Js.includes title "installer" || Js.includes title "install"
              || Js.includes title "download" || Js.includes title "FMC-Installer")
  then Some ("fmc", "installer")
  else None.

(** [download.actualFilename || download.title] *)
Definition filenameOf (d : Candidate) : string :=
  match actualFilename d with
  | Some f => if Js.truthy f then f else title d
  | None => title d
  end.

Definition categorize (appType : string) (d : Candidate) (category : string) : Artifact :=
  {| candidate := d;
     category := category;
     appType := appType;
     displayName := assoc appType downloadCategories ≫= assoc category;
     version := Version.vwExtractVersion (url d) (filenameOf d);
     originalFilename := Some (filenameOf d) |}.

Definition categorizeStep (filter : list string)
    (categorized : list (string * Artifact)) (d : Candidate) : list (string * Artifact) :=
  if negb (matchesFilter filter d) then categorized
  else
    match categoryOf (Js.toLowerCase (title d)) with
    | Some (appType, category) =>
        if Js.truthy category && Js.truthy appType && negb (occupied category categorized)
        then app categorized [(category, categorize appType d category)]
        else categorized
    | None => categorized
    end.

(** [downloadFilter] is [VW_DOWNLOAD_FILTER]. *)
Definition categorizeDownloads (downloadFilter : list string) (downloads : list Candidate)
    : list (string * Artifact) :=
  fold_left (categorizeStep downloadFilter) downloads [].

(** What the login page does during one [login()]. *)
Record LoginPage := {
  submitted : outcome unit;          (* goto, waitForSelector, fill, click *)
  statusAt : nat -> outcome bool;    (* checkLoginStatus() of the n-th attempt *)
  finalUrl : string                  (* page.url() after the attempts *)
}.

Definition maxAttempts : nat := 10.

(** The polling loop of [login()]: login seen or not, and attempts made. *)
Fixpoint poll (status : nat -> outcome bool) (attempts remaining : nat)
    : outcome (bool * nat) :=
  match remaining with
  | O => Ok (false, attempts)
  | S remaining' =>
      match status (S attempts) with
      | Throw e => Throw e
      | Ok true => Ok (true, S attempts)
      | Ok false => poll status (S attempts) remaining'
      end
  end.

Definition quote : string := String (ascii_of_nat 34) EmptyString.

Definition verificationFailed (attempts : nat) (currentUrl : string) : string :=
  "Login verification failed - No " +:+ quote +:+ "Angemeldet als" +:+ quote
  +:+ " and " +:+ quote +:+ "iamneteu" +:+ quote +:+ " text found after "
  +:+ pretty attempts +:+ " attempts. URL: " +:+ currentUrl.

Definition login (page : LoginPage) : M bool :=
  loggedIn <- getLoggedIn ;;
  if loggedIn then ret true
  else
    tryCatch (
      await (submitted page) ;;
      r <- await (poll (statusAt page) 0 maxAttempts) ;;
      let '(loginSuccess, attempts) := r in
      if loginSuccess then setLoggedIn true ;; ret true
      else
        let currentUrl := finalUrl page in
        if Js.includes currentUrl "erwin" || Js.includes currentUrl "volkswagen"
        then setLoggedIn true ;; ret true
        else throw (verificationFailed attempts currentUrl))
    (fun _ => ret false).

Record Portal := {
  sessionAlive : bool;               (* checkLoginStatus() at the start of the cycle *)
  loginPage : LoginPage;
  navigation : outcome bool;         (* page.goto, then checkLoginStatus() *)
  reloginPage : LoginPage;
  found : outcome (list Candidate);
  transfers : string -> Transfer
}.

Section Cycle.
Variable decodeURIComponent : string -> option string.
Variable baseDir : string.
Variable downloadFilter : list string.
Variable portal : Portal.

Definition resolveFileName (download : Artifact) : string :=
  let fileName := originalFilename download in
  let fileName :=
    if BaseProvider.unusable fileName
    then BaseProvider.extractCleanFilename decodeURIComponent (url (candidate download))
    else fileName in
  if BaseProvider.unusable fileName then BaseProvider.fallbackName download
  else default "" fileName.

Definition downloadFile (download : Artifact) (transfer : Transfer) : M bool :=
  tryCatch (BaseProvider.transferTo (self baseDir) download (resolveFileName download) transfer)
           (fun _ => ret false).

Definition navigateToDownloads : M bool :=
  tryCatch (
    stillLoggedIn <- await (navigation portal) ;;
    (if stillLoggedIn then ret tt
     else
       setLoggedIn false ;;
       loginSuccess <- login (reloginPage portal) ;;
       if loginSuccess then ret tt
       else throw "Re-login nach Navigation fehlgeschlagen") ;;
    ret true)
  (fun _ => ret false).

Definition findDownloads : list (string * Artifact) :=
  match found portal with
  | Ok downloads => categorizeDownloads downloadFilter downloads
  | Throw _ => []
  end.

Fixpoint downloadAll (updates : list Artifact) (acc : nat * nat) : M (nat * nat) :=
  match updates with
  | [] => ret acc
  | update :: rest =>
      let '(successCount, failCount) := acc in
      success <- tryCatch
        (downloadFile update (transfers portal (url (candidate update))))
        (fun _ => ret false) ;;
      downloadAll rest
        (if success then (S successCount, failCount) else (successCount, S failCount))
  end.

(** [checkForUpdates()]: the counts, or [None] for the bare [return] of a
    skipped cycle. *)
Definition checkForUpdates : M (option (nat * nat)) :=
  loggedIn <- getLoggedIn ;;
  proceed <- (if negb (sessionAlive portal) || negb loggedIn
              then login (loginPage portal) else ret true) ;;
  if negb proceed then ret None
  else
    navigationSuccess <- navigateToDownloads ;;
    if negb navigationSuccess then ret None
    else
      md <- getMetadata ;;
      let updates :=
        (filter (fun cd => BaseProvider.isNewVersion md cd.1 (version cd.2)) findDownloads).*2 in
      counts <- downloadAll updates (0, 0) ;;
      BaseProvider.updateLastCheck (self baseDir) ;;
      ret (Some counts).

End Cycle.

(** The cycle on the responses as they come; [breaks] as for BMW. *)
Section Responses.
Variable decodeURIComponent : string -> option string.
Variable baseDir : string.
Variable downloadFilter : list string.
Variable portal : Portal.
Variable breaks : string -> option N.

Definition responseOf (u : string) : Response :=
  match breaks u with
  | Some partial => SourceFails partial
  | None => Settles (transfers portal u)
  end.

(** [downloadFile] on the response as it comes. *)
Definition downloadFileOn (download : Artifact) (response : Response) : Call bool :=
  match response with
  | Settles transfer => returning (downloadFile decodeURIComponent baseDir download transfer)
  | SourceFails _ =>
      BaseProvider.transferOn (self baseDir) download
        (resolveFileName decodeURIComponent download) response
  end.

Fixpoint downloadAllOn (updates : list Artifact) (acc : nat * nat) : Call (nat * nat) :=
  match updates with
  | [] => returning (ret acc)
  | update :: rest =>
      let '(successCount, failCount) := acc in
      success <~ attempt (downloadFileOn update (responseOf (url (candidate update)))) ;;
      downloadAllOn rest
        (if success then (S successCount, failCount) else (successCount, S failCount))
  end.

Definition checkForUpdatesOn : Call (option (nat * nat)) :=
  proceed <~ returning (
    loggedIn <- getLoggedIn ;;
    if negb (sessionAlive portal) || negb loggedIn
    then login (loginPage portal) else ret true) ;;
  if negb proceed then returning (ret None)
  else
    navigationSuccess <~ returning (navigateToDownloads portal) ;;
    if negb navigationSuccess then returning (ret None)
    else
      md <~ returning getMetadata ;;
      let updates :=
        (filter (fun cd => BaseProvider.isNewVersion md cd.1 (version cd.2))
                (findDownloads downloadFilter portal)).*2 in
      counts <~ downloadAllOn updates (0, 0) ;;
      returning (BaseProvider.updateLastCheck (self baseDir) ;; ret (Some counts)).

End Responses.

End VWProvider.

(** ** CarDownloaderManager *)

Module CarDownloaderManager.

(** The credentials [initialize()] looks for in the environment. *)
Record Credentials := {
  bmwUsername : option string;   (* BMW_USERNAME *)
  bmwPassword : option string;   (* BMW_PASSWORD *)
  vwUsername : option string;    (* VW_USERNAME *)
  vwPassword : option string     (* VW_PASSWORD *)
}.

(** [this.providers], each provider with its [metadata], in the order
    of insertion, and [this.runningProviders]. *)
Record Manager := {
  providers : list (string * Metadata);
  runningProviders : list string
}.

Definition configured (value : option string) : bool :=
  match value with
  | Some s => Js.truthy s
  | None => false
  end.

(** [initialize()] on the manager of the constructor; [None] is
    [process.exit(1)].  A provider that was just constructed has the
    empty object for its [metadata]. *)
Definition initialize (env : Credentials) : option Manager :=
  let bmw := if configured (bmwUsername env) && configured (bmwPassword env)
             then [("bmw", BaseProvider.constructedMetadata)] else [] in
  let vw := if configured (vwUsername env) && configured (vwPassword env)
            then [("vw", BaseProvider.constructedMetadata)] else [] in
  match app bmw vw with
  | [] => None
  | providers => Some {| providers := providers; runningProviders := [] |}
  end.

(** An entry of [getProviderStatus()]; [None] stands for ['Nie']. *)
Record Status := {
  running : bool;
  statusLastUpdate : option Time;
  downloadCount : nat
}.

Definition getProviderStatus (m : Manager) : list (string * Status) :=
  (fun provider =>
     (provider.1,
      {| running := bool_decide (provider.1 ∈ runningProviders m);
         statusLastUpdate := lastUpdate provider.2;
         downloadCount := size (default ∅ (downloads provider.2)) |}))
  <$> providers m.

End CarDownloaderManager.

(** ** WebServer *)

Module WebServer.
Import Regex.

(** /^(\d{4}-\d{2}-\d{2}T\d{2}:\d{2}:\d{2}\.\d{3}Z)/ *)
Definition isoInstant : pattern :=
  [digitsN 4; chr "-"; digitsN 2; chr "-"; digitsN 2; chr "T";
   digitsN 2; chr ":"; digitsN 2; chr ":"; digitsN 2; chr "."; digitsN 3; chr "Z"].

(** [extractTimestamp(logLine)]: the pattern is anchored at the start
    of the line; [None] is [null]. *)
Definition extractTimestamp (logLine : string) : option string :=
  (fun n => Js.take n logLine) <$> matchHere isoInstant logLine.

(** Digits of the decimal notation. *)
Definition digit (n : N) : string := pretty (n mod 10)%N.

(** [parseFloat(gb.toFixed(2)) + ' GB'] for [gb = bytes / 2^30], on the
    sizes a number holds exactly (below 2^53): the division by a power
    of two is exact, [toFixed(2)] takes the nearest number of
    hundredths, the upper one of two that are equally near, and the
    number is printed without its trailing zeros. *)
Definition formatFileSize (bytes : N) : string :=
  if (bytes =? 0)%N then "0 GB"
  else
    let hundredths := ((200 * bytes + 2 ^ 30) / 2 ^ 31)%N in
    let whole := (hundredths / 100)%N in
    let fraction := (hundredths mod 100)%N in
    pretty whole
    +:+ (if (fraction =? 0)%N then ""
         else "." +:+ digit (fraction / 10)
              +:+ (if (fraction mod 10 =? 0)%N then "" else digit fraction))
    +:+ " GB".

End WebServer.

(** The line the loggers print:
    [`${timestamp} [${level.toUpperCase()}] [${source}]: ${message}`],
    with [MAIN], [STATUS] or the upper-cased name of the provider for
    the source. *)
Definition logLine (timestamp level source message : string) : string :=
  timestamp +:+ " [" +:+ Js.toUpperCase level +:+ "] [" +:+ source +:+ "]: " +:+ message.

(** ** Concurrent updates of the aggregate file

    [runAllProviders] starts every vendor loop with [Promise.all]; the
    loops share [global_metadata.json].  [updateProviderMetadata] awaits
    the load and later the save: another loop can run between the two. *)

Module Aggregate.

Inductive phase : Type :=
| Start                          (* before [await loadGlobalMetadata()] *)
| Loaded (g : GlobalMetadata)    (* entry stamped, before [await saveGlobalMetadata(g)] *)
| Done.

Record Task := {
  owner : string;
  payload : Metadata;
  at_ : phase
}.

Definition moveTo (p : phase) (t : Task) : Task :=
  {| owner := owner t; payload := payload t; at_ := p |}.

(** A task runs up to its next [await]. *)
Definition stepTask (t : Task) : M Task :=
  match at_ t with
  | Start =>
      g <- MetadataManager.loadGlobalMetadata ;;
      g' <- MetadataManager.stamp (owner t) (payload t) g ;;
      ret (moveTo (Loaded g') t)
  | Loaded g' =>
      MetadataManager.saveGlobalMetadata g' ;;
      ret (moveTo Done t)
  | Done => ret t
  end.

(** The event loop resumes the tasks in the order of [schedule]. *)
Fixpoint run (schedule : list nat) (pool : list Task) : M (list Task) :=
  match schedule with
  | [] => ret pool
  | i :: rest =>
      match pool !! i with
      | Some t => t' <- stepTask t ;; run rest (<[i := t']> pool)
      | None => run rest pool
      end
  end.

Definition update (name : string) (data : Metadata) : Task :=
  {| owner := name; payload := data; at_ := Start |}.

(** The entry of a vendor in the aggregate file. *)
Definition entryOf (name : string) (w : World) : option ProviderEntry :=
  match globalFile w with
  | Json g => providers g !! name
  | _ => None
  end.

End Aggregate.

(** ** Predicates used by the statements *)

(** The record of a category in a vendor state. *)
Definition recordOf (md : Metadata) (category : string) : option ArtifactRecord :=
  downloads md ≫= (.!! category).

(** [lastUpdate] of the vendor state on disk. *)
Definition persistedLastUpdate (w : World) : option Time :=
  match vendorFile w with
  | Json md => lastUpdate md
  | _ => None
  end.

(** Order of timestamps, [null] first. *)
Definition notAfter (a b : option Time) : Prop :=
  match a, b with
  | None, _ => True
  | Some x, Some y => (x <= y)%Z
  | Some _, None => False
  end.

Definition monotoneClock (w : World) : Prop :=
  ∀ i j : nat, (i <= j)%nat → (clock w i <= clock w j)%Z.

(** The vendor state in memory is not older than the one on disk, and
    none is ahead of the clock. *)
Definition inStep (w : World) : Prop :=
  notAfter (persistedLastUpdate w) (lastUpdate (metadata w)) ∧
  notAfter (lastUpdate (metadata w)) (Some (clock w (ticks w))).


(** Every downloaded file of the directory is the file of a record. *)
Definition tracked (w : World) : Prop :=
  ∀ f, is_Some (files w !! f) → Js.endsWith f ".json" = false →
       ∃ c r, recordOf (metadata w) c = Some r ∧ fileName r = f.

(** The category the rule chain and the table of valid categories give
    a candidate, before occupancy is looked at. *)
Definition bmwAssigned (filter : list string) (appType : string) (d : Candidate)
    : option string :=
  if BMWProvider.matchesFilter filter d then
    match BMWProvider.categoryOf appType (Js.toLowerCase (title d)) (Js.toLowerCase (url d)) with
    | Some category =>
        if existsb (String.eqb category) (BMWProvider.validCategories appType)
        then Some category else None
    | None => None
    end
  else None.

Definition bmwFilterOf (cfg : BMWProvider.Filters) (appType : string) : list string :=
  if String.eqb appType "ista-p" then BMWProvider.istaPFilter cfg
  else BMWProvider.istaNextFilter cfg.

(** The same for VW: application type and category of a candidate. *)
Definition vwAssigned (filter : list string) (d : Candidate) : option (string * string) :=
  if VWProvider.matchesFilter filter d then
    match VWProvider.categoryOf (Js.toLowerCase (title d)) with
    | Some (appType, category) =>
        if Js.truthy category && Js.truthy appType then Some (appType, category) else None
    | None => None
    end
  else None.

(** A character occurs in a string. *)
Fixpoint occurs (a : ascii) (s : string) : bool :=
  match s with
  | EmptyString => false
  | String c s' => Ascii.eqb a c || occurs a s'
  end.

(** ** What a pattern denotes

    [Matches p u rest]: the text [u], followed by [rest], is an
    occurrence of the pattern [p]. *)

Fixpoint allOf (cls : ascii -> bool) (u : string) : bool :=
  match u with
  | EmptyString => true
  | String c u' => cls c && allOf cls u'
  end.

Definition within (hi : option nat) (n : nat) : Prop :=
  match hi with
  | Some h => (n <= h)%nat
  | None => True
  end.

Inductive Matches : Regex.pattern -> string -> string -> Prop :=
| MatchesNil rest : Matches [] "" rest
| MatchesRep cls lo hi p u v rest :
    allOf cls u = true ->
    (lo <= String.length u)%nat ->
    within hi (String.length u) ->
    Matches p v rest ->
    Matches (Regex.Rep cls lo hi :: p) (u +:+ v) rest
| MatchesEnd p :
    Matches p "" "" ->
    Matches (Regex.AtEnd :: p) "" "".

(** The pattern occurs somewhere in the string. *)
Definition Occurs (p : Regex.pattern) (s : string) : Prop :=
  ∃ before u rest, s = before +:+ u +:+ rest ∧ Matches p u rest.

(** The first pattern of [ps], in list order, that occurs in [s] yields [v]. *)
Definition Wins (ps : list Regex.pattern) (s v : string) : Prop :=
  ∃ i p, ps !! i = Some p ∧ Regex.firstMatch p s = Some v ∧
         ∀ j q, (j < i)%nat → ps !! j = Some q → ¬ Occurs q s.

Definition NoneOccurs (ps : list Regex.pattern) (s : string) : Prop :=
  ∀ p, p ∈ ps → ¬ Occurs p s.

(** The version a vendor gives a candidate at categorisation: BMW hands
    the URL to [BaseProvider.extractVersion]; VW hands the URL and the
    recovered file name to its own [extractVersion]. *)
Inductive Vendor : Type := BMW | VW.

Definition versionOf (vendor : Vendor) (url filename : string) : string :=
  match vendor with
  | BMW => Version.extractVersion url
  | VW => Version.vwExtractVersion url filename
  end.

(** An extraction covers a pattern when an occurrence of the pattern, in
    the file name or in the URL, always yields a version. *)
Definition Covers (extract : string -> string -> string) (p : Regex.pattern) : Prop :=
  ∀ url filename, Occurs p filename ∨ Occurs p url →
                  extract url filename ≠ Version.unknown.

(** The patterns of both providers open with [\d+]. *)
Definition opensWithDigits (p : Regex.pattern) : Prop :=
  ∃ lo hi p', p = Regex.Rep Js.isDigit (S lo) hi :: p'.

(** Worlds and records of the examples. *)
Module Examples.

Definition tool (v : string) : Artifact :=
  {| candidate := {| title := "Installationsprogramm ISTA/P";
                     url := "https://aos.bmwgroup.com/api/v2/downloads/Tool_" +:+ v +:+ ".exe";
                     method := "link_search_frame_0"; actualFilename := None |};
     category := "installer"; appType := "ista-p";
     displayName := Some "Installationsprogramm ISTA/P";
     version := v; originalFilename := None |}.

Definition toolRecord (v : string) (at_ : Time) : ArtifactRecord :=
  {| artifact := tool v;
     fileName := "Tool_" +:+ v +:+ ".exe";
     filePath := "/mnt/storagebox/providers/bmw/Tool_" +:+ v +:+ ".exe";
     fileSize := 1024; downloadedAt := at_ |}.

(** A vendor state with one record, [installer] at 1.0.0. *)
Definition recorded : Metadata :=
  {| lastUpdate := Some 5%Z;
     downloads := Some {[ "installer" := toolRecord "1.0.0" 4%Z ]} |}.

(** A world in which [Tool_1.0.0.exe] was downloaded and recorded. *)
Definition world : World :=
  {| clock := fun n => (10 + Z.of_nat n)%Z; ticks := 0;
     files := {[ "Tool_1.0.0.exe" := 1024%N ]};
     vendorFile := Json recorded;
     globalFile := Missing;
     smtpUp := true; mails := [];
     metadata := recorded; isLoggedIn := false |}.

Definition bmw : Provider := BMWProvider.self "/mnt/storagebox/providers".

(** A vendor state whose record of [installer] carries no version, as
    a metadata file that this program did not write can. *)
Definition unversioned : Metadata :=
  {| lastUpdate := Some 5%Z;
     downloads := Some {[ "installer" := toolRecord "" 4%Z ]} |}.

(** A world in which [Tool_1.0.0.exe] was downloaded and recorded, and
    in which an older [Tool_0.9.0.exe] lies about unrecorded. *)
Definition staleToolWorld : World :=
  {| clock := clock world; ticks := 0;
     files := {[ "Tool_0.9.0.exe" := 512%N; "Tool_1.0.0.exe" := 1024%N ]};
     vendorFile := Json recorded;
     globalFile := Missing;
     smtpUp := true; mails := [];
     metadata := recorded; isLoggedIn := false |}.

(** The installation packages of ODIS as the VW portal names them:
    [ODIS-Service_installation_25_1_0_20250820.zip]. *)
Definition odisName (v : string) : string :=
  "ODIS-Service_installation_" +:+ v +:+ ".zip".

Definition odis (v : string) : Artifact :=
  VWProvider.categorize "odis_service"
    {| title := "ODIS-Service Installation";
       url := "https://erwin.volkswagen.de/erwin/downloadFile.do?id=4711";
       method := "link_search"; actualFilename := Some (odisName v) |}
    "installation".

Definition odisRecord (v : string) (at_ : Time) : ArtifactRecord :=
  {| artifact := odis v;
     fileName := odisName v;
     filePath := "/mnt/storagebox/providers/vw/" +:+ odisName v;
     fileSize := 1024; downloadedAt := at_ |}.

(** A VW world in which the package of 24_2_0 was downloaded and
    recorded, and in which the package of 24_1_0 lies about unrecorded. *)
Definition staleOdisWorld : World :=
  {| clock := clock world; ticks := 0;
     files := {[ odisName "24_1_0_20240115" := 1024%N;
                 odisName "24_2_0_20240610" := 1024%N ]};
     vendorFile :=
       Json {| lastUpdate := Some 5%Z;
               downloads := Some {[ "installation" := odisRecord "24_2_0_20240610" 4%Z ]} |};
     globalFile := Missing;
     smtpUp := true; mails := [];
     metadata :=
       {| lastUpdate := Some 5%Z;
          downloads := Some {[ "installation" := odisRecord "24_2_0_20240610" 4%Z ]} |};
     isLoggedIn := true |}.

End Examples.

(** The reason a BMW login attempt fails with, if it fails. *)
Definition bmwLoginFailure (page : outcome string) : option string :=
  match page with
  | Throw message => Some message
  | Ok currentUrl =>
      if Js.includes currentUrl "startpage-workshop"
         || Js.includes currentUrl "aos.bmwgroup.com"
      then None
      else Some ("Login verification failed - URL: " +:+ currentUrl)
  end.

(** A VW login page on which the form cannot even be submitted. *)
Definition vwTimeout : VWProvider.LoginPage :=
  {| VWProvider.submitted := Throw "page.goto: Timeout 30000ms exceeded.";
     VWProvider.statusAt := fun _ => Ok false;
     VWProvider.finalUrl := "about:blank" |}.

(** ** The effects of the store operations, as functions on worlds *)

(** The aggregate file after [updateProviderMetadata]. *)
Definition aggregateAfter (name : string) (data : Metadata) (w : World) : GlobalMetadata :=
  let g := match globalFile w with
           | Json g => g
           | _ => MetadataManager.emptyGlobal
           end in
  {| providers :=
       <[name := {| entryDownloads := downloads data;
                    entryLastUpdate := Some (clock w (ticks w));
                    entryVersion := schemaVersion g |}]> (providers g);
     lastGlobalUpdate := Some (clock w (S (ticks w)));
     schemaVersion := schemaVersion g |}.

Definition afterAggregate (name : string) (data : Metadata) (w : World) : World :=
  withGlobalFile (Json (aggregateAfter name data w)) (withTicks (S (S (ticks w))) w).

Definition afterPersist (self : Provider) (w : World) : World :=
  afterAggregate (providerName self) (metadata w) (withVendorFile (Json (metadata w)) w).

(** The names [readdir] lists. *)
Definition listing (self : Provider) (w : World) : list string :=
  app (map_to_list (files w)).*1
      match vendorFile w with
      | Missing => []
      | _ => [metadataName self]
      end.

(** The directory after the loop of [cleanupSimilarFiles] went over [names]. *)
Definition sweep (newFileName : string) (names : list string) (fs : gmap string N)
    : gmap string N :=
  fold_left (fun fs file =>
               if BaseProvider.similar newFileName file then delete file fs else fs)
            names fs.

Definition afterSweep (self : Provider) (newFileName : string) (w : World) : World :=
  withFiles (sweep newFileName (listing self w) (files w)) w.

(** The record of the category names another file, and that file is on disk. *)
Definition staleFile (category newFileName : string) (w : World) : option string :=
  match recordOf (metadata w) category with
  | Some r =>
      if Js.truthy (fileName r) && negb (String.eqb (fileName r) newFileName)
      then match files w !! fileName r with
           | Some _ => Some (fileName r)
           | None => None
           end
      else None
  | None => None
  end.

Definition forget (category : string) (md : Metadata) : Metadata :=
  {| lastUpdate := lastUpdate md; downloads := delete category <$> downloads md |}.

Definition afterCleanup (self : Provider) (category newFileName : string) (w : World) : World :=
  afterSweep self newFileName
    match staleFile category newFileName w with
    | Some old =>
        afterPersist self
          (withMetadata (forget category (metadata w)) (withFiles (delete old (files w)) w))
    | None => w
    end.

(** The record [downloadFile] hands to [updateMetadata]. *)
Definition recordFor (self : Provider) (download : Artifact) (name : string)
    (size : N) (t : Time) : ArtifactRecord :=
  {| artifact := download; fileName := name;
     filePath := Path.join (downloadDir self) name;
     fileSize := size; downloadedAt := t |}.

(** The world after a transfer that did not yield a non-empty file. *)
Definition afterFailure (self : Provider) (download : Artifact) (name : string)
    (w : World) : World :=
  let w1 := afterCleanup self (category download) name w in
  withFiles (delete name (files w1)) w1.

(** The world in which a transfer whose response stream failed after
    [partial] bytes is left waiting. *)
Definition afterBreak (self : Provider) (download : Artifact) (name : string)
    (partial : N) (w : World) : World :=
  let w1 := afterCleanup self (category download) name w in
  withFiles (<[name := partial]> (files w1)) w1.

(** The world after a transfer that wrote [size] > 0 bytes. *)
Definition afterSuccess (self : Provider) (download : Artifact) (name : string)
    (size : N) (w : World) : World :=
  let w1 := afterCleanup self (category download) name w in
  let record := recordFor self download name size (clock w1 (ticks w1)) in
  afterPersist self
    (withMetadata
       {| lastUpdate := Some (clock w1 (S (ticks w1)));
          downloads := Some (<[category download := record]>
                               (default ∅ (downloads (metadata w1)))) |}
       (withTicks (S (S (ticks w1))) (withFiles (<[name := size]> (files w1)) w1))).

(** [w'] is a later world of the same run: same clock, no fewer
    readings taken, and, under a monotone clock, the two vendor states
    still in step and [lastUpdate] on disk not moved back. *)
Definition advances (w w' : World) : Prop :=
  clock w' = clock w ∧ (ticks w <= ticks w')%nat ∧
  (monotoneClock w → inStep w →
   inStep w' ∧ notAfter (persistedLastUpdate w) (persistedLastUpdate w')).

Definition Advancing {A} (m : M A) : Prop := ∀ w, advances w (m w).2.

(** The computation returns; no exception leaves it. *)
Definition Total {A} (m : M A) : Prop := ∀ w, ∃ a, (m w).1 = Ok a.

(** The operations of a provider on the vendor state. *)
Inductive Operation : Type :=
| LoadMetadata (self : Provider)
| UpdateMetadata (self : Provider) (category : string) (data : ArtifactRecord)
| UpdateLastCheck (self : Provider)
| CleanupOldVersions (self : Provider) (category newFileName : string)
| DownloadFile (decode : string -> option string) (self : Provider)
    (download : Artifact) (transfer : Transfer)
| VwDownloadFile (decode : string -> option string) (baseDir : string)
    (download : Artifact) (transfer : Transfer)
| BmwCheckForUpdates (decode : string -> option string) (baseDir : string)
    (cfg : BMWProvider.Filters) (portal : BMWProvider.Portal)
| VwCheckForUpdates (decode : string -> option string) (baseDir : string)
    (downloadFilter : list string) (portal : VWProvider.Portal).

Definition perform (op : Operation) (w : World) : World :=
  match op with
  | LoadMetadata self => (BaseProvider.loadMetadata self w).2
  | UpdateMetadata self category data =>
      (BaseProvider.updateMetadata self category data w).2
  | UpdateLastCheck self => (BaseProvider.updateLastCheck self w).2
  | CleanupOldVersions self category newFileName =>
      (BaseProvider.cleanupOldVersions self category newFileName w).2
  | DownloadFile decode self download transfer =>
      (BaseProvider.downloadFile decode self download transfer w).2
  | VwDownloadFile decode baseDir download transfer =>
      (VWProvider.downloadFile decode baseDir download transfer w).2
  | BmwCheckForUpdates decode baseDir cfg portal =>
      (BMWProvider.checkForUpdates decode baseDir cfg portal w).2
  | VwCheckForUpdates decode baseDir downloadFilter portal =>
      (VWProvider.checkForUpdates decode baseDir downloadFilter portal w).2
  end.

Definition performAll (ops : list Operation) (w : World) : World :=
  fold_left (fun w op => perform op w) ops w.

(** ** Predicates used by the further properties *)

(** A computation keeps [I] when [I] holds of the world it leaves,
    returning or throwing, whenever it held of the world it started in. *)
Definition Keeps (I : World → Prop) {A} (m : M A) : Prop := ∀ w, I w → I (m w).2.

(** The transfer delivers a non-empty file. *)
Definition delivers (transfer : Transfer) : bool :=
  match transfer with
  | Finished size => (0 <? size)%N
  | _ => false
  end.

(** The response stream of one of the downloads fails midway. *)
Definition anyBreaks (breaks : string → option N) (updates : list Artifact) : bool :=
  existsb (fun u => match breaks (url (candidate u)) with
                    | Some _ => true
                    | None => false
                    end) updates.

(** The directory, the vendor state, the two metadata files, the mails
    and the readings taken of the clock are in [w'] what they are in [w]. *)
Definition sameStore (w w' : World) : Prop :=
  files w' = files w ∧ metadata w' = metadata w ∧ vendorFile w' = vendorFile w ∧
  globalFile w' = globalFile w ∧ mails w' = mails w ∧ ticks w' = ticks w.

(** Every downloaded file is the file of a record, and no directory
    entry has the empty name. *)
Definition wellTracked (w : World) : Prop := tracked w ∧ files w !! "" = None.

(** The artifacts a BMW application check goes on to download: the
    categorised downloads of the page that [isNewVersion] accepts. *)
Definition bmwUpdates (cfg : BMWProvider.Filters) (portal : BMWProvider.Portal)
    (appType : string) (md : Metadata) : list Artifact :=
  (filter (fun cd => BaseProvider.isNewVersion md cd.1 (version cd.2))
          (BMWProvider.findDownloads cfg portal appType)).*2.

(** The same for a VW cycle. *)
Definition vwUpdates (downloadFilter : list string) (portal : VWProvider.Portal)
    (md : Metadata) : list Artifact :=
  (filter (fun cd => BaseProvider.isNewVersion md cd.1 (version cd.2))
          (VWProvider.findDownloads downloadFilter portal)).*2.

(** The status check of a VW login page sees the session within the ten
    attempts, or the page has ended up on the portal. *)
Definition vwAccepted (page : VWProvider.LoginPage) : Prop :=
  (∃ n, (1 <= n <= VWProvider.maxAttempts)%nat ∧ VWProvider.statusAt page n = Ok true) ∨
  Js.includes (VWProvider.finalUrl page) "erwin" = true ∨
  Js.includes (VWProvider.finalUrl page) "volkswagen" = true.

(** The aggregate [loadGlobalMetadata] reads in a world. *)
Definition aggregate (w : World) : GlobalMetadata :=
  match globalFile w with
  | Json g => g
  | _ => MetadataManager.emptyGlobal
  end.

(** An entry of the aggregate without its records older than [cutoff]. *)
Definition pruned (cutoff : Time) (e : ProviderEntry) : ProviderEntry :=
  {| entryDownloads :=
       filter (fun kv => MetadataManager.expired cutoff kv.2 = false) <$> entryDownloads e;
     entryLastUpdate := entryLastUpdate e;
     entryVersion := entryVersion e |}.

(** The number of records of an entry that are older than [cutoff]. *)
Definition expiredOf (cutoff : Time) (e : ProviderEntry) : nat :=
  size (filter (fun kv => MetadataManager.expired cutoff kv.2 = true)
               (default ∅ (entryDownloads e))).

(** The number of records of all entries that are older than [cutoff]. *)
Definition expiredRecords (cutoff : Time) (ps : gmap string ProviderEntry) : nat :=
  map_fold (fun _ e n => (n + expiredOf cutoff e)%nat) 0%nat ps.

(** The reason of the BMW login failure of a turn of the loop. *)
Definition turnFailure (turn : outcome unit * BMWProvider.Portal) : option Notification :=
  LoginFailure "bmw" <$> bmwLoginFailure (BMWProvider.loginPage turn.2).

(** The length of every text a pattern matches, when the pattern is a
    sequence of classes each repeated a fixed number of times. *)
Fixpoint fixedWidth (p : Regex.pattern) : option nat :=
  match p with
  | [] => Some 0%nat
  | Regex.Rep _ lo (Some hi) :: p' =>
      if (lo =? hi)%nat then Nat.add lo <$> fixedWidth p' else None
  | _ => None
  end.

(** * Properties *)

(** ** Strings *)

Section StringFacts.

Lemma lowerChar_not_upper c : Js.isUpper (Js.lowerChar c) = false.
Proof. destruct c as [[] [] [] [] [] [] [] []]; reflexivity. Qed.

Lemma occurs_lower a s : Js.isUpper a = true → occurs a (Js.toLowerCase s) = false.
Proof.
  intros Ha. induction s as [|c s IH]; simpl; [reflexivity|].
  rewrite IH, orb_false_r.
  destruct (Ascii.eqb_spec a (Js.lowerChar c)) as [->|]; [|reflexivity].
  rewrite lowerChar_not_upper in Ha. discriminate.
Qed.

Lemma includes_occurs s a p : Js.includes s (String a p) = true → occurs a s = true.
Proof.
  induction s as [|c s IH]; simpl; [discriminate|].
  destruct (Ascii.eqb a c); simpl; [reflexivity|]. exact IH.
Qed.

(** A needle that starts with a capital is never found in a lowercased
    string. *)
Lemma includes_lower_capital s a p :
  Js.isUpper a = true → Js.includes (Js.toLowerCase s) (String a p) = false.
Proof.
  intros Ha. destruct (Js.includes _ _) eqn:E; [|reflexivity].
  apply includes_occurs in E. rewrite occurs_lower in E by assumption. discriminate.
Qed.

End StringFacts.

(** ** Categorisation (BMW) *)

Section Categorisation.
Import BMWProvider.

Lemma assoc_snoc {A} c k (v : A) l :
  assoc c (l ++ [(k, v)])%list =
  match assoc c l with
  | Some a => Some a
  | None => if String.eqb c k then Some v else None
  end.
Proof.
  induction l as [|[k' a] l IH]; simpl; [reflexivity|].
  destruct (String.eqb c k'); [reflexivity|exact IH].
Qed.

Lemma categorizeStep_cases filter appType acc d :
  categorizeStep filter appType acc d =
  match bmwAssigned filter appType d with
  | Some k => if occupied k acc then acc
              else (acc ++ [(k, categorize appType d k)])%list
  | None => acc
  end.
Proof.
  unfold categorizeStep, bmwAssigned.
  destruct (matchesFilter filter d); simpl; [|reflexivity].
  destruct (categoryOf _ _ _) as [k|]; [|reflexivity].
  destruct (existsb _ _); simpl; [|reflexivity].
  destruct (occupied k acc); reflexivity.
Qed.

Lemma fold_categorize_assoc filter appType ds acc c :
  assoc c (fold_left (categorizeStep filter appType) ds acc) =
  match assoc c acc with
  | Some a => Some a
  | None =>
      (fun d => categorize appType d c) <$>
      find (fun d => bool_decide (bmwAssigned filter appType d = Some c)) ds
  end.
Proof.
  revert acc. induction ds as [|d ds IH]; intros acc; simpl.
  { destruct (assoc c acc); reflexivity. }
  rewrite IH, categorizeStep_cases.
  destruct (bmwAssigned filter appType d) as [k|] eqn:Ek.
  - unfold occupied. destruct (assoc k acc) as [a|] eqn:Eo.
    + destruct (assoc c acc) as [a'|] eqn:Ec; [reflexivity|].
      rewrite bool_decide_eq_false_2; [reflexivity|].
      intros [= ->]. congruence.
    + rewrite assoc_snoc. destruct (assoc c acc) as [a'|] eqn:Ec; [reflexivity|].
      destruct (String.eqb_spec c k) as [->|Hne].
      * rewrite bool_decide_eq_true_2 by reflexivity. reflexivity.
      * rewrite bool_decide_eq_false_2; [reflexivity|]. intros [= ->]. congruence.
  - destruct (assoc c acc); [reflexivity|].
    rewrite bool_decide_eq_false_2 by discriminate. reflexivity.
Qed.

Lemma vwCategorizeStep_cases filter acc d :
  VWProvider.categorizeStep filter acc d =
  match vwAssigned filter d with
  | Some (appType, k) =>
      if occupied k acc then acc
      else (acc ++ [(k, VWProvider.categorize appType d k)])%list
  | None => acc
  end.
Proof.
  unfold VWProvider.categorizeStep, vwAssigned.
  destruct (VWProvider.matchesFilter filter d); simpl; [|reflexivity].
  destruct (VWProvider.categoryOf _) as [[appType k]|]; [|reflexivity].
  destruct (Js.truthy k && Js.truthy appType); simpl; [|reflexivity].
  destruct (occupied k acc); reflexivity.
Qed.

Lemma vw_fold_categorize_assoc filter ds acc c :
  assoc c (fold_left (VWProvider.categorizeStep filter) ds acc) =
  match assoc c acc with
  | Some a => Some a
  | None =>
      d ← find (fun d => bool_decide (snd <$> vwAssigned filter d = Some c)) ds;
      appType ← fst <$> vwAssigned filter d;
      Some (VWProvider.categorize appType d c)
  end.
Proof.
  revert acc. induction ds as [|d ds IH]; intros acc.
  { simpl. destruct (assoc c acc); reflexivity. }
  cbn [fold_left find]. rewrite IH, vwCategorizeStep_cases.
  destruct (vwAssigned filter d) as [[appType k]|] eqn:Ek.
  - unfold occupied. destruct (assoc k acc) as [a|] eqn:Eo.
    + destruct (assoc c acc) as [a'|] eqn:Ec; [reflexivity|].
      rewrite bool_decide_eq_false_2; [reflexivity|].
      simpl. intros [= ->]. congruence.
    + rewrite assoc_snoc. destruct (assoc c acc) as [a'|] eqn:Ec; [reflexivity|].
      destruct (String.eqb_spec c k) as [->|Hne].
      * rewrite bool_decide_eq_true_2 by reflexivity. simpl. rewrite Ek. reflexivity.
      * rewrite bool_decide_eq_false_2; [reflexivity|]. simpl. intros [= ->]. congruence.
  - destruct (assoc c acc); [reflexivity|].
    rewrite bool_decide_eq_false_2 by discriminate. reflexivity.
Qed.

(** The rule on the URL of the programming data looks for a capitalised
    needle in the lowercased URL. *)
Lemma programming_data_url_never u :
  Js.includes (Js.toLowerCase u) "ISTAOSS_ProgrammingData_" = false.
Proof. apply includes_lower_capital. reflexivity. Qed.

Lemma categoryOf_programmierdaten title url :
  Js.includes title "programmierdaten" = true →
  categoryOf "ista-next" title url = Some "programming_data".
Proof. intros H. unfold categoryOf. simpl. rewrite H. reflexivity. Qed.

Lemma categoryOf_client d :
  Js.includes (Js.toLowerCase (title d)) "programmierdaten" = false →
  Js.includes (Js.toLowerCase (title d)) "installationsdatei"
  || Js.includes (Js.toLowerCase (title d)) "client"
  || Js.includes (Js.toLowerCase (url d)) "istaoss"
  || Js.includes (Js.toLowerCase (url d)) "client" = true →
  categoryOf "ista-next" (Js.toLowerCase (title d)) (Js.toLowerCase (url d)) = Some "client".
Proof.
  intros Hp Hc. unfold categoryOf. simpl String.eqb. cbv iota.
  rewrite Hp, programming_data_url_never. simpl orb. cbv iota.
  rewrite Hc. reflexivity.
Qed.

Lemma occupied_false {A} k (l : list (string * A)) : occupied k l = false → k ∉ l.*1.
Proof.
  unfold occupied. induction l as [|[k' a] l IH]; simpl; [intros _; apply not_elem_of_nil|].
  destruct (String.eqb_spec k k') as [->|Hne]; [discriminate|].
  intros H. apply not_elem_of_cons. auto.
Qed.

Lemma assoc_member {A} k (l : list (string * A)) : k ∈ l.*1 → is_Some (assoc k l).
Proof.
  induction l as [|[k' a] l IH]; simpl; [intros H; now apply elem_of_nil in H|].
  intros H. destruct (String.eqb_spec k k'); [eauto|].
  apply elem_of_cons in H as [H|H]; [congruence|auto].
Qed.

Lemma bmwAssigned_Some filter appType d k :
  bmwAssigned filter appType d = Some k →
  BMWProvider.matchesFilter filter d = true ∧ k ∈ BMWProvider.validCategories appType.
Proof.
  unfold bmwAssigned. destruct (BMWProvider.matchesFilter filter d); [|discriminate].
  destruct (BMWProvider.categoryOf _ _ _) as [c|]; [|discriminate].
  destruct (existsb _ _) eqn:E; [|discriminate]. intros [= <-]. split; [reflexivity|].
  apply existsb_exists in E as (x & Hin & Hx). apply String.eqb_eq in Hx. subst x.
  now apply list_elem_of_In.
Qed.

Lemma vwAssigned_Some filter d appType k :
  vwAssigned filter d = Some (appType, k) →
  VWProvider.matchesFilter filter d = true ∧
  (appType, k) ∈ [("odis_service", "installation"); ("odis_service", "update");
                  ("fmc", "installer")].
Proof.
  unfold vwAssigned, VWProvider.categoryOf.
  destruct (VWProvider.matchesFilter filter d); [|discriminate].
  destruct (_ && _).
  { intros [= <- <-]. split; [reflexivity|]. apply list_elem_of_here. }
  destruct (_ && _).
  { intros [= <- <-]. split; [reflexivity|]. apply list_elem_of_further, list_elem_of_here. }
  destruct (_ && _); [|discriminate].
  intros [= <- <-]. split; [reflexivity|].
  do 2 apply list_elem_of_further. apply list_elem_of_here.
Qed.

Lemma bmw_fold_member filter appType ds : ∀ acc k a,
  (k, a) ∈ fold_left (BMWProvider.categorizeStep filter appType) ds acc →
  (k, a) ∈ acc ∨
  ∃ d, d ∈ ds ∧ bmwAssigned filter appType d = Some k ∧
       a = BMWProvider.categorize appType d k.
Proof.
  induction ds as [|d ds IH]; intros acc k a; simpl; [auto|].
  intros H. apply IH in H as [H|(d' & Hin & Ha & Heq)].
  - rewrite categorizeStep_cases in H.
    destruct (bmwAssigned filter appType d) as [k'|] eqn:Ek; [|auto].
    destruct (occupied k' acc); [auto|].
    apply elem_of_app in H as [H|H]; [auto|].
    apply list_elem_of_singleton in H. injection H as -> ->.
    right. exists d. split; [apply list_elem_of_here|auto].
  - right. exists d'. split; [now apply list_elem_of_further|auto].
Qed.

Lemma bmw_fold_keys filter appType ds : ∀ acc,
  NoDup acc.*1 → NoDup (fold_left (BMWProvider.categorizeStep filter appType) ds acc).*1.
Proof.
  induction ds as [|d ds IH]; intros acc Hnd; simpl; [exact Hnd|].
  apply IH. rewrite categorizeStep_cases.
  destruct (bmwAssigned filter appType d) as [k|]; [|exact Hnd].
  destruct (occupied k acc) eqn:Ho; [exact Hnd|].
  rewrite fmap_app. apply NoDup_app. split; [exact Hnd|]. split.
  - intros x Hx Hx'. apply list_elem_of_singleton in Hx'. subst x.
    now apply occupied_false in Ho.
  - apply NoDup_singleton.
Qed.

Lemma vw_fold_member filter ds : ∀ acc k a,
  (k, a) ∈ fold_left (VWProvider.categorizeStep filter) ds acc →
  (k, a) ∈ acc ∨
  ∃ d appType, d ∈ ds ∧ vwAssigned filter d = Some (appType, k) ∧
               a = VWProvider.categorize appType d k.
Proof.
  induction ds as [|d ds IH]; intros acc k a; [simpl; auto|].
  cbn [fold_left]. intros H. apply IH in H as [H|(d' & appType & Hin & Ha & Heq)].
  - rewrite vwCategorizeStep_cases in H.
    destruct (vwAssigned filter d) as [[appType k']|] eqn:Ek; [|auto].
    destruct (occupied k' acc); [auto|].
    apply elem_of_app in H as [H|H]; [auto|].
    apply list_elem_of_singleton in H. injection H as -> ->.
    right. exists d, appType. split; [apply list_elem_of_here|auto].
  - right. exists d', appType. split; [now apply list_elem_of_further|auto].
Qed.

Lemma vw_fold_keys filter ds : ∀ acc,
  NoDup acc.*1 → NoDup (fold_left (VWProvider.categorizeStep filter) ds acc).*1.
Proof.
  induction ds as [|d ds IH]; intros acc Hnd; [exact Hnd|].
  cbn [fold_left]. apply IH. rewrite vwCategorizeStep_cases.
  destruct (vwAssigned filter d) as [[appType k]|]; [|exact Hnd].
  destruct (occupied k acc) eqn:Ho; [exact Hnd|].
  rewrite fmap_app. apply NoDup_app. split; [exact Hnd|]. split.
  - intros x Hx Hx'. apply list_elem_of_singleton in Hx'. subst x.
    now apply occupied_false in Ho.
  - apply NoDup_singleton.
Qed.

Lemma assoc_occupied {A} k (l : list (string * A)) : k ∈ l.*1 → occupied k l = true.
Proof.
  intros H. apply assoc_member in H as [a H]. unfold occupied. now rewrite H.
Qed.

(** A candidate whose category is taken is passed over: the result is
    the one of the page without it. *)
Lemma bmw_fold_skip filter appType before d after category :
  bmwAssigned filter appType d = Some category →
  category ∈ (fold_left (BMWProvider.categorizeStep filter appType) before []).*1 →
  fold_left (BMWProvider.categorizeStep filter appType) (before ++ d :: after)%list []
  = fold_left (BMWProvider.categorizeStep filter appType) (before ++ after)%list [].
Proof.
  intros Ha Hin. rewrite !fold_left_app. cbn [fold_left].
  rewrite categorizeStep_cases, Ha, (assoc_occupied _ _ Hin). reflexivity.
Qed.

Lemma vw_fold_skip filter before d after appType category :
  vwAssigned filter d = Some (appType, category) →
  category ∈ (fold_left (VWProvider.categorizeStep filter) before []).*1 →
  fold_left (VWProvider.categorizeStep filter) (before ++ d :: after)%list []
  = fold_left (VWProvider.categorizeStep filter) (before ++ after)%list [].
Proof.
  intros Ha Hin. rewrite !fold_left_app. cbn [fold_left].
  rewrite vwCategorizeStep_cases, Ha, (assoc_occupied _ _ Hin). reflexivity.
Qed.

End Categorisation.

Section CategorisationClaims.
Import BMWProvider.

(** C5.  The rules are tried in a fixed order, programming data before
    the client installer; for BMW and for VW a category keeps the first
    candidate of the page that the rules give it, and a later candidate
    of a category that is taken is ignored: no category comes out
    twice, and the result is the one of the page without that
    candidate.  The two candidates "ISTA Programmierdaten"
    (…/ISTAOSS_ProgrammingData_1.2.3.zip) and "Installationsdatei Client"
    (…/client_1.2.3.exe), both let through by the filter, come out as
    exactly [programming_data] and [client], each with its own
    candidate. *)
Theorem categorizeDownloads_first_match
    (cfg : Filters) (prefix1 prefix2 method1 method2 : string) :
  let d1 := {| title := "ISTA Programmierdaten";
               url := prefix1 +:+ "/ISTAOSS_ProgrammingData_1.2.3.zip";
               method := method1; actualFilename := None |} in
  let d2 := {| title := "Installationsdatei Client";
               url := prefix2 +:+ "/client_1.2.3.exe";
               method := method2; actualFilename := None |} in
  matchesFilter (istaNextFilter cfg) d1 = true →
  matchesFilter (istaNextFilter cfg) d2 = true →
  (∀ title url,
      Js.includes title "programmierdaten" = true →
      categoryOf "ista-next" title url = Some "programming_data") ∧
  (∀ cfg' downloads appType category,
      assoc category (categorizeDownloads cfg' downloads appType) =
      (fun d => categorize appType d category) <$>
      find (fun d => bool_decide
                       (bmwAssigned (bmwFilterOf cfg' appType) appType d = Some category))
           downloads) ∧
  (∀ downloadFilter downloads category,
      assoc category (VWProvider.categorizeDownloads downloadFilter downloads) =
      d ← find (fun d => bool_decide
                           (snd <$> vwAssigned downloadFilter d = Some category))
               downloads;
      appType ← fst <$> vwAssigned downloadFilter d;
      Some (VWProvider.categorize appType d category)) ∧
  (∀ cfg' downloads appType,
      NoDup (categorizeDownloads cfg' downloads appType).*1) ∧
  (∀ downloadFilter downloads,
      NoDup (VWProvider.categorizeDownloads downloadFilter downloads).*1) ∧
  (∀ cfg' before d after appType category,
      bmwAssigned (bmwFilterOf cfg' appType) appType d = Some category →
      category ∈ (categorizeDownloads cfg' before appType).*1 →
      categorizeDownloads cfg' (before ++ d :: after)%list appType
      = categorizeDownloads cfg' (before ++ after)%list appType) ∧
  (∀ downloadFilter before d after appType category,
      vwAssigned downloadFilter d = Some (appType, category) →
      category ∈ (VWProvider.categorizeDownloads downloadFilter before).*1 →
      VWProvider.categorizeDownloads downloadFilter (before ++ d :: after)%list
      = VWProvider.categorizeDownloads downloadFilter (before ++ after)%list) ∧
  categorizeDownloads cfg [d1; d2] "ista-next" =
    [("programming_data", categorize "ista-next" d1 "programming_data");
     ("client", categorize "ista-next" d2 "client")].
Proof.
  intros d1 d2 H1 H2. split; [|split; [|split; [|split; [|split; [|split; [|split]]]]]].
  - intros t u Ht. apply categoryOf_programmierdaten, Ht.
  - intros cfg' ds appType c. unfold categorizeDownloads.
    rewrite fold_categorize_assoc. reflexivity.
  - intros f ds c. unfold VWProvider.categorizeDownloads.
    rewrite vw_fold_categorize_assoc. reflexivity.
  - intros cfg' ds appType. apply bmw_fold_keys. constructor.
  - intros f ds. apply vw_fold_keys. constructor.
  - intros cfg' before d after appType c. apply bmw_fold_skip.
  - intros f before d after appType c. apply vw_fold_skip.
  - unfold categorizeDownloads. simpl String.eqb. cbv iota. simpl fold_left.
    rewrite !categorizeStep_cases. unfold bmwAssigned.
    rewrite H1, H2.
    rewrite (categoryOf_programmierdaten (Js.toLowerCase (title d1))
               (Js.toLowerCase (url d1)) eq_refl).
    rewrite (categoryOf_client d2 eq_refl eq_refl).
    reflexivity.
Qed.

Lemma categorizeDownloads_first_match_witness :
  let cfg := {| istaPFilter := []; istaNextFilter := ["Programmierdaten"; "Installationsdatei"] |} in
  let d1 := {| title := "ISTA Programmierdaten";
               url := "https://aos.bmwgroup.com/api/v2/downloads" +:+ "/ISTAOSS_ProgrammingData_1.2.3.zip";
               method := "link_search_frame_0"; actualFilename := None |} in
  let d2 := {| title := "Installationsdatei Client";
               url := "https://aos.bmwgroup.com/api/v2/downloads" +:+ "/client_1.2.3.exe";
               method := "link_search_frame_0"; actualFilename := None |} in
  let d3 := {| title := "Installationsdatei Client, Vorversion";
               url := "https://aos.bmwgroup.com/api/v2/downloads/client_1.2.2.exe";
               method := "link_search_frame_0"; actualFilename := None |} in
  matchesFilter (istaNextFilter cfg) d1 = true ∧
  matchesFilter (istaNextFilter cfg) d2 = true ∧
  (categorizeDownloads cfg [d1; d2] "ista-next").*1 = ["programming_data"; "client"] ∧
  version <$> assoc "programming_data" (categorizeDownloads cfg [d1; d2] "ista-next") = Some "1.2.3" ∧
  bmwAssigned (istaNextFilter cfg) "ista-next" d3 = Some "client" ∧
  categorizeDownloads cfg [d1; d2; d3] "ista-next" =
    [("programming_data", categorize "ista-next" d1 "programming_data");
     ("client", categorize "ista-next" d2 "client")].
Proof.
  intros cfg d1 d2 d3.
  assert (Hf1 : matchesFilter (istaNextFilter cfg) d1 = true) by (vm_compute; reflexivity).
  assert (Hf2 : matchesFilter (istaNextFilter cfg) d2 = true) by (vm_compute; reflexivity).
  assert (H3 : bmwAssigned (bmwFilterOf cfg "ista-next") "ista-next" d3 = Some "client")
    by (vm_compute; reflexivity).
  split; [exact Hf1|]. split; [exact Hf2|].
  destruct (categorizeDownloads_first_match cfg
              "https://aos.bmwgroup.com/api/v2/downloads"
              "https://aos.bmwgroup.com/api/v2/downloads"
              "link_search_frame_0" "link_search_frame_0" Hf1 Hf2)
    as (_ & _ & _ & _ & _ & Hskip & _ & E).
  assert (E' : categorizeDownloads cfg [d1; d2] "ista-next" =
                 [("programming_data", categorize "ista-next" d1 "programming_data");
                  ("client", categorize "ista-next" d2 "client")]) by exact E.
  split; [rewrite E'; reflexivity|]. split; [rewrite E'; vm_compute; reflexivity|].
  split; [exact H3|].
  change [d1; d2; d3] with ([d1; d2] ++ [d3])%list.
  rewrite (Hskip cfg [d1; d2] d3 [] "ista-next" "client" H3).
  - rewrite app_nil_r. exact E'.
  - rewrite E'. apply list_elem_of_further, list_elem_of_here.
Defined.

(** C10.  In the ISTA-Next rules the test on the URL of the programming
    data, [url.includes('ISTAOSS_ProgrammingData_')], is made on the
    lowercased URL and holds for no URL; so a candidate let through by
    the filter, whose lowercased title has no 'programmierdaten' and whose
    lowercased URL has 'istaoss' or 'client', is given [client], and
    [programming_data] stays empty. *)
Theorem programming_data_url_rule_dead (cfg : Filters) (d : Candidate) :
  matchesFilter (istaNextFilter cfg) d = true →
  Js.includes (Js.toLowerCase (title d)) "programmierdaten" = false →
  Js.includes (Js.toLowerCase (url d)) "istaoss" = true
  ∨ Js.includes (Js.toLowerCase (url d)) "client" = true →
  (∀ u, Js.includes (Js.toLowerCase u) "ISTAOSS_ProgrammingData_" = false) ∧
  categoryOf "ista-next" (Js.toLowerCase (title d)) (Js.toLowerCase (url d)) = Some "client" ∧
  categorizeDownloads cfg [d] "ista-next" = [("client", categorize "ista-next" d "client")] ∧
  assoc "programming_data" (categorizeDownloads cfg [d] "ista-next") = None.
Proof.
  intros Hf Ht Hu.
  assert (Hc : categoryOf "ista-next" (Js.toLowerCase (title d)) (Js.toLowerCase (url d))
               = Some "client").
  { apply categoryOf_client; [exact Ht|].
    destruct Hu as [-> | ->]; rewrite ?orb_true_r; reflexivity. }
  assert (Hr : categorizeDownloads cfg [d] "ista-next"
               = [("client", categorize "ista-next" d "client")]).
  { unfold categorizeDownloads. simpl String.eqb. cbv iota. simpl fold_left.
    rewrite categorizeStep_cases. unfold bmwAssigned. rewrite Hf, Hc. reflexivity. }
  split; [exact programming_data_url_never|]. split; [exact Hc|].
  split; [exact Hr|]. rewrite Hr. reflexivity.
Qed.

Lemma programming_data_url_rule_dead_witness :
  let cfg := {| istaPFilter := []; istaNextFilter := ["ISTA"] |} in
  let d := {| title := "ISTA Daten";
              url := "https://aos.bmwgroup.com/api/v2/downloads/ISTAOSS_ProgrammingData_4.53.30.zip";
              method := "link_search_main"; actualFilename := None |} in
  matchesFilter (istaNextFilter cfg) d = true ∧
  Js.includes (Js.toLowerCase (title d)) "programmierdaten" = false ∧
  Js.includes (Js.toLowerCase (url d)) "istaoss" = true ∧
  (categorizeDownloads cfg [d] "ista-next").*1 = ["client"].
Proof.
  intros cfg d.
  assert (Hf : matchesFilter (istaNextFilter cfg) d = true) by (vm_compute; reflexivity).
  assert (Ht : Js.includes (Js.toLowerCase (title d)) "programmierdaten" = false)
    by (vm_compute; reflexivity).
  assert (Hu : Js.includes (Js.toLowerCase (url d)) "istaoss" = true)
    by (vm_compute; reflexivity).
  split; [exact Hf|]. split; [exact Ht|]. split; [exact Hu|].
  destruct (programming_data_url_rule_dead cfg d Hf Ht (or_introl Hu)) as (_ & _ & E & _).
  rewrite E. reflexivity.
Defined.

End CategorisationClaims.

(** ** The matcher finds exactly the occurrences of a pattern *)

Section RegexFacts.
Import Regex.

Lemma sapp_assoc (a b c : string) : (a +:+ b) +:+ c = a +:+ (b +:+ c).
Proof. induction a as [|x a IH]; simpl; [reflexivity|]. f_equal. exact IH. Qed.

Lemma sapp_length (a b : string) :
  String.length (a +:+ b) = (String.length a + String.length b)%nat.
Proof. induction a as [|x a IH]; simpl; [reflexivity|]. f_equal. exact IH. Qed.

Lemma take_sapp (a b : string) : Js.take (String.length a) (a +:+ b) = a.
Proof. induction a as [|x a IH]; simpl; [now destruct b|]. f_equal. exact IH. Qed.

Lemma drop_sapp (a b : string) : Js.drop (String.length a) (a +:+ b) = b.
Proof. induction a as [|x a IH]; simpl; [reflexivity|exact IH]. Qed.

Lemma take_drop (n : nat) (s : string) : Js.take n s +:+ Js.drop n s = s.
Proof.
  revert s. induction n as [|n IH]; intros [|c s]; simpl; try reflexivity.
  f_equal. apply IH.
Qed.

Lemma take_length_le (n : nat) (s : string) :
  (n <= String.length s)%nat → String.length (Js.take n s) = n.
Proof.
  revert s. induction n as [|n IH]; intros [|c s]; simpl; intros H; try reflexivity; try lia.
  rewrite IH; [reflexivity|lia].
Qed.

Lemma sapp_nil_inv (a b : string) : a +:+ b = "" → a = "" ∧ b = "".
Proof. destruct a; simpl; [auto|discriminate]. Qed.

Lemma rep_sound cls k : ∀ s lo hi n,
  rep cls lo hi k s = Some n →
  ∃ u v m, s = u +:+ v ∧ allOf cls u = true ∧ (lo <= String.length u)%nat ∧
           within hi (String.length u) ∧ k v = Some m ∧ n = (String.length u + m)%nat.
Proof.
  assert (Hstop : ∀ s lo hi n,
             match lo with O => k s | S _ => None end = Some n →
             ∃ u v m, s = u +:+ v ∧ allOf cls u = true ∧ (lo <= String.length u)%nat ∧
                      within hi (String.length u) ∧ k v = Some m ∧
                      n = (String.length u + m)%nat).
  { intros s [|lo] hi n H; [|discriminate].
    exists "", s, n. repeat split; auto. destruct hi; simpl; lia. }
  induction s as [|c s IH]; intros lo hi n H.
  - apply Hstop. simpl in H. destruct hi as [[|h]|]; exact H.
  - simpl in H.
    assert (Hgo : (if cls c
                   then match rep cls (pred lo) (pred <$> hi) k s with
                        | Some n => Some (S n)
                        | None => match lo with O => k (String c s) | S _ => None end
                        end
                   else match lo with O => k (String c s) | S _ => None end) = Some n →
                  hi ≠ Some 0%nat →
                  ∃ u v m, String c s = u +:+ v ∧ allOf cls u = true ∧
                           (lo <= String.length u)%nat ∧ within hi (String.length u) ∧
                           k v = Some m ∧ n = (String.length u + m)%nat).
    { intros Hn Hhi. destruct (cls c) eqn:Hc; [|apply Hstop, Hn].
      destruct (rep cls (pred lo) (pred <$> hi) k s) as [n'|] eqn:Hr; [|apply Hstop, Hn].
      injection Hn as <-.
      destruct (IH _ _ _ Hr) as (u & v & m & -> & Hu & Hlo & Hhi' & Hk & ->).
      exists (String c u), v, m. simpl. rewrite Hc, Hu. repeat split; auto; try lia.
      destruct hi as [[|h]|]; simpl in *; try lia. congruence. }
    destruct hi as [[|h]|]; [apply Hstop, H| |]; apply Hgo; auto; discriminate.
Qed.

Lemma rep_complete cls k : ∀ u v lo hi,
  allOf cls u = true → (lo <= String.length u)%nat → within hi (String.length u) →
  is_Some (k v) → is_Some (rep cls lo hi k (u +:+ v)).
Proof.
  induction u as [|c u IH]; intros v lo hi Hu Hlo Hhi Hk; simpl in *.
  - assert (lo = 0%nat) as -> by lia.
    destruct v as [|d v]; simpl.
    + destruct hi as [[|h]|]; exact Hk.
    + destruct hi as [[|h]|]; [exact Hk| |];
        (destruct (cls d); [|exact Hk]);
        (destruct (rep cls _ _ k v); [eauto|exact Hk]).
  - apply andb_true_iff in Hu as [Hc Hu]. rewrite Hc.
    assert (Hrec : is_Some (rep cls (pred lo) (pred <$> hi) k (u +:+ v))).
    { apply IH; auto; [lia|]. destruct hi as [h|]; simpl in *; lia. }
    destruct Hrec as [n Hn]. rewrite Hn.
    destruct hi as [[|h]|]; simpl in *; [lia| |]; eauto.
Qed.

Lemma matchHere_sound p : ∀ s n,
  matchHere p s = Some n →
  ∃ u rest, s = u +:+ rest ∧ String.length u = n ∧ Matches p u rest.
Proof.
  induction p as [|[cls lo hi|] p IH]; intros s n H; simpl in H.
  - injection H as <-. exists "", s. repeat split. constructor.
  - destruct (rep_sound _ _ _ _ _ _ H) as (u & v & m & -> & Hu & Hlo & Hhi & Hk & ->).
    destruct (IH _ _ Hk) as (u' & rest & -> & <- & HM).
    exists (u +:+ u'), rest. rewrite sapp_assoc, sapp_length.
    repeat split. now constructor.
  - destruct s; [|discriminate].
    destruct (IH _ _ H) as (u & rest & Hs & <- & HM).
    symmetry in Hs. apply sapp_nil_inv in Hs as [-> ->].
    exists "", "". repeat split. now constructor.
Qed.

Lemma matchHere_complete p u rest :
  Matches p u rest → is_Some (matchHere p (u +:+ rest)).
Proof.
  induction 1 as [rest|cls lo hi p u v rest Hu Hlo Hhi HM IH|p HM IH]; simpl.
  - eauto.
  - rewrite sapp_assoc. now apply rep_complete.
  - exact IH.
Qed.

Lemma search_sound p : ∀ s i n,
  search p s = Some (i, n) → matchHere p (Js.drop i s) = Some n.
Proof.
  induction s as [|c s IH]; intros i n H; simpl in H.
  - destruct (matchHere p "") eqn:E; [|discriminate].
    injection H as <- <-. exact E.
  - destruct (matchHere p (String c s)) eqn:E.
    + injection H as <- <-. exact E.
    + destruct (search p s) as [[i' n']|] eqn:Es; [|discriminate].
      injection H as <- <-. simpl. now apply IH.
Qed.

Lemma search_complete p : ∀ before u rest,
  Matches p u rest → is_Some (search p (before +:+ u +:+ rest)).
Proof.
  intros before u rest HM. apply matchHere_complete in HM as [n Hn].
  induction before as [|c before IH]; simpl.
  - destruct (u +:+ rest); simpl in *; rewrite Hn; eauto.
  - destruct (matchHere p (String c _)); [eauto|].
    destruct IH as [[i m] ->]. simpl. eauto.
Qed.

Lemma firstMatch_Some_occurs p s v : firstMatch p s = Some v → Occurs p s.
Proof.
  unfold firstMatch. destruct (search p s) as [[i n]|] eqn:E; [|discriminate].
  intros _. apply search_sound in E.
  destruct (matchHere_sound _ _ _ E) as (u & rest & Hd & _ & HM).
  exists (Js.take i s), u, rest. split; [|exact HM].
  rewrite <- Hd. symmetry. apply take_drop.
Qed.

Lemma firstMatch_None_iff p s : firstMatch p s = None ↔ ¬ Occurs p s.
Proof.
  split.
  - intros HN (before & u & rest & -> & HM).
    destruct (search_complete p before u rest HM) as [[i n] E].
    unfold firstMatch in HN. rewrite E in HN. discriminate.
  - intros HN. destruct (firstMatch p s) as [v|] eqn:E; [|reflexivity].
    exfalso. eauto using firstMatch_Some_occurs.
Qed.

(** A match of a pattern that opens with a mandatory class is not empty. *)
Lemma firstMatch_truthy cls lo hi p s v :
  firstMatch (Rep cls (S lo) hi :: p) s = Some v → Js.truthy v = true.
Proof.
  unfold firstMatch. destruct (search _ s) as [[i n]|] eqn:E; [|discriminate].
  intros [= <-]. apply search_sound in E.
  destruct (matchHere_sound _ _ _ E) as (u & rest & Hd & <- & HM).
  rewrite Hd, take_sapp. inversion HM; subst.
  match goal with H : (S lo <= String.length ?x)%nat |- _ => destruct x; simpl in H; [lia|] end.
  reflexivity.
Qed.

Lemma firstOf_wins ps s v : firstOf ps s = Some v ↔ Wins ps s v.
Proof.
  revert v. induction ps as [|p ps IH]; intros v; simpl.
  - split; [discriminate|]. intros (i & q & Hq & _). destruct i; discriminate.
  - destruct (firstMatch p s) as [v'|] eqn:E.
    + split.
      * intros [= <-]. exists 0%nat, p. repeat split; auto. intros j q Hj. lia.
      * intros (i & q & Hq & Hv & Hbefore). destruct i as [|i].
        -- injection Hq as <-. congruence.
        -- exfalso. apply (Hbefore 0%nat p); [lia|reflexivity|].
           eauto using firstMatch_Some_occurs.
    + rewrite IH. split.
      * intros (i & q & Hq & Hv & Hbefore). exists (S i), q. repeat split; auto.
        intros [|j] q' Hj Hq'.
        -- injection Hq' as <-. now apply firstMatch_None_iff.
        -- apply (Hbefore j q'); [lia|exact Hq'].
      * intros (i & q & Hq & Hv & Hbefore). destruct i as [|i].
        -- injection Hq as <-. congruence.
        -- exists i, q. repeat split; auto. intros j q' Hj Hq'.
           apply (Hbefore (S j) q'); [lia|exact Hq'].
Qed.

Lemma firstOf_none ps s : firstOf ps s = None ↔ NoneOccurs ps s.
Proof.
  unfold NoneOccurs. induction ps as [|p ps IH]; simpl.
  - split; [|reflexivity]. intros _ p Hp. inversion Hp.
  - destruct (firstMatch p s) as [v|] eqn:E.
    + split; [discriminate|]. intros H. exfalso.
      apply (H p); [left|]. eauto using firstMatch_Some_occurs.
    + rewrite IH. split.
      * intros H q Hq. inversion Hq; subst; [now apply firstMatch_None_iff|auto].
      * intros H q Hq. apply H. now right.
Qed.

End RegexFacts.

(** ** Version extraction *)

Section VersionFacts.
Import Regex Version.

Lemma firstMatch_head cls lo hi p s v :
  firstMatch (Rep cls (S lo) hi :: p) s = Some v →
  ∃ c v', v = String c v' ∧ cls c = true.
Proof.
  unfold firstMatch. destruct (search _ s) as [[i n]|] eqn:E; [|discriminate].
  intros [= <-]. apply search_sound in E.
  destruct (matchHere_sound _ _ _ E) as (u & rest & Hd & <- & HM).
  rewrite Hd, take_sapp. inversion HM as [|? ? ? ? u0 v0 ? Hall Hlo ? ?|]; subst.
  destruct u0 as [|c u0]; simpl in Hlo; [lia|].
  simpl in Hall. apply andb_true_iff in Hall as [Hc _]. simpl. eauto.
Qed.

Lemma filenamePatterns_digits p : p ∈ filenamePatterns → opensWithDigits p.
Proof.
  unfold filenamePatterns. rewrite !elem_of_cons, elem_of_nil.
  intros [->|[->|[->|[->|[->|[->|[]]]]]]]; unfold opensWithDigits; eauto.
Qed.

Lemma urlPatterns_digits p : p ∈ urlPatterns → opensWithDigits p.
Proof.
  unfold urlPatterns. rewrite !elem_of_cons, elem_of_nil.
  intros [->|[->|[->|[]]]]; unfold opensWithDigits; eauto.
Qed.

Lemma wins_digit ps s v :
  (∀ p, p ∈ ps → opensWithDigits p) → Wins ps s v →
  ∃ c v', v = String c v' ∧ Js.isDigit c = true.
Proof.
  intros Hps (i & p & Hp & Hv & _).
  destruct (Hps p) as (lo & hi & p' & ->); [eapply list_elem_of_lookup_2, Hp|].
  eauto using firstMatch_head.
Qed.

Lemma digit_version_known v c v' :
  v = String c v' → Js.isDigit c = true → Js.truthy v = true ∧ v ≠ unknown.
Proof. intros -> Hc. split; [reflexivity|]. intros [= -> _]. discriminate. Qed.

Lemma firstOf_known ps s v :
  (∀ p, p ∈ ps → opensWithDigits p) → firstOf ps s = Some v →
  Js.truthy v = true ∧ v ≠ unknown.
Proof.
  intros Hps Hv. apply firstOf_wins in Hv.
  destruct (wins_digit _ _ _ Hps Hv) as (c & v' & E & Hc).
  eauto using digit_version_known.
Qed.

(** A version is never the empty string. *)
Lemma extractVersion_truthy url : Js.truthy (extractVersion url) = true.
Proof.
  unfold extractVersion. destruct (firstOf basePatterns url) as [v|] eqn:E; [|reflexivity].
  simpl. eapply firstOf_known; [|exact E]. exact urlPatterns_digits.
Qed.

Lemma vwExtractVersion_truthy url filename :
  Js.truthy (vwExtractVersion url filename) = true.
Proof.
  unfold vwExtractVersion.
  destruct (if Js.truthy filename then _ else _) as [v|] eqn:E.
  - destruct (Js.truthy filename); [|discriminate].
    eapply firstOf_known; [|exact E]. exact filenamePatterns_digits.
  - apply (extractVersion_truthy url).
Qed.

Lemma occurs_firstOf ps s p :
  p ∈ ps → Occurs p s → is_Some (firstOf ps s).
Proof.
  intros Hp Ho. destruct (firstOf ps s) eqn:E; [eauto|].
  apply firstOf_none in E. exfalso. exact (E p Hp Ho).
Qed.

End VersionFacts.

Section VersionClaims.
Import Regex Version.

(** C3, as stated, fails: the extraction of BMW is
    [BaseProvider.extractVersion(download.url)], which knows neither the
    underscore-grouped-with-date form nor the file name, and the
    extraction of VW tries that form on the file name only.  A URL
    carrying [25_1_0-EU_20250820] yields no version for either vendor,
    and a version in the file name is lost for BMW. *)
Lemma extraction_not_uniform :
  Occurs underscoreRegionDate "https://host/ODIS_25_1_0-EU_20250820.zip" ∧
  versionOf BMW "https://host/ODIS_25_1_0-EU_20250820.zip" "ODIS Setup" = unknown ∧
  versionOf VW "https://host/ODIS_25_1_0-EU_20250820.zip" "ODIS Setup" = unknown ∧
  Occurs threeDot "ISTA_4.53.30.exe" ∧
  versionOf BMW "https://host/api/v2/downloads/7" "ISTA_4.53.30.exe" = unknown ∧
  ¬ Covers (versionOf BMW) underscoreRegionDate ∧
  ¬ Covers (versionOf VW) underscoreRegionDate ∧
  ¬ Covers (versionOf BMW) threeDot.
Proof.
  assert (H1 : Occurs underscoreRegionDate "https://host/ODIS_25_1_0-EU_20250820.zip").
  { apply (firstMatch_Some_occurs _ _ "25_1_0-EU_20250820"). vm_compute. reflexivity. }
  assert (H2 : Occurs threeDot "ISTA_4.53.30.exe").
  { apply (firstMatch_Some_occurs _ _ "4.53.30"). vm_compute. reflexivity. }
  split; [exact H1|]. split; [reflexivity|]. split; [reflexivity|].
  split; [exact H2|]. split; [reflexivity|].
  split; [|split].
  - intros H. apply (H "https://host/ODIS_25_1_0-EU_20250820.zip" "ODIS Setup");
      [right; exact H1|reflexivity].
  - intros H. apply (H "https://host/ODIS_25_1_0-EU_20250820.zip" "ODIS Setup");
      [right; exact H1|reflexivity].
  - intros H. apply (H "https://host/api/v2/downloads/7" "ISTA_4.53.30.exe");
      [left; exact H2|reflexivity].
Qed.

(** C3, amended.  VW tries, on a non-empty file name, the patterns
    underscore-with-region-and-date, underscore-with-date, four-dot,
    three-dot, dash-numeric and ISO date, in this order, and then on the
    URL four-dot, three-dot and dash-numeric only; BMW tries four-dot,
    three-dot and dash-numeric on the URL and never looks at a file name.
    In each list the first pattern that occurs decides, and when none
    occurs the version is "unknown". *)
Theorem extractVersion_first_pattern_wins :
  filenamePatterns
  = [underscoreRegionDate; underscoreDate; fourDot; threeDot; dashed; isoDate] ∧
  urlPatterns = [fourDot; threeDot; dashed] ∧
  basePatterns = [fourDot; threeDot; dashed] ∧
  (∀ url filename v,
      filename ≠ "" → Wins filenamePatterns filename v →
      vwExtractVersion url filename = v) ∧
  (∀ url filename v,
      filename = "" ∨ NoneOccurs filenamePatterns filename →
      Wins urlPatterns url v → vwExtractVersion url filename = v) ∧
  (∀ url filename,
      filename = "" ∨ NoneOccurs filenamePatterns filename →
      NoneOccurs urlPatterns url → vwExtractVersion url filename = unknown) ∧
  (∀ url filename v, Wins basePatterns url v → versionOf BMW url filename = v) ∧
  (∀ url filename, NoneOccurs basePatterns url → versionOf BMW url filename = unknown) ∧
  (∀ p, p ∈ filenamePatterns → p ∈ urlPatterns ∨ p = underscoreRegionDate
                                ∨ p = underscoreDate ∨ p = isoDate) ∧
  (∀ p, p ∈ urlPatterns → ¬ Covers (versionOf BMW) p) ∧
  (∀ p url filename, p ∈ filenamePatterns → filename ≠ "" → Occurs p filename →
                     vwExtractVersion url filename ≠ unknown) ∧
  (∀ p url filename, p ∈ urlPatterns → Occurs p url →
                     vwExtractVersion url filename ≠ unknown ∧
                     versionOf BMW url filename ≠ unknown).
Proof.
  assert (Hskip : ∀ filename,
             filename = "" ∨ NoneOccurs filenamePatterns filename →
             (if Js.truthy filename then firstOf filenamePatterns filename else None) = None).
  { intros f [->|H]; [reflexivity|]. destruct (Js.truthy f); [|reflexivity].
    now apply firstOf_none. }
  do 3 (split; [reflexivity|]).
  split.
  { intros url f v Hf Hw. unfold vwExtractVersion.
    destruct f; [congruence|]. simpl Js.truthy. cbv iota.
    apply firstOf_wins in Hw. now rewrite Hw. }
  split.
  { intros url f v Hf Hw. unfold vwExtractVersion. rewrite (Hskip f Hf).
    apply firstOf_wins in Hw. now rewrite Hw. }
  split.
  { intros url f Hf Hn. unfold vwExtractVersion. rewrite (Hskip f Hf).
    apply firstOf_none in Hn. now rewrite Hn. }
  split.
  { intros url f v Hw. simpl. unfold extractVersion.
    apply firstOf_wins in Hw. now rewrite Hw. }
  split.
  { intros url f Hn. simpl. unfold extractVersion.
    apply firstOf_none in Hn. now rewrite Hn. }
  split.
  { unfold filenamePatterns, urlPatterns. intros p.
    rewrite !elem_of_cons, elem_of_nil. intuition. }
  split.
  { intros p Hp Hc.
    apply (Hc "https://host/api/v2/downloads/7" "ISTA_3.74.0.930_1-2-3.exe"); [|reflexivity].
    left. unfold urlPatterns in Hp. rewrite !elem_of_cons, elem_of_nil in Hp.
    destruct Hp as [->|[->|[->|[]]]].
    + apply (firstMatch_Some_occurs _ _ "3.74.0.930"). vm_compute. reflexivity.
    + apply (firstMatch_Some_occurs _ _ "3.74.0"). vm_compute. reflexivity.
    + apply (firstMatch_Some_occurs _ _ "1-2-3"). vm_compute. reflexivity. }
  split.
  { intros p url f Hp Hf Ho. unfold vwExtractVersion.
    destruct f; [congruence|]. simpl Js.truthy. cbv iota.
    destruct (occurs_firstOf _ _ _ Hp Ho) as [v Hv]. rewrite Hv.
    eapply firstOf_known; [|exact Hv]. exact filenamePatterns_digits. }
  intros p url filename Hp Ho.
  destruct (occurs_firstOf _ _ _ Hp Ho) as [v Hv]. split.
  - unfold vwExtractVersion.
    destruct (if Js.truthy _ then _ else _) as [v'|] eqn:E.
    + destruct (Js.truthy filename); [|discriminate].
      eapply firstOf_known; [|exact E]. exact filenamePatterns_digits.
    + rewrite Hv. simpl. eapply firstOf_known; [|exact Hv]. exact urlPatterns_digits.
  - simpl. unfold extractVersion. change basePatterns with urlPatterns.
    rewrite Hv. simpl. eapply firstOf_known; [|exact Hv]. exact urlPatterns_digits.
Qed.

End VersionClaims.

(** ** The update-acceptance decision *)

Section Acceptance.
Import BaseProvider.

(** The records the program writes carry a version that is not empty:
    it is the result of the extraction of the vendor. *)
Lemma categorize_versioned :
  (∀ appType d category,
      Js.truthy (version (BMWProvider.categorize appType d category)) = true) ∧
  (∀ appType d category,
      Js.truthy (version (VWProvider.categorize appType d category)) = true).
Proof.
  split; intros; simpl.
  - apply extractVersion_truthy.
  - apply vwExtractVersion_truthy.
Qed.

(** C1 (as amended).  [isNewVersion] accepts when the category has no
    record, and also when it has one that carries no version (the code
    tests the recorded version, not the record, for truthiness);
    with a recorded version it rejects the sentinel "unknown", and
    otherwise accepts exactly when the new version string differs from
    the recorded one: no ordering is involved, an "older" string is
    accepted as well. *)
Theorem isNewVersion_policy (md : Metadata) (category v : string) :
  (recordOf md category = None → isNewVersion md category v = true) ∧
  (∀ r, recordOf md category = Some r → recordedVersion r = "" →
        isNewVersion md category v = true) ∧
  (∀ r, recordOf md category = Some r → recordedVersion r ≠ "" →
        (v = "unknown" → isNewVersion md category v = false) ∧
        (v ≠ "unknown" → (isNewVersion md category v = true ↔ v ≠ recordedVersion r))).
Proof.
  unfold isNewVersion, recordOf. split; [|split].
  - intros ->. reflexivity.
  - intros r -> Hr. simpl. rewrite Hr. reflexivity.
  - intros r -> Hr. simpl.
    destruct (recordedVersion r) as [|c lv] eqn:E; [congruence|]. simpl.
    split.
    + intros ->. reflexivity.
    + intros Hv. destruct (String.eqb_spec v "unknown") as [->|_]; [congruence|].
      destruct (String.eqb_spec v (String c lv)) as [->|Hne]; simpl.
      * split; [discriminate|congruence].
      * split; [auto|reflexivity].
Qed.

End Acceptance.

(** C1, as stated, fails: the category has a record, the new version is
    the sentinel "unknown", and [isNewVersion] accepts it, because the
    record carries no version; for the same reason it accepts a version
    that does not differ from the recorded one. *)
Lemma isNewVersion_accepts_unknown :
  recordOf Examples.unversioned "installer" = Some (Examples.toolRecord "" 4%Z) ∧
  BaseProvider.recordedVersion (Examples.toolRecord "" 4%Z) = "" ∧
  BaseProvider.isNewVersion Examples.unversioned "installer" "unknown" = true ∧
  BaseProvider.isNewVersion Examples.unversioned "installer" "" = true.
Proof. repeat split; vm_compute; reflexivity. Qed.

Lemma isNewVersion_policy_witness :
  BaseProvider.isNewVersion BaseProvider.emptyMetadata "installer" "1.0.0" = true ∧
  BaseProvider.isNewVersion Examples.recorded "installer" "unknown" = false ∧
  BaseProvider.isNewVersion Examples.recorded "installer" "1.0.0" = false ∧
  BaseProvider.isNewVersion Examples.recorded "installer" "0.9.0" = true.
Proof.
  assert (Hr : recordOf Examples.recorded "installer"
               = Some (Examples.toolRecord "1.0.0" 4%Z)) by (vm_compute; reflexivity).
  assert (Hv : BaseProvider.recordedVersion (Examples.toolRecord "1.0.0" 4%Z) ≠ "")
    by discriminate.
  split.
  { apply (isNewVersion_policy BaseProvider.emptyMetadata "installer" "1.0.0").
    vm_compute. reflexivity. }
  split.
  { destruct (isNewVersion_policy Examples.recorded "installer" "unknown") as (_ & _ & H).
    destruct (H _ Hr Hv) as [H' _]. apply H'. reflexivity. }
  split.
  { destruct (isNewVersion_policy Examples.recorded "installer" "1.0.0") as (_ & _ & H).
    destruct (H _ Hr Hv) as [_ H']. destruct (H' ltac:(discriminate)) as [H1 _].
    destruct (BaseProvider.isNewVersion _ _ _); [|reflexivity].
    exfalso. apply (H1 eq_refl). reflexivity. }
  destruct (isNewVersion_policy Examples.recorded "installer" "0.9.0") as (_ & _ & H).
  destruct (H _ Hr Hv) as [_ H']. apply H'; discriminate.
Defined.

(** ** Running the effects *)

Ltac unfold_effects :=
  unfold bind, ret, throw, tryCatch, await, ignoreErrors, now, getMetadata, setMetadata,
    getLoggedIn, setLoggedIn, access, unlink, statSize, written, readVendorFile,
    writeVendorFile, readGlobalFile, writeGlobalFile, emailService in *.

Section Loading.



End Loading.

(** ** The login boundary *)

Section Login.

(** A failed BMW login hands exactly one [LoginFailure], with the reason,
    to the e-mail service and returns [false]. *)
Lemma bmw_login_failure_notified (baseDir : string) (page : outcome string) (w : World) reason :
  isLoggedIn w = false → bmwLoginFailure page = Some reason →
  BMWProvider.login baseDir page w
  = (Ok false, withMails (mails w ++ [LoginFailure "bmw" reason]) w).
Proof.
  intros Hl Hr. unfold BMWProvider.login, BaseProvider.sendLoginFailureNotification.
  unfold_effects. rewrite Hl. unfold bmwLoginFailure in Hr.
  destruct page as [currentUrl|message]; simpl.
  - destruct (_ || _); [discriminate|]. injection Hr as <-. reflexivity.
  - injection Hr as <-. reflexivity.
Qed.

Lemma bmw_login_success_silent (baseDir : string) (page : outcome string) (w : World) :
  isLoggedIn w = true ∨ bmwLoginFailure page = None →
  ∃ w', BMWProvider.login baseDir page w = (Ok true, w') ∧ mails w' = mails w.
Proof.
  unfold BMWProvider.login. unfold_effects.
  destruct (isLoggedIn w) eqn:Hl; [eauto|].
  intros [H|H]; [discriminate|]. unfold bmwLoginFailure in H.
  destruct page as [currentUrl|message]; [|discriminate]. simpl.
  destruct (_ || _); [|discriminate]. eauto.
Qed.

(** C4 (on the code).  [VWProvider.login] never throws and never hands
    anything to the e-mail service: a failed attempt returns [false] and
    leaves the world as it was, whereas the claim asks for one
    [LoginFailure] notification per failed attempt (which the BMW login
    sends).  The page whose form submission times out is such an
    attempt. *)
Theorem vw_login_failure_not_notified :
  (∀ page w, ∃ b w',
      VWProvider.login page w = (Ok b, w') ∧ mails w' = mails w ∧ (b = false → w' = w)) ∧
  VWProvider.login vwTimeout Examples.world = (Ok false, Examples.world) ∧
  mails Examples.world = [] ∧
  BMWProvider.login "/mnt/storagebox/providers"
    (Throw "page.goto: Timeout 30000ms exceeded.") Examples.world
  = (Ok false,
     withMails [LoginFailure "bmw" "page.goto: Timeout 30000ms exceeded."] Examples.world).
Proof.
  split; [|split; [reflexivity|split; reflexivity]].
  intros page w. unfold VWProvider.login. unfold_effects.
  assert (Hyes : ∀ w', mails w' = mails w →
             ∃ b w'', (Ok true, w') = (Ok b, w'') ∧ mails w'' = mails w ∧ (b = false → w'' = w)).
  { intros w' Hm. exists true, w'. repeat split; [exact Hm|discriminate]. }
  assert (Hno : ∃ b w'', (@Ok bool false, w) = (Ok b, w'') ∧ mails w'' = mails w
                         ∧ (b = false → w'' = w)).
  { exists false, w. repeat split. }
  generalize (VWProvider.poll (VWProvider.statusAt page) 0 VWProvider.maxAttempts).
  intros polled.
  destruct (isLoggedIn w) eqn:Hl; [apply Hyes; reflexivity|].
  destruct (VWProvider.submitted page) as [[]|e]; simpl; [|exact Hno].
  destruct polled as [[[] attempts]|e]; simpl; [apply Hyes; reflexivity| |exact Hno].
  destruct (_ || _); simpl; [apply Hyes; reflexivity|exact Hno].
Qed.

End Login.

(** ** The store operations *)

Section Store.
Import BaseProvider.

Lemma updateProviderMetadata_run name data w :
  MetadataManager.updateProviderMetadata name data w = (Ok tt, afterAggregate name data w).
Proof.
  unfold MetadataManager.updateProviderMetadata, MetadataManager.loadGlobalMetadata,
    MetadataManager.stamp, MetadataManager.saveGlobalMetadata, afterAggregate, aggregateAfter.
  unfold_effects. destruct w as [ck tk fs vf gf up ms md li]; simpl.
  destruct gf; reflexivity.
Qed.

Lemma persist_run self w : persist self w = (Ok tt, afterPersist self w).
Proof.
  unfold persist, afterPersist. unfold_effects.
  now rewrite updateProviderMetadata_run.
Qed.

Lemma updateLastCheck_run self w :
  updateLastCheck self w
  = (Ok tt, afterPersist self
              (withMetadata {| lastUpdate := Some (clock w (ticks w));
                               downloads := downloads (metadata w) |}
                 (withTicks (S (ticks w)) w))).
Proof.
  unfold updateLastCheck. unfold_effects. now rewrite persist_run.
Qed.

Lemma updateMetadata_run self category data w :
  updateMetadata self category data w
  = (Ok tt, afterPersist self
              (withMetadata
                 {| lastUpdate := Some (clock w (ticks w));
                    downloads := Some (<[category := data]> (default ∅ (downloads (metadata w)))) |}
                 (withTicks (S (ticks w)) w))).
Proof.
  unfold updateMetadata. unfold_effects. now rewrite persist_run.
Qed.

Lemma withFiles_withFiles f g w : withFiles f (withFiles g w) = withFiles f w.
Proof. reflexivity. Qed.

Lemma withFiles_same w : withFiles (files w) w = w.
Proof. now destruct w. Qed.

Lemma sweep_loop name names : ∀ w,
  forEach names (fun file =>
                   if similar name file then ignoreErrors (unlink file) else ret tt) w
  = (Ok tt, withFiles (sweep name names (files w)) w).
Proof.
  induction names as [|file names IH]; intros w; simpl.
  - unfold ret. now rewrite withFiles_same.
  - unfold bind at 1. destruct (similar name file).
    + unfold ignoreErrors, tryCatch, unlink, ret.
      destruct (files w !! file) eqn:E; rewrite IH; simpl.
      * reflexivity.
      * now rewrite (delete_id (files w) file E).
    + unfold ret at 1. now rewrite IH.
Qed.

Lemma cleanupSimilarFiles_run self category name w :
  cleanupSimilarFiles self category name w = (Ok tt, afterSweep self name w).
Proof.
  unfold cleanupSimilarFiles, ignoreErrors, tryCatch, bind, readdir.
  fold (listing self w). now rewrite sweep_loop.
Qed.

Lemma cleanupOldVersions_run self category name w :
  cleanupOldVersions self category name w = (Ok tt, afterCleanup self category name w).
Proof.
  unfold cleanupOldVersions, afterCleanup, staleFile, recordOf.
  unfold ignoreErrors, tryCatch, bind, getMetadata, access, unlink, setMetadata, ret.
  destruct (downloads (metadata w) ≫= (.!! category)) as [r|]; simpl;
    [|now rewrite cleanupSimilarFiles_run].
  destruct (Js.truthy (fileName r) && negb (String.eqb (fileName r) name)); simpl;
    [|now rewrite cleanupSimilarFiles_run].
  destruct (files w !! fileName r) eqn:E; simpl;
    [|now rewrite cleanupSimilarFiles_run].
  rewrite E. simpl. rewrite persist_run. simpl. rewrite cleanupSimilarFiles_run. reflexivity.
Qed.

Lemma sweep_lookup name names : ∀ fs f,
  sweep name names fs !! f
  = if similar name f && bool_decide (f ∈ names) then None else fs !! f.
Proof.
  induction names as [|x names IH]; intros fs f; simpl.
  - now rewrite andb_false_r.
  - fold (sweep name names). rewrite IH.
    destruct (similar name f) eqn:Hs; simpl.
    + destruct (decide (f ∈ names)) as [Hin|Hnin].
      * rewrite (bool_decide_eq_true_2 _ Hin).
        rewrite bool_decide_eq_true_2; [reflexivity|now right].
      * rewrite (bool_decide_eq_false_2 _ Hnin).
        destruct (decide (f = x)) as [->|Hne].
        -- rewrite bool_decide_eq_true_2 by now left.
           rewrite Hs. apply lookup_delete_eq.
        -- rewrite bool_decide_eq_false_2.
           ++ destruct (similar name x); [now rewrite lookup_delete_ne|reflexivity].
           ++ rewrite elem_of_cons. tauto.
    + destruct (similar name x) eqn:Hx; [|reflexivity].
      rewrite lookup_delete_ne; [reflexivity|]. intros ->. congruence.
Qed.

(** After the sweep a similar file is gone and every other file is
    untouched. *)
Lemma afterSweep_lookup self name w f :
  files (afterSweep self name w) !! f
  = if similar name f then None else files w !! f.
Proof.
  unfold afterSweep. simpl. rewrite sweep_lookup.
  destruct (similar name f); [|reflexivity]. simpl.
  destruct (decide (f ∈ listing self w)) as [Hin|Hnin].
  - now rewrite bool_decide_eq_true_2.
  - rewrite bool_decide_eq_false_2 by assumption.
    destruct (files w !! f) as [n|] eqn:E; [|reflexivity].
    exfalso. apply Hnin. unfold listing. apply elem_of_app. left.
    apply list_elem_of_fmap. exists (f, n). split; [reflexivity|].
    now apply elem_of_map_to_list.
Qed.

Lemma endsWith_sapp a b : Js.endsWith (a +:+ b) b = true.
Proof.
  unfold Js.endsWith. rewrite sapp_length.
  replace (String.length a + String.length b - String.length b)%nat
    with (String.length a) by lia.
  rewrite drop_sapp, String.eqb_refl, andb_true_r. apply Nat.leb_le. lia.
Qed.

(** The metadata file of the vendor, which [readdir] lists too, is
    always skipped by the loop of [cleanupSimilarFiles]. *)
Lemma metadata_file_skipped self name : similar name (metadataName self) = false.
Proof.
  unfold similar, metadataName.
  change "_metadata.json" with ("_metadata" +:+ ".json").
  now rewrite <- sapp_assoc, endsWith_sapp.
Qed.

End Store.

(** ** The transfer manager *)

Section Transfer.
Import BaseProvider.

Lemma staleFile_Some category name w old :
  staleFile category name w = Some old ↔
  ∃ r, recordOf (metadata w) category = Some r ∧ fileName r = old ∧
       old ≠ "" ∧ old ≠ name ∧ is_Some (files w !! old).
Proof.
  unfold staleFile. split.
  - destruct (recordOf (metadata w) category) as [r|]; [|discriminate].
    destruct (Js.truthy (fileName r)) eqn:Ht; [|discriminate]. simpl.
    destruct (String.eqb_spec (fileName r) name) as [|Hne]; [discriminate|]. simpl.
    destruct (files w !! fileName r) eqn:E; [|discriminate].
    intros [= <-]. exists r. repeat split; eauto.
    intros Hnil. rewrite Hnil in Ht. discriminate.
  - intros (r & -> & <- & Hnil & Hne & [n Hn]).
    destruct (Js.truthy (fileName r)) eqn:Ht.
    2: { destruct (fileName r); [congruence|discriminate]. }
    apply String.eqb_neq in Hne. rewrite Hne. simpl. rewrite Hn. reflexivity.
Qed.

Lemma staleFile_None category name w :
  staleFile category name w = None ↔
  recordOf (metadata w) category = None ∨
  ∃ r, recordOf (metadata w) category = Some r ∧
       (fileName r = "" ∨ fileName r = name ∨ files w !! fileName r = None).
Proof.
  destruct (staleFile category name w) as [old|] eqn:E.
  - apply staleFile_Some in E as (r & Hr & <- & Hnil & Hne & Hf).
    split; [discriminate|].
    intros [H|(r' & Hr' & H)]; [congruence|].
    rewrite Hr in Hr'. injection Hr' as <-.
    destruct H as [H|[H|H]]; [congruence|congruence|].
    rewrite H in Hf. destruct Hf; discriminate.
  - split; [|reflexivity]. intros _.
    destruct (recordOf (metadata w) category) as [r|] eqn:Hr; [|now left].
    right. exists r. split; [reflexivity|].
    destruct (decide (fileName r = "")); [tauto|].
    destruct (decide (fileName r = name)); [tauto|].
    destruct (files w !! fileName r) eqn:Hf; [|tauto]. exfalso.
    assert (staleFile category name w = Some (fileName r)) as H
      by (apply staleFile_Some; eauto 10).
    congruence.
Qed.

Lemma afterCleanup_metadata self category name w :
  metadata (afterCleanup self category name w)
  = match staleFile category name w with
    | Some _ => forget category (metadata w)
    | None => metadata w
    end.
Proof. unfold afterCleanup. destruct (staleFile category name w); reflexivity. Qed.

Lemma afterCleanup_vendorFile self category name w :
  vendorFile (afterCleanup self category name w)
  = match staleFile category name w with
    | Some _ => Json (forget category (metadata w))
    | None => vendorFile w
    end.
Proof. unfold afterCleanup. destruct (staleFile category name w); reflexivity. Qed.

Lemma afterCleanup_globalFile self category name w :
  staleFile category name w = None →
  globalFile (afterCleanup self category name w) = globalFile w.
Proof. unfold afterCleanup. now intros ->. Qed.

Lemma afterCleanup_files self category name w f :
  files (afterCleanup self category name w) !! f
  = if similar name f then None
    else match staleFile category name w with
         | Some old => if decide (old = f) then None else files w !! f
         | None => files w !! f
         end.
Proof.
  unfold afterCleanup. rewrite afterSweep_lookup.
  destruct (similar name f); [reflexivity|].
  destruct (staleFile category name w) as [old|]; [|reflexivity].
  simpl. destruct (decide (old = f)) as [->|Hne].
  - apply lookup_delete_eq.
  - now apply lookup_delete_ne.
Qed.


Lemma transferTo_finished self download name size w :
  transferTo self download name (Finished size) w
  = if (0 <? size)%N
    then (Ok true, afterSuccess self download name size w)
    else (Ok false, afterFailure self download name w).
Proof.
  unfold transferTo, afterSuccess, afterFailure.
  unfold bind at 1. rewrite cleanupOldVersions_run.
  cbv zeta. generalize (afterCleanup self (category download) name w). intros w1.
  unfold tryCatch, bind at 1 2, written, statSize. simpl.
  rewrite lookup_insert_eq.
  destruct (0 <? size)%N.
  - unfold bind, now. simpl. rewrite updateMetadata_run. reflexivity.
  - unfold throw, ignoreErrors, tryCatch, bind, unlink, ret. simpl.
    rewrite lookup_insert_eq. simpl. now rewrite delete_insert_eq.
Qed.

Lemma transferTo_failed self download name transfer w :
  (∀ size, transfer = Finished size → size = 0%N) →
  transferTo self download name transfer w = (Ok false, afterFailure self download name w).
Proof.
  intros Hz. destruct transfer as [e|part e|size].
  - unfold transferTo, afterFailure.
    unfold bind at 1. rewrite cleanupOldVersions_run.
    cbv zeta. generalize (afterCleanup self (category download) name w). intros w1.
    unfold tryCatch, bind, throw, ignoreErrors, tryCatch, unlink, ret. simpl.
    destruct (files w1 !! name) eqn:E; simpl; [reflexivity|].
    now rewrite (delete_id _ _ E), withFiles_same.
  - unfold transferTo, afterFailure.
    unfold bind at 1. rewrite cleanupOldVersions_run.
    cbv zeta. generalize (afterCleanup self (category download) name w). intros w1.
    unfold tryCatch, bind, throw, written, ignoreErrors, tryCatch, unlink, ret. simpl.
    rewrite lookup_insert_eq. simpl. now rewrite delete_insert_eq.
  - rewrite transferTo_finished, (Hz size eq_refl). reflexivity.
Qed.

End Transfer.

Section TransferClaims.
Import BaseProvider.
Variable decodeURIComponent : string -> option string.

Lemma downloadFile_as_transfer self download transfer w b w' :
  transferTo self download (resolveFileName decodeURIComponent download) transfer w
  = (Ok b, w') →
  downloadFile decodeURIComponent self download transfer w = (Ok b, w').
Proof. intros H. unfold downloadFile, tryCatch. now rewrite H. Qed.

Lemma vwDownloadFile_as_transfer baseDir download transfer w b w' :
  transferTo (VWProvider.self baseDir) download
    (VWProvider.resolveFileName decodeURIComponent download) transfer w = (Ok b, w') →
  VWProvider.downloadFile decodeURIComponent baseDir download transfer w = (Ok b, w').
Proof. intros H. unfold VWProvider.downloadFile, tryCatch. now rewrite H. Qed.

(** C2, amended.  A transfer that completes with zero bytes makes
    [downloadFile] (of the base class, which BMW uses, and of VW) return
    [false]; the empty file is removed, no record is written and the
    failed transfer persists nothing.  The record of the category is the
    one [cleanupOldVersions] left before the transfer: unchanged when
    there was none, or when it names the same file, no file, or a file
    no longer on disk; dropped, together with its file, when it names
    another file that was still on disk.  The records of the other
    categories are unchanged. *)
Theorem zero_byte_download (self : Provider) (download : Artifact) (name : string) (w : World) :
  let cat := category download in
  ∃ w',
    transferTo self download name (Finished 0) w = (Ok false, w') ∧
    (name = resolveFileName decodeURIComponent download →
     downloadFile decodeURIComponent self download (Finished 0) w = (Ok false, w')) ∧
    (∀ baseDir,
        self = VWProvider.self baseDir →
        name = VWProvider.resolveFileName decodeURIComponent download →
        VWProvider.downloadFile decodeURIComponent baseDir download (Finished 0) w
        = (Ok false, w')) ∧
    files w' !! name = None ∧
    metadata w' = metadata (afterCleanup self cat name w) ∧
    vendorFile w' = vendorFile (afterCleanup self cat name w) ∧
    globalFile w' = globalFile (afterCleanup self cat name w) ∧
    (∀ c, c ≠ cat → recordOf (metadata w') c = recordOf (metadata w) c) ∧
    (recordOf (metadata w) cat = None ∨
     (∃ r, recordOf (metadata w) cat = Some r ∧
           (fileName r = "" ∨ fileName r = name ∨ files w !! fileName r = None)) →
     metadata w' = metadata w ∧ vendorFile w' = vendorFile w ∧ globalFile w' = globalFile w) ∧
    (∀ r, recordOf (metadata w) cat = Some r →
          fileName r ≠ "" → fileName r ≠ name → is_Some (files w !! fileName r) →
          recordOf (metadata w') cat = None ∧ files w' !! fileName r = None ∧
          vendorFile w' = Json (metadata w')).
Proof.
  intros cat. exists (afterFailure self download name w).
  assert (Hrun : transferTo self download name (Finished 0) w
                 = (Ok false, afterFailure self download name w))
    by (now rewrite transferTo_finished).
  split; [exact Hrun|].
  split; [intros ->; now apply downloadFile_as_transfer|].
  split; [intros baseDir -> ->; now apply vwDownloadFile_as_transfer|].
  change (metadata (afterFailure self download name w))
    with (metadata (afterCleanup self cat name w)).
  change (vendorFile (afterFailure self download name w))
    with (vendorFile (afterCleanup self cat name w)).
  change (globalFile (afterFailure self download name w))
    with (globalFile (afterCleanup self cat name w)).
  change (files (afterFailure self download name w))
    with (delete name (files (afterCleanup self cat name w))).
  split; [apply lookup_delete_eq|].
  do 3 (split; [reflexivity|]).
  rewrite afterCleanup_metadata, afterCleanup_vendorFile.
  split; [|split].
  - intros c Hc. destruct (staleFile cat name w); [|reflexivity].
    unfold recordOf, forget. simpl. destruct (downloads (metadata w)); [|reflexivity].
    simpl. now apply lookup_delete_ne.
  - intros H. apply staleFile_None in H.
    rewrite (afterCleanup_globalFile _ _ _ _ H), H. auto.
  - intros r Hr Hnil Hne Hf.
    assert (Hs : staleFile cat name w = Some (fileName r))
      by (apply staleFile_Some; eauto 10).
    rewrite Hs. split; [|split; [|reflexivity]].
    + unfold recordOf, forget. simpl. destruct (downloads (metadata w)); [|reflexivity].
      simpl. apply lookup_delete_eq.
    + rewrite lookup_delete_ne by congruence. rewrite afterCleanup_files, Hs.
      destruct (similar name (fileName r)); [reflexivity|].
      now rewrite decide_True.
Qed.

End TransferClaims.

(** C2, as stated, fails: with [Tool_1.0.0.exe] recorded for [installer]
    and on disk, a zero-byte transfer of [Tool_1.1.0.exe] returns [false]
    and leaves no partial file, but the record of [installer] is gone,
    and so is the old file. *)
Lemma zero_byte_download_drops_record :
  let w' := (BaseProvider.downloadFile BaseProvider.decodePlain Examples.bmw
               (Examples.tool "1.1.0") (Finished 0) Examples.world).2 in
  (BaseProvider.downloadFile BaseProvider.decodePlain Examples.bmw
     (Examples.tool "1.1.0") (Finished 0) Examples.world).1 = Ok false ∧
  recordOf (metadata Examples.world) "installer" = Some (Examples.toolRecord "1.0.0" 4%Z) ∧
  recordOf (metadata w') "installer" = None ∧
  recordOf (metadata w') "installer" ≠ recordOf (metadata Examples.world) "installer" ∧
  files w' = ∅.
Proof.
  cbv zeta.
  assert (E : recordOf (metadata (BaseProvider.downloadFile BaseProvider.decodePlain
                 Examples.bmw (Examples.tool "1.1.0") (Finished 0) Examples.world).2)
                "installer" = None) by (vm_compute; reflexivity).
  split; [vm_compute; reflexivity|]. split; [vm_compute; reflexivity|].
  split; [exact E|]. split; [rewrite E; discriminate|].
  vm_compute. reflexivity.
Qed.

Lemma zero_byte_download_witness :
  let w' := (BaseProvider.downloadFile BaseProvider.decodePlain Examples.bmw
               (Examples.tool "1.0.0") (Finished 0) Examples.world).2 in
  recordOf (metadata Examples.world) "installer" = Some (Examples.toolRecord "1.0.0" 4%Z) ∧
  fileName (Examples.toolRecord "1.0.0" 4%Z)
  = BaseProvider.resolveFileName BaseProvider.decodePlain (Examples.tool "1.0.0") ∧
  metadata w' = metadata Examples.world ∧
  files w' !! "Tool_1.0.0.exe" = None.
Proof.
  cbv zeta.
  assert (Hr : recordOf (metadata Examples.world) "installer"
               = Some (Examples.toolRecord "1.0.0" 4%Z)) by (vm_compute; reflexivity).
  assert (Hn : fileName (Examples.toolRecord "1.0.0" 4%Z)
               = BaseProvider.resolveFileName BaseProvider.decodePlain (Examples.tool "1.0.0"))
    by (vm_compute; reflexivity).
  split; [exact Hr|]. split; [exact Hn|].
  destruct (zero_byte_download BaseProvider.decodePlain Examples.bmw
              (Examples.tool "1.0.0") "Tool_1.0.0.exe" Examples.world)
    as (w' & _ & Hw & _ & Hgone & _ & _ & _ & _ & Hsame & _).
  rewrite (Hw eq_refl). simpl. split.
  - apply Hsame. right. exists (Examples.toolRecord "1.0.0" 4%Z). split; [exact Hr|].
    right. left. reflexivity.
  - exact Hgone.
Defined.

Section Replacement.
Import BaseProvider.
Variable decodeURIComponent : string -> option string.

Lemma recordOf_forget_ne category c md :
  c ≠ category → recordOf (forget category md) c = recordOf md c.
Proof.
  intros Hc. unfold recordOf, forget. simpl.
  destruct (downloads md); [|reflexivity]. simpl. now apply lookup_delete_ne.
Qed.

Lemma afterCleanup_recordOf_ne self category name w c :
  c ≠ category →
  recordOf (metadata (afterCleanup self category name w)) c = recordOf (metadata w) c.
Proof.
  intros Hc. rewrite afterCleanup_metadata.
  destruct (staleFile category name w); [|reflexivity]. now apply recordOf_forget_ne.
Qed.

(** What is on disk after the cleanup was on disk before, is not similar
    to the new file, and is not the file the record named. *)
Lemma afterCleanup_survivor self category name w r f :
  recordOf (metadata w) category = Some r → fileName r ≠ name →
  files w !! "" = None →
  is_Some (files (afterCleanup self category name w) !! f) →
  is_Some (files w !! f) ∧ similar name f = false ∧ f ≠ fileName r.
Proof.
  intros Hr Hne Hnil. rewrite afterCleanup_files.
  destruct (similar name f); [intros [? [=]]|].
  destruct (staleFile category name w) as [old|] eqn:Hs.
  - apply staleFile_Some in Hs as (r' & Hr' & <- & _).
    rewrite Hr in Hr'. injection Hr' as <-.
    destruct (decide (fileName r = f)); [intros [? [=]]|]. intros Hf. auto.
  - intros Hf. repeat split; auto. intros ->.
    apply staleFile_None in Hs as [Hs|(r' & Hr' & Hs)]; [congruence|].
    rewrite Hr in Hr'. injection Hr' as <-.
    destruct Hs as [Hs|[Hs|Hs]]; [|congruence|].
    + rewrite Hs, Hnil in Hf. destruct Hf; discriminate.
    + rewrite Hs in Hf. destruct Hf; discriminate.
Qed.

(** What a successful download replaces.  When the category has a
    record whose file name differs from the resolved name of the
    accepted artifact, a successful download (of the base class, which
    BMW uses, and of VW) leaves the old file off the disk, leaves off
    the disk every other entry with the same extension whose base name
    [getBaseFileName] makes equal to that of the new file (the JSON
    metadata files are not touched), puts the new file on disk and makes
    the record of the category name it; every file that is on disk
    afterwards is the new one or was there before. *)
Theorem download_replaces_old_file
    (self : Provider) (download : Artifact) (name : string) (size : N)
    (r : ArtifactRecord) (w : World) :
  let cat := category download in
  recordOf (metadata w) cat = Some r →
  fileName r ≠ name →
  files w !! "" = None →
  (0 < size)%N →
  ∃ w',
    transferTo self download name (Finished size) w = (Ok true, w') ∧
    (name = resolveFileName decodeURIComponent download →
     downloadFile decodeURIComponent self download (Finished size) w = (Ok true, w')) ∧
    (∀ baseDir,
        self = VWProvider.self baseDir →
        name = VWProvider.resolveFileName decodeURIComponent download →
        VWProvider.downloadFile decodeURIComponent baseDir download (Finished size) w
        = (Ok true, w')) ∧
    files w' !! fileName r = None ∧
    (∀ f, f ≠ name → Js.endsWith f ".json" = false →
          getBaseFileName f = getBaseFileName name →
          Path.extname f = Path.extname name →
          files w' !! f = None) ∧
    files w' !! name = Some size ∧
    (∃ r', recordOf (metadata w') cat = Some r' ∧ fileName r' = name ∧
           fileSize r' = size ∧ artifact r' = download) ∧
    vendorFile w' = Json (metadata w') ∧
    (∀ c, c ≠ cat → recordOf (metadata w') c = recordOf (metadata w) c) ∧
    (∀ f, is_Some (files w' !! f) → f = name ∨ (is_Some (files w !! f) ∧ f ≠ fileName r)) ∧
    (tracked w → tracked w').
Proof.
  intros cat Hr Hne Hnil Hsize.
  exists (afterSuccess self download name size w).
  assert (Hrun : transferTo self download name (Finished size) w
                 = (Ok true, afterSuccess self download name size w)).
  { rewrite transferTo_finished. apply N.ltb_lt in Hsize. now rewrite Hsize. }
  split; [exact Hrun|].
  split; [intros ->; now apply downloadFile_as_transfer|].
  split; [intros baseDir -> ->; now apply vwDownloadFile_as_transfer|].
  clear Hrun.
  remember (afterCleanup self cat name w) as w1 eqn:Hw1.
  set (record := recordFor self download name size (clock w1 (ticks w1))).
  assert (Hfiles : files (afterSuccess self download name size w)
                   = <[name := size]> (files w1)) by (rewrite Hw1; reflexivity).
  assert (Hmd : metadata (afterSuccess self download name size w)
                = {| lastUpdate := Some (clock w1 (S (ticks w1)));
                     downloads := Some (<[cat := record]>
                                          (default ∅ (downloads (metadata w1)))) |})
    by (subst record; rewrite Hw1; reflexivity).
  assert (Hvf : vendorFile (afterSuccess self download name size w)
                = Json (metadata (afterSuccess self download name size w))) by reflexivity.
  assert (Hother : ∀ c, c ≠ cat →
             recordOf (metadata (afterSuccess self download name size w)) c
             = recordOf (metadata w) c).
  { intros c Hc. rewrite Hmd. unfold recordOf at 1. simpl.
    rewrite lookup_insert_ne by congruence.
    rewrite <- (afterCleanup_recordOf_ne self cat name w c Hc), <- Hw1.
    unfold recordOf. destruct (downloads (metadata w1)); reflexivity. }
  assert (Hsurv : ∀ f, is_Some (files (afterSuccess self download name size w) !! f) →
             f = name ∨ (is_Some (files w !! f) ∧ similar name f = false ∧ f ≠ fileName r)).
  { intros f. rewrite Hfiles. destruct (decide (name = f)) as [->|Hf]; [auto|].
    rewrite lookup_insert_ne by assumption. intros Hs. right. rewrite Hw1 in Hs.
    exact (afterCleanup_survivor self cat name w r f Hr Hne Hnil Hs). }
  split; [|split; [|split; [|split; [|split; [|split; [|split]]]]]].
  - destruct (files (afterSuccess self download name size w) !! fileName r) eqn:E;
      [|reflexivity].
    destruct (Hsurv (fileName r)) as [H|(_ & _ & H)]; [eauto|congruence|congruence].
  - intros f Hf Hjson Hbase Hext.
    destruct (files (afterSuccess self download name size w) !! f) eqn:E; [|reflexivity].
    destruct (Hsurv f) as [H|(_ & H & _)]; [eauto|congruence|].
    unfold similar in H. rewrite Hjson, Hbase, Hext, !String.eqb_refl in H.
    apply String.eqb_neq in Hf. rewrite Hf in H. discriminate.
  - rewrite Hfiles. apply lookup_insert_eq.
  - exists record. rewrite Hmd. unfold recordOf. simpl. rewrite lookup_insert_eq. auto.
  - exact Hvf.
  - exact Hother.
  - intros f Hf. destruct (Hsurv f Hf) as [H|(H1 & _ & H2)]; auto.
  - intros Ht f Hf Hjson.
    destruct (Hsurv f Hf) as [->|(Hold & _ & Hnr)].
    + exists cat, record. rewrite Hmd. unfold recordOf. simpl.
      rewrite lookup_insert_eq. auto.
    + destruct (Ht f Hold Hjson) as (c & r0 & Hc & Hname).
      assert (c ≠ cat) by (intros ->; congruence).
      exists c, r0. rewrite Hother by assumption. auto.
Qed.

End Replacement.

(** A file that the sweep does not find similar to the new one, and
    that the record of the category does not name, is still there after
    a successful download. *)
Lemma dissimilar_file_survives self download name size stale n w :
  (0 < size)%N → files w !! stale = Some n → stale ≠ name →
  BaseProvider.similar name stale = false →
  (∀ r, recordOf (metadata w) (category download) = Some r → fileName r ≠ stale) →
  files (BaseProvider.transferTo self download name (Finished size) w).2 !! stale = Some n.
Proof.
  intros Hsize Hn Hne Hsim Hrec. rewrite transferTo_finished.
  apply N.ltb_lt in Hsize. rewrite Hsize.
  change (files (afterSuccess self download name size w) !! stale = Some n).
  assert (Hfiles : files (afterSuccess self download name size w)
                   = <[name := size]> (files (afterCleanup self (category download) name w)))
    by reflexivity.
  rewrite Hfiles, lookup_insert_ne by congruence.
  rewrite afterCleanup_files, Hsim.
  destruct (staleFile (category download) name w) as [old|] eqn:Hs; [|exact Hn].
  apply staleFile_Some in Hs as (r & Hr & <- & _).
  destruct (decide (fileName r = stale)) as [E|_]; [|exact Hn].
  exfalso. exact (Hrec r Hr E).
Qed.

(** C6 (on the code).  A successful download deletes the file the
    record named and makes the record name the new file; but the sweep
    for look-alikes compares the base names [getBaseFileName] gives,
    and that one strips dotted versions, dates and dashed versions
    only.  The suffix [_25_1_0_20250820] of the packages of VW stays,
    although the rule for dashes is annotated with that very form: the
    sweep does not find two packages of ODIS similar, and a file it
    does not find similar survives the download.  So with the package
    of 24_2_0 recorded and the one of 24_1_0 lying about unrecorded,
    the download of the package of 25_1_0 leaves two packages of the
    category in the directory, where the claim asks for one file.  In
    the same situation with dotted versions the new file is the only
    one left. *)
Theorem stale_variant_survives_download :
  let stale := "ODIS-Service_installation_24_1_0_20240115.zip" in
  let recorded := "ODIS-Service_installation_24_2_0_20240610.zip" in
  let new := "ODIS-Service_installation_25_1_0_20250820.zip" in
  let run := VWProvider.downloadFile BaseProvider.decodePlain "/mnt/storagebox/providers"
               (Examples.odis "25_1_0_20250820") (Finished 4096) Examples.staleOdisWorld in
  (BaseProvider.getBaseFileName stale = "ODIS-Service_installation_24_1_0_20240115" ∧
   BaseProvider.getBaseFileName new = "ODIS-Service_installation_25_1_0_20250820" ∧
   BaseProvider.getBaseFileName "ODIS-Service_installation_24-1-0.zip"
   = "ODIS-Service_installation" ∧
   BaseProvider.similar new stale = false ∧
   BaseProvider.similar "Tool_1.1.0.exe" "Tool_0.9.0.exe" = true) ∧
  (∀ self download name size other n w,
      (0 < size)%N → files w !! other = Some n → other ≠ name →
      BaseProvider.similar name other = false →
      (∀ r, recordOf (metadata w) (category download) = Some r → fileName r ≠ other) →
      files (BaseProvider.transferTo self download name (Finished size) w).2 !! other
      = Some n) ∧
  (fileName <$> recordOf (metadata Examples.staleOdisWorld) "installation" = Some recorded ∧
   files Examples.staleOdisWorld = {[ stale := 1024%N; recorded := 1024%N ]} ∧
   VWProvider.resolveFileName BaseProvider.decodePlain (Examples.odis "25_1_0_20250820")
   = new) ∧
  (run.1 = Ok true ∧
   fileName <$> recordOf (metadata run.2) "installation" = Some new ∧
   files run.2 = {[ stale := 1024%N; new := 4096%N ]}) ∧
  files (BaseProvider.downloadFile BaseProvider.decodePlain Examples.bmw
           (Examples.tool "1.1.0") (Finished 2048) Examples.staleToolWorld).2
  = {[ "Tool_1.1.0.exe" := 2048%N ]}.
Proof.
  cbv zeta. split; [|split; [|split; [|split]]].
  - repeat split; vm_compute; reflexivity.
  - intros self download name size other n w.
    apply dissimilar_file_survives.
  - repeat split; vm_compute; reflexivity.
  - repeat split; vm_compute; reflexivity.
  - vm_compute. reflexivity.
Qed.

Lemma download_replaces_old_file_witness :
  let w' := (BaseProvider.downloadFile BaseProvider.decodePlain Examples.bmw
               (Examples.tool "1.1.0") (Finished 2048) Examples.world).2 in
  recordOf (metadata Examples.world) "installer" = Some (Examples.toolRecord "1.0.0" 4%Z) ∧
  fileName (Examples.toolRecord "1.0.0" 4%Z) ≠ "Tool_1.1.0.exe" ∧
  files Examples.world !! "" = None ∧
  (0 < 2048)%N ∧
  files Examples.world !! "Tool_1.0.0.exe" = Some 1024%N ∧
  files w' !! "Tool_1.0.0.exe" = None ∧
  files w' = {[ "Tool_1.1.0.exe" := 2048%N ]} ∧
  fileName <$> recordOf (metadata w') "installer" = Some "Tool_1.1.0.exe".
Proof.
  cbv zeta.
  assert (Hr : recordOf (metadata Examples.world) "installer"
               = Some (Examples.toolRecord "1.0.0" 4%Z)) by (vm_compute; reflexivity).
  assert (Hne : fileName (Examples.toolRecord "1.0.0" 4%Z) ≠ "Tool_1.1.0.exe")
    by (vm_compute; discriminate).
  assert (Hnil : files Examples.world !! "" = None) by (vm_compute; reflexivity).
  assert (Hsize : (0 < 2048)%N) by reflexivity.
  split; [exact Hr|]. split; [exact Hne|]. split; [exact Hnil|]. split; [exact Hsize|].
  split; [vm_compute; reflexivity|].
  destruct (download_replaces_old_file BaseProvider.decodePlain Examples.bmw
              (Examples.tool "1.1.0") "Tool_1.1.0.exe" 2048 _ Examples.world
              Hr Hne Hnil Hsize)
    as (w' & _ & Hw & _ & Hgone & _).
  specialize (Hw eq_refl). rewrite Hw in *. split; [exact Hgone|].
  rewrite <- Hw. split; vm_compute; reflexivity.
Defined.

(** ** The heartbeat *)

Section Heartbeat.
Import BaseProvider.

Lemma notAfter_refl a : notAfter a a.
Proof. destruct a; simpl; [lia|exact I]. Qed.

Lemma notAfter_trans a b c : notAfter a b → notAfter b c → notAfter a c.
Proof. destruct a, b, c; simpl; try tauto; lia. Qed.

Lemma advances_refl w : advances w w.
Proof.
  split; [reflexivity|]. split; [lia|]. intros _ H. split; [exact H|apply notAfter_refl].
Qed.

Lemma monotoneClock_same w w' : clock w' = clock w → monotoneClock w → monotoneClock w'.
Proof. unfold monotoneClock. now intros ->. Qed.

Lemma advances_trans w1 w2 w3 : advances w1 w2 → advances w2 w3 → advances w1 w3.
Proof.
  intros (Hc1 & Ht1 & H1) (Hc2 & Ht2 & H2).
  split; [congruence|]. split; [lia|]. intros Hm Hi.
  destruct (H1 Hm Hi) as [Hi2 Hn2].
  destruct (H2 (monotoneClock_same _ _ Hc1 Hm) Hi2) as [Hi3 Hn3].
  split; [exact Hi3|]. eapply notAfter_trans; eassumption.
Qed.

(** A step that leaves both vendor states and the clock alone. *)
Lemma advances_frame w w' :
  clock w' = clock w → (ticks w <= ticks w')%nat →
  vendorFile w' = vendorFile w → metadata w' = metadata w → advances w w'.
Proof.
  intros Hc Ht Hv Hmd.
  split; [exact Hc|]. split; [exact Ht|]. intros Hm [Hi1 Hi2].
  unfold inStep, persistedLastUpdate. rewrite Hv, Hmd, Hc.
  split; [split; [exact Hi1|]|apply notAfter_refl].
  eapply notAfter_trans; [exact Hi2|]. simpl. now apply Hm.
Qed.

(** Writing the vendor state, possibly after more clock readings and a
    change of the directory, with a [lastUpdate] that is not older than
    the one in memory and not ahead of the clock. *)
Lemma advances_stamp self w md k fs :
  (ticks w <= k)%nat →
  (monotoneClock w → inStep w →
   notAfter (lastUpdate (metadata w)) (lastUpdate md) ∧
   notAfter (lastUpdate md) (Some (clock w k))) →
  advances w (afterPersist self (withMetadata md (withTicks k (withFiles fs w)))).
Proof.
  intros Hk Hle.
  split; [reflexivity|]. split; [simpl; lia|]. intros Hm [Hi1 Hi2].
  destruct (Hle Hm (conj Hi1 Hi2)) as [Hold Hnew].
  unfold inStep, persistedLastUpdate. simpl.
  split; [split; [apply notAfter_refl|]|].
  - eapply notAfter_trans; [exact Hnew|]. simpl. apply Hm. lia.
  - eapply notAfter_trans; [exact Hi1|exact Hold].
Qed.

Lemma Advancing_ret {A} (a : A) : Advancing (ret a).
Proof. intros w. apply advances_refl. Qed.

Lemma Advancing_throw {A} e : Advancing (@throw A e).
Proof. intros w. apply advances_refl. Qed.

Lemma Advancing_await {A} (o : outcome A) : Advancing (await o).
Proof. intros w. apply advances_refl. Qed.

Lemma Advancing_bind {A B} (m : M A) (f : A → M B) :
  Advancing m → (∀ a, Advancing (f a)) → Advancing (bind m f).
Proof.
  intros Hm Hf w. unfold bind. specialize (Hm w).
  destruct (m w) as [[a|e] w1]; simpl in *; [|exact Hm].
  eapply advances_trans; [exact Hm|apply Hf].
Qed.

Lemma Advancing_tryCatch {A} (m : M A) (h : string → M A) :
  Advancing m → (∀ e, Advancing (h e)) → Advancing (tryCatch m h).
Proof.
  intros Hm Hh w. unfold tryCatch. specialize (Hm w).
  destruct (m w) as [[a|e] w1]; simpl in *; [exact Hm|].
  eapply advances_trans; [exact Hm|apply Hh].
Qed.

Lemma Advancing_now : Advancing now.
Proof. intros w. apply advances_frame; simpl; auto. Qed.

Lemma Advancing_getMetadata : Advancing getMetadata.
Proof. intros w. apply advances_refl. Qed.

Lemma Advancing_getLoggedIn : Advancing getLoggedIn.
Proof. intros w. apply advances_refl. Qed.

Lemma Advancing_setLoggedIn b : Advancing (setLoggedIn b).
Proof. intros w. apply advances_frame; simpl; auto. Qed.

Lemma Advancing_written name size : Advancing (written name size).
Proof. intros w. apply advances_frame; simpl; auto. Qed.

Lemma Advancing_unlink name : Advancing (unlink name).
Proof.
  intros w. unfold unlink. destruct (files w !! name); simpl;
    [apply advances_frame; simpl; auto|apply advances_refl].
Qed.

Lemma Advancing_statSize name : Advancing (statSize name).
Proof. intros w. unfold statSize. destruct (files w !! name); apply advances_refl. Qed.

Lemma Advancing_emailService n : Advancing (emailService n).
Proof. intros w. apply advances_frame; simpl; auto. Qed.

Lemma withFiles_id_stamp self md k w :
  afterPersist self (withMetadata md (withTicks k w))
  = afterPersist self (withMetadata md (withTicks k (withFiles (files w) w))).
Proof. now rewrite withFiles_same. Qed.

Lemma Advancing_updateLastCheck self : Advancing (updateLastCheck self).
Proof.
  intros w. rewrite updateLastCheck_run. simpl. rewrite withFiles_id_stamp.
  apply advances_stamp; [lia|]. intros Hm [_ Hi]. simpl.
  split; [exact Hi|]. apply Hm. lia.
Qed.

Lemma Advancing_updateMetadata self category data :
  Advancing (updateMetadata self category data).
Proof.
  intros w. rewrite updateMetadata_run. simpl. rewrite withFiles_id_stamp.
  apply advances_stamp; [lia|]. intros Hm [_ Hi]. simpl.
  split; [exact Hi|]. apply Hm. lia.
Qed.

Lemma Advancing_cleanupOldVersions self category name :
  Advancing (cleanupOldVersions self category name).
Proof.
  intros w. rewrite cleanupOldVersions_run. simpl. unfold afterCleanup.
  match goal with |- advances _ (afterSweep _ _ ?x) => apply advances_trans with x end;
    [|apply advances_frame; reflexivity].
  destruct (staleFile category name w) as [old|]; [|apply advances_refl].
  change (withMetadata (forget category (metadata w)) (withFiles (delete old (files w)) w))
    with (withMetadata (forget category (metadata w))
            (withTicks (ticks w) (withFiles (delete old (files w)) w))).
  apply advances_stamp; [lia|]. intros Hm [_ Hi]. simpl.
  split; [apply notAfter_refl|exact Hi].
Qed.

Lemma loadMetadata_run self w :
  loadMetadata self w
  = (Ok tt, withMetadata match vendorFile w with
                         | Json md => md
                         | _ => emptyMetadata
                         end w).
Proof.
  unfold loadMetadata, MetadataManager.loadGlobalMetadata. unfold_effects.
  destruct w as [ck tk fs vf gf up ms md li]; simpl. destruct vf, gf; reflexivity.
Qed.

(** [initialize()] puts the two vendor states in step, whatever was in
    memory, when the file is not ahead of the clock. *)
Lemma loadMetadata_inStep self w :
  notAfter (persistedLastUpdate w) (Some (clock w (ticks w))) →
  inStep (loadMetadata self w).2.
Proof.
  intros H. rewrite loadMetadata_run. unfold inStep, persistedLastUpdate in *. simpl.
  destruct (vendorFile w); simpl; auto using notAfter_refl.
Qed.

Lemma Advancing_loadMetadata self : Advancing (loadMetadata self).
Proof.
  intros w. rewrite loadMetadata_run. simpl.
  split; [reflexivity|]. split; [simpl; lia|]. intros _ [H1 H2].
  split; [|apply notAfter_refl].
  pose proof (loadMetadata_inStep self w (notAfter_trans _ _ _ H1 H2)) as H.
  now rewrite loadMetadata_run in H.
Qed.

Lemma Total_ret {A} (a : A) : Total (ret a).
Proof. intros w. now exists a. Qed.

Lemma Total_bind {A B} (m : M A) (f : A → M B) :
  Total m → (∀ a, Total (f a)) → Total (bind m f).
Proof.
  intros Hm Hf w. unfold bind. destruct (Hm w) as [a Ha].
  destruct (m w) as [o w1]. simpl in Ha. subst o. apply Hf.
Qed.

Lemma Total_tryCatch {A} (m : M A) (h : string → M A) :
  (∀ e, Total (h e)) → Total (tryCatch m h).
Proof.
  intros Hh w. unfold tryCatch. destruct (m w) as [[a|e] w1]; [now exists a|apply Hh].
Qed.

Lemma Total_getMetadata : Total getMetadata.
Proof. intros w. now exists (metadata w). Qed.

Lemma Total_getLoggedIn : Total getLoggedIn.
Proof. intros w. now exists (isLoggedIn w). Qed.

Lemma Total_setLoggedIn b : Total (setLoggedIn b).
Proof. intros w. now exists tt. Qed.

Lemma Total_emailService n : Total (emailService n).
Proof. intros w. now exists (smtpUp w). Qed.

Lemma Total_updateLastCheck self : Total (updateLastCheck self).
Proof. intros w. rewrite updateLastCheck_run. now exists tt. Qed.

End Heartbeat.

(** Decomposing a computation into advancing steps. *)
Ltac advancing_step :=
  lazymatch goal with
  | |- Advancing (ret _) => apply Advancing_ret
  | |- Advancing (throw _) => apply Advancing_throw
  | |- Advancing (await _) => apply Advancing_await
  | |- Advancing now => apply Advancing_now
  | |- Advancing getMetadata => apply Advancing_getMetadata
  | |- Advancing getLoggedIn => apply Advancing_getLoggedIn
  | |- Advancing (setLoggedIn _) => apply Advancing_setLoggedIn
  | |- Advancing (written _ _) => apply Advancing_written
  | |- Advancing (unlink _) => apply Advancing_unlink
  | |- Advancing (statSize _) => apply Advancing_statSize
  | |- Advancing (emailService _) => apply Advancing_emailService
  | |- Advancing (BaseProvider.updateLastCheck _) => apply Advancing_updateLastCheck
  | |- Advancing (BaseProvider.updateMetadata _ _ _) => apply Advancing_updateMetadata
  | |- Advancing (BaseProvider.cleanupOldVersions _ _ _) =>
      apply Advancing_cleanupOldVersions
  | |- Advancing (bind _ _) => apply Advancing_bind; [|intros ?]
  | |- Advancing (tryCatch _ _) => apply Advancing_tryCatch; [|intros ?]
  | |- Advancing (if ?b then _ else _) => destruct b
  | |- Advancing (match ?x with _ => _ end) => destruct x
  end.
Ltac advancing := repeat advancing_step.

Ltac total_step :=
  lazymatch goal with
  | |- Total (ret _) => apply Total_ret
  | |- Total getMetadata => apply Total_getMetadata
  | |- Total getLoggedIn => apply Total_getLoggedIn
  | |- Total (setLoggedIn _) => apply Total_setLoggedIn
  | |- Total (emailService _) => apply Total_emailService
  | |- Total (BaseProvider.updateLastCheck _) => apply Total_updateLastCheck
  | |- Total (tryCatch _ _) => apply Total_tryCatch; intros ?
  | |- Total (bind _ _) => apply Total_bind; [|intros ?]
  | |- Total (if ?b then _ else _) => destruct b
  | |- Total (match ?x with _ => _ end) => destruct x
  end.
Ltac total := repeat total_step.

Section Cycles.
Import BaseProvider.
Variable decodeURIComponent : string -> option string.
Variable baseDir : string.

Lemma Advancing_transferTo self download name transfer :
  Advancing (transferTo self download name transfer).
Proof. unfold transferTo, ignoreErrors. advancing. Qed.

Lemma Advancing_downloadFile self download transfer :
  Advancing (downloadFile decodeURIComponent self download transfer).
Proof. unfold downloadFile. advancing. apply Advancing_transferTo. Qed.

Lemma Advancing_vwDownloadFile download transfer :
  Advancing (VWProvider.downloadFile decodeURIComponent baseDir download transfer).
Proof. unfold VWProvider.downloadFile. advancing. apply Advancing_transferTo. Qed.

Lemma Advancing_sendNewVersionNotification self updates :
  Advancing (sendNewVersionNotification self updates).
Proof. unfold sendNewVersionNotification, ignoreErrors. advancing. Qed.

Lemma Total_sendNewVersionNotification self updates :
  Total (sendNewVersionNotification self updates).
Proof. unfold sendNewVersionNotification, ignoreErrors. total. Qed.

Lemma Advancing_bmwLogin page : Advancing (BMWProvider.login baseDir page).
Proof.
  unfold BMWProvider.login, sendLoginFailureNotification, ignoreErrors. advancing.
Qed.

Lemma Total_bmwLogin page : Total (BMWProvider.login baseDir page).
Proof.
  unfold BMWProvider.login, sendLoginFailureNotification, ignoreErrors. total.
Qed.

Lemma Advancing_vwLogin page : Advancing (VWProvider.login page).
Proof.
  unfold VWProvider.login.
  generalize (VWProvider.poll (VWProvider.statusAt page) 0 VWProvider.maxAttempts).
  intros polled. advancing.
Qed.

Lemma Total_vwLogin page : Total (VWProvider.login page).
Proof. unfold VWProvider.login. total. Qed.

Lemma run_total_advancing {A} (m : M A) w :
  Total m → Advancing m → ∃ a w1, m w = (Ok a, w1) ∧ advances w w1.
Proof.
  intros Ht Ha. destruct (Ht w) as [a Hw]. specialize (Ha w).
  destruct (m w) as [o w1]. simpl in *. subst o. eauto.
Qed.

Section Bmw.
Variable cfg : BMWProvider.Filters.
Variable portal : BMWProvider.Portal.

Lemma Advancing_bmwDownloadAll updates : ∀ acc,
  Advancing (BMWProvider.downloadAll decodeURIComponent baseDir portal updates acc).
Proof.
  induction updates as [|update rest IH]; intros [[successCount failCount] successful]; simpl.
  - advancing.
  - apply Advancing_bind; [|intros success; apply IH].
    advancing. apply Advancing_downloadFile.
Qed.

Lemma Total_bmwDownloadAll updates : ∀ acc,
  Total (BMWProvider.downloadAll decodeURIComponent baseDir portal updates acc).
Proof.
  induction updates as [|update rest IH]; intros [[successCount failCount] successful]; simpl.
  - total.
  - apply Total_bind; [|intros success; apply IH]. total.
Qed.

Lemma Advancing_bmwCheckApplicationUpdates appType :
  Advancing (BMWProvider.checkApplicationUpdates decodeURIComponent baseDir cfg portal appType).
Proof.
  unfold BMWProvider.checkApplicationUpdates.
  destruct (negb _); [advancing|].
  apply Advancing_bind; [advancing|intros md].
  destruct (_.*2) as [|u updates]; [advancing|].
  apply Advancing_bind; [apply Advancing_bmwDownloadAll|intros [[s f] l]].
  apply Advancing_bind; [apply Advancing_sendNewVersionNotification|intros _; advancing].
Qed.

Lemma Total_bmwCheckApplicationUpdates appType :
  Total (BMWProvider.checkApplicationUpdates decodeURIComponent baseDir cfg portal appType).
Proof.
  unfold BMWProvider.checkApplicationUpdates.
  destruct (negb _); [total|].
  apply Total_bind; [total|intros md].
  destruct (_.*2) as [|u updates]; [total|].
  apply Total_bind; [apply Total_bmwDownloadAll|intros [[s f] l]].
  apply Total_bind; [apply Total_sendNewVersionNotification|intros _; total].
Qed.

Lemma Advancing_bmwCheckForUpdates :
  Advancing (BMWProvider.checkForUpdates decodeURIComponent baseDir cfg portal).
Proof.
  unfold BMWProvider.checkForUpdates.
  apply Advancing_bind; [advancing|intros loggedIn].
  apply Advancing_bind; [destruct loggedIn; [advancing|apply Advancing_bmwLogin]|].
  intros [|]; [|advancing].
  apply Advancing_bind; [apply Advancing_bmwCheckApplicationUpdates|intros _].
  apply Advancing_bind; [apply Advancing_bmwCheckApplicationUpdates|intros _].
  advancing.
Qed.

(** A BMW cycle never throws; it runs to its end exactly when the
    session is open or the login succeeds, and then its last act is
    [updateLastCheck]. *)
Lemma bmwCheckForUpdates_ends_with_check w :
  ∃ b w',
    BMWProvider.checkForUpdates decodeURIComponent baseDir cfg portal w = (Ok b, w') ∧
    (b = true ↔
     isLoggedIn w = true ∨ bmwLoginFailure (BMWProvider.loginPage portal) = None) ∧
    (b = true → ∃ w2, advances w w2 ∧
                      w' = (updateLastCheck (BMWProvider.self baseDir) w2).2).
Proof.
  assert (Hrest : ∀ w1, advances w w1 →
            ∃ w', (_ <- BMWProvider.checkApplicationUpdates decodeURIComponent baseDir
                          cfg portal "ista-p" ;;
                   _ <- BMWProvider.checkApplicationUpdates decodeURIComponent baseDir
                          cfg portal "ista-next" ;;
                   updateLastCheck (BMWProvider.self baseDir) ;; ret true)%js w1
                  = (Ok true, w') ∧
                  ∃ w2, advances w w2 ∧
                        w' = (updateLastCheck (BMWProvider.self baseDir) w2).2).
  { intros w1 H1.
    destruct (run_total_advancing _ w1 (Total_bmwCheckApplicationUpdates "ista-p")
                (Advancing_bmwCheckApplicationUpdates "ista-p")) as (r1 & w2 & E2 & H2).
    destruct (run_total_advancing _ w2 (Total_bmwCheckApplicationUpdates "ista-next")
                (Advancing_bmwCheckApplicationUpdates "ista-next")) as (r2 & w3 & E3 & H3).
    exists (updateLastCheck (BMWProvider.self baseDir) w3).2.
    split.
    - unfold bind at 1. rewrite E2. unfold bind at 1. rewrite E3.
      unfold bind, ret. rewrite updateLastCheck_run. reflexivity.
    - exists w3. split; [|reflexivity]. eauto using advances_trans. }
  unfold BMWProvider.checkForUpdates. unfold bind at 1. unfold getLoggedIn.
  destruct (isLoggedIn w) eqn:Hl.
  - unfold bind at 1. unfold ret at 1.
    destruct (Hrest w (advances_refl w)) as (w' & E & Hw').
    exists true, w'. split; [exact E|]. split; [tauto|auto].
  - unfold bind at 1.
    destruct (bmwLoginFailure (BMWProvider.loginPage portal)) as [reason|] eqn:Hf.
    + rewrite (bmw_login_failure_notified baseDir _ w reason Hl Hf).
      exists false, (withMails (mails w ++ [LoginFailure "bmw" reason]) w).
      split; [reflexivity|]. split; [|discriminate].
      split; [discriminate|]. intros [H|H]; discriminate.
    + destruct (bmw_login_success_silent baseDir (BMWProvider.loginPage portal) w
                  (or_intror Hf)) as (w1 & E1 & _).
      rewrite E1.
      assert (H1 : advances w w1).
      { pose proof (Advancing_bmwLogin (BMWProvider.loginPage portal) w) as H.
        now rewrite E1 in H. }
      destruct (Hrest w1 H1) as (w' & E & Hw').
      exists true, w'. split; [exact E|]. split; [tauto|auto].
Qed.

End Bmw.

Section Vw.
Variable downloadFilter : list string.
Variable portal : VWProvider.Portal.

Lemma Advancing_vwNavigate : Advancing (VWProvider.navigateToDownloads portal).
Proof.
  unfold VWProvider.navigateToDownloads.
  apply Advancing_tryCatch; [|intros e; advancing].
  apply Advancing_bind; [advancing|intros stillLoggedIn].
  apply Advancing_bind; [|intros _; advancing].
  destruct stillLoggedIn; [advancing|].
  apply Advancing_bind; [advancing|intros _].
  apply Advancing_bind; [apply Advancing_vwLogin|intros ok; advancing].
Qed.

Lemma Total_vwNavigate : Total (VWProvider.navigateToDownloads portal).
Proof. unfold VWProvider.navigateToDownloads. total. Qed.

Lemma Advancing_vwDownloadAll updates : ∀ acc,
  Advancing (VWProvider.downloadAll decodeURIComponent baseDir portal updates acc).
Proof.
  induction updates as [|update rest IH]; intros [successCount failCount]; simpl.
  - advancing.
  - apply Advancing_bind; [|intros success; apply IH].
    advancing. apply Advancing_vwDownloadFile.
Qed.

Lemma Total_vwDownloadAll updates : ∀ acc,
  Total (VWProvider.downloadAll decodeURIComponent baseDir portal updates acc).
Proof.
  induction updates as [|update rest IH]; intros [successCount failCount]; simpl.
  - total.
  - apply Total_bind; [|intros success; apply IH]. total.
Qed.

Lemma Advancing_vwCheckForUpdates :
  Advancing (VWProvider.checkForUpdates decodeURIComponent baseDir downloadFilter portal).
Proof.
  unfold VWProvider.checkForUpdates.
  apply Advancing_bind; [advancing|intros loggedIn].
  apply Advancing_bind;
    [destruct (_ || _); [apply Advancing_vwLogin|advancing]|intros proceed].
  destruct (negb proceed); [advancing|].
  apply Advancing_bind; [apply Advancing_vwNavigate|intros navigationSuccess].
  destruct (negb navigationSuccess); [advancing|].
  apply Advancing_bind; [advancing|intros md].
  apply Advancing_bind; [apply Advancing_vwDownloadAll|intros counts].
  advancing.
Qed.

(** A VW cycle never throws; when it returns its counts, its last act
    was [updateLastCheck]; and it does return them when the session is
    alive and the download page is reached. *)
Lemma vwCheckForUpdates_ends_with_check w :
  ∃ r w',
    VWProvider.checkForUpdates decodeURIComponent baseDir downloadFilter portal w
    = (Ok r, w') ∧
    (is_Some r → ∃ w2, advances w w2 ∧
                       w' = (updateLastCheck (VWProvider.self baseDir) w2).2) ∧
    (VWProvider.sessionAlive portal = true → isLoggedIn w = true →
     VWProvider.navigation portal = Ok true → is_Some r).
Proof.
  assert (Hrest : ∀ w1, advances w w1 →
            ∃ r w',
              (navigationSuccess <- VWProvider.navigateToDownloads portal ;;
               if negb navigationSuccess then ret None
               else
                 md <- getMetadata ;;
                 counts <- VWProvider.downloadAll decodeURIComponent baseDir portal
                             (filter (fun cd => isNewVersion md cd.1 (version cd.2))
                                     (VWProvider.findDownloads downloadFilter portal)).*2
                             (0, 0)%nat ;;
                 updateLastCheck (VWProvider.self baseDir) ;;
                 ret (Some counts))%js w1 = (Ok r, w') ∧
              (is_Some r → ∃ w2, advances w w2 ∧
                                 w' = (updateLastCheck (VWProvider.self baseDir) w2).2) ∧
              (VWProvider.navigation portal = Ok true → is_Some r)).
  { intros w1 H1.
    destruct (run_total_advancing _ w1 Total_vwNavigate Advancing_vwNavigate)
      as (nav & w2 & E2 & H2).
    unfold bind at 1. rewrite E2. destruct nav; simpl.
    - unfold bind at 1. unfold getMetadata.
      destruct (run_total_advancing _ w2
                  (Total_vwDownloadAll
                     (filter (fun cd => isNewVersion (metadata w2) cd.1 (version cd.2))
                             (VWProvider.findDownloads downloadFilter portal)).*2 (0, 0)%nat)
                  (Advancing_vwDownloadAll _ _)) as (counts & w3 & E3 & H3).
      unfold bind at 1. rewrite E3. unfold bind, ret.
      exists (Some counts), (updateLastCheck (VWProvider.self baseDir) w3).2.
      split; [rewrite updateLastCheck_run; reflexivity|]. split; [|eauto].
      intros _. exists w3. split; [|reflexivity]. eauto using advances_trans.
    - exists None, w2. split; [reflexivity|]. split; [intros [? [=]]|].
      intros Hnav. exfalso. revert E2.
      unfold VWProvider.navigateToDownloads, tryCatch, bind, await, ret.
      rewrite Hnav. discriminate. }
  unfold VWProvider.checkForUpdates. unfold bind at 1. unfold getLoggedIn.
  destruct (negb (VWProvider.sessionAlive portal) || negb (isLoggedIn w)) eqn:Hneed.
  - destruct (run_total_advancing _ w (Total_vwLogin (VWProvider.loginPage portal))
                (Advancing_vwLogin (VWProvider.loginPage portal)))
      as (ok & w1 & E1 & H1).
    unfold bind at 1. rewrite E1. destruct ok; simpl.
    + destruct (Hrest w1 H1) as (r & w' & E & Hw' & _).
      exists r, w'. split; [exact E|]. split; [exact Hw'|].
      intros Ha Hl. rewrite Ha, Hl in Hneed. discriminate.
    + exists None, w1. split; [reflexivity|]. split; [intros [? [=]]|].
      intros Ha Hl. rewrite Ha, Hl in Hneed. discriminate.
  - unfold bind at 1. unfold ret at 1. simpl.
    destruct (Hrest w (advances_refl w)) as (r & w' & E & Hw' & Hnav).
    exists r, w'. split; [exact E|]. split; [exact Hw'|]. auto.
Qed.

End Vw.

End Cycles.

Section HeartbeatClaim.

Lemma perform_advances op w : advances w (perform op w).
Proof.
  destruct op; simpl.
  - apply Advancing_loadMetadata.
  - apply Advancing_updateMetadata.
  - apply Advancing_updateLastCheck.
  - apply Advancing_cleanupOldVersions.
  - apply Advancing_downloadFile.
  - apply Advancing_vwDownloadFile.
  - apply Advancing_bmwCheckForUpdates.
  - apply Advancing_vwCheckForUpdates.
Qed.

Lemma performAll_advances ops : ∀ w, advances w (performAll ops w).
Proof.
  induction ops as [|op ops IH]; intros w; simpl.
  - apply advances_refl.
  - eapply advances_trans; [apply perform_advances|apply IH].
Qed.

Lemma updateLastCheck_stamps self w w2 :
  advances w w2 →
  let w' := (BaseProvider.updateLastCheck self w2).2 in
  ∃ n, (ticks w <= n)%nat ∧ ticks w' = (n + 3)%nat ∧
       persistedLastUpdate w' = Some (clock w n).
Proof.
  intros (Hc & Ht & _). cbv zeta. rewrite updateLastCheck_run. simpl.
  exists (ticks w2). rewrite Hc. split; [exact Ht|]. split; [lia|reflexivity].
Qed.

(** C8.  Under a clock that does not run backwards, and from a state in
    which the vendor state in memory is not behind the one on disk,
    [lastUpdate] on disk never moves back along any sequence of the
    operations on the vendor state (loading, record updates, heartbeat,
    cleanup, downloads, whole cycles of either vendor).  [updateLastCheck]
    sets it to the reading of the clock, and every cycle that runs to its
    end finishes with it, whatever was or was not downloaded: afterwards
    [lastUpdate] on disk is the reading taken at the end of the cycle.
    A cycle is cut short only by a failed login (or, for VW, a failed
    navigation); no cycle throws. *)
Theorem lastUpdate_heartbeat (w : World) :
  monotoneClock w → inStep w →
  (∀ ops1 ops2,
      notAfter (persistedLastUpdate (performAll ops1 w))
               (persistedLastUpdate (performAll (ops1 ++ ops2) w))) ∧
  (∀ self, persistedLastUpdate (perform (UpdateLastCheck self) w)
           = Some (clock w (ticks w))) ∧
  (∀ decode baseDir cfg portal, ∃ b w',
      BMWProvider.checkForUpdates decode baseDir cfg portal w = (Ok b, w') ∧
      (b = true ↔
       isLoggedIn w = true ∨ bmwLoginFailure (BMWProvider.loginPage portal) = None) ∧
      (b = true → ∃ n, (ticks w <= n)%nat ∧ ticks w' = (n + 3)%nat ∧
                       persistedLastUpdate w' = Some (clock w n))) ∧
  (∀ decode baseDir downloadFilter portal, ∃ r w',
      VWProvider.checkForUpdates decode baseDir downloadFilter portal w = (Ok r, w') ∧
      (is_Some r → ∃ n, (ticks w <= n)%nat ∧ ticks w' = (n + 3)%nat ∧
                        persistedLastUpdate w' = Some (clock w n)) ∧
      (VWProvider.sessionAlive portal = true → isLoggedIn w = true →
       VWProvider.navigation portal = Ok true → is_Some r)).
Proof.
  intros Hm Hi. split; [|split; [|split]].
  - intros ops1 ops2. unfold performAll. rewrite fold_left_app.
    fold (performAll ops1 w). fold (performAll ops2 (performAll ops1 w)).
    destruct (performAll_advances ops1 w) as (Hc & _ & H1).
    destruct (H1 Hm Hi) as [Hi1 _].
    destruct (performAll_advances ops2 (performAll ops1 w)) as (_ & _ & H2).
    apply H2; [|exact Hi1]. exact (monotoneClock_same _ _ Hc Hm).
  - intros self. simpl. rewrite updateLastCheck_run. reflexivity.
  - intros decode baseDir cfg portal.
    destruct (bmwCheckForUpdates_ends_with_check decode baseDir cfg portal w)
      as (b & w' & E & Hb & Hend).
    exists b, w'. split; [exact E|]. split; [exact Hb|].
    intros Htrue. destruct (Hend Htrue) as (w2 & H2 & ->).
    exact (updateLastCheck_stamps _ w w2 H2).
  - intros decode baseDir downloadFilter portal.
    destruct (vwCheckForUpdates_ends_with_check decode baseDir downloadFilter portal w)
      as (r & w' & E & Hend & Hdone).
    exists r, w'. split; [exact E|]. split; [|exact Hdone].
    intros Hr. destruct (Hend Hr) as (w2 & H2 & ->).
    exact (updateLastCheck_stamps _ w w2 H2).
Qed.

Lemma lastUpdate_heartbeat_witness :
  monotoneClock Examples.world ∧ inStep Examples.world ∧
  persistedLastUpdate Examples.world = Some 5%Z ∧
  persistedLastUpdate (perform (UpdateLastCheck Examples.bmw) Examples.world) = Some 10%Z ∧
  notAfter (persistedLastUpdate
              (performAll [CleanupOldVersions Examples.bmw "installer" "Tool_1.1.0.exe"]
                          Examples.world))
           (persistedLastUpdate
              (performAll ([CleanupOldVersions Examples.bmw "installer" "Tool_1.1.0.exe"]
                           ++ [UpdateLastCheck Examples.bmw]) Examples.world)).
Proof.
  assert (Hm : monotoneClock Examples.world).
  { intros i j Hij. simpl. lia. }
  assert (Hi : inStep Examples.world).
  { split; simpl; lia. }
  split; [exact Hm|]. split; [exact Hi|]. split; [reflexivity|].
  destruct (lastUpdate_heartbeat Examples.world Hm Hi) as (Hmono & Hbeat & _).
  split.
  - rewrite Hbeat. reflexivity.
  - apply Hmono.
Defined.

End HeartbeatClaim.

(** ** The aggregate file under interleaving *)

Section AggregateFile.
Import Aggregate.

Lemma stepTask_start name data w :
  stepTask (update name data) w
  = (Ok (moveTo (Loaded (aggregateAfter name data w)) (update name data)),
     withTicks (S (S (ticks w))) w).
Proof.
  unfold stepTask, update, MetadataManager.loadGlobalMetadata, MetadataManager.stamp,
    aggregateAfter. simpl. unfold_effects.
  destruct w as [ck tk fs vf gf up ms md li]; simpl. destruct gf; reflexivity.
Qed.

Lemma stepTask_loaded name data g w :
  stepTask (moveTo (Loaded g) (update name data)) w
  = (Ok (moveTo Done (update name data)), withGlobalFile (Json g) w).
Proof. reflexivity. Qed.

Lemma entryOf_afterAggregate_ne name data w other :
  other ≠ name → entryOf other (afterAggregate name data w) = entryOf other w.
Proof.
  intros Hne. unfold entryOf, afterAggregate, aggregateAfter. simpl.
  rewrite lookup_insert_ne by congruence.
  destruct (globalFile w); reflexivity.
Qed.

Lemma entryOf_afterAggregate name data w :
  entryOf name (afterAggregate name data w)
  = Some {| entryDownloads := downloads data;
            entryLastUpdate := Some (clock w (ticks w));
            entryVersion := match globalFile w with
                            | Json g => schemaVersion g
                            | _ => "1.0.0"
                            end |}.
Proof.
  unfold entryOf, afterAggregate, aggregateAfter. simpl.
  rewrite lookup_insert_eq. destruct (globalFile w); reflexivity.
Qed.

(** A task run through without another one in between is
    [updateProviderMetadata]. *)
Lemma run_alone name data w :
  run [0; 0]%nat [update name data] w
  = (Ok [moveTo Done (update name data)], afterAggregate name data w).
Proof.
  simpl. unfold bind at 1. rewrite stepTask_start. simpl.
  unfold bind at 1. rewrite stepTask_loaded. reflexivity.
Qed.

Lemma run_serial a b da db w :
  (run [0; 0; 1; 1]%nat [update a da; update b db] w).2
  = afterAggregate b db (afterAggregate a da w).
Proof.
  simpl. unfold bind at 1. rewrite stepTask_start. reflexivity.
Qed.

Lemma run_interleaved a b da db w :
  (run [0; 1; 0; 1]%nat [update a da; update b db] w).2
  = withGlobalFile (Json (aggregateAfter b db (withTicks (S (S (ticks w))) w)))
      (withTicks (S (S (S (S (ticks w))))) w).
Proof.
  simpl. unfold bind at 1. rewrite stepTask_start. simpl.
  unfold bind at 1. rewrite stepTask_start. reflexivity.
Qed.

(** C7, as stated, fails: nothing serialises the read-modify-write.
    When the loops of BMW and VW both load the aggregate file before
    either saves, the save of BMW is overwritten and its entry is lost. *)
Lemma concurrent_update_lost :
  let pool := [update "bmw" Examples.recorded; update "vw" BaseProvider.emptyMetadata] in
  let w' := (run [0; 1; 0; 1]%nat pool Examples.world).2 in
  (run [0; 1; 0; 1]%nat pool Examples.world).1
  = Ok [moveTo Done (update "bmw" Examples.recorded);
        moveTo Done (update "vw" BaseProvider.emptyMetadata)] ∧
  entryOf "bmw" w' = None ∧
  is_Some (entryOf "vw" w').
Proof.
  cbv zeta. split; [reflexivity|]. split; [vm_compute; reflexivity|].
  vm_compute. eauto.
Qed.

(** C7, amended.  [updateProviderMetadata] is a read-modify-write with
    awaits between the load and the save and no critical section.  Run
    without another update in between, it sets the entry of its vendor
    and keeps the entry of every other vendor, so two updates run one
    after the other are both kept; when the updates of two vendors
    interleave, both loading before either saves, the one saved first is
    lost. *)
Theorem aggregate_update_not_serialised :
  (∀ name data w,
      MetadataManager.updateProviderMetadata name data w
      = (Ok tt, (run [0; 0]%nat [update name data] w).2)) ∧
  (∀ name data w other,
      other ≠ name →
      entryOf other (run [0; 0]%nat [update name data] w).2 = entryOf other w) ∧
  (∀ name data w,
      entryDownloads <$> entryOf name (run [0; 0]%nat [update name data] w).2
      = Some (downloads data)) ∧
  (∀ a b da db w,
      a ≠ b →
      let w' := (run [0; 0; 1; 1]%nat [update a da; update b db] w).2 in
      entryDownloads <$> entryOf a w' = Some (downloads da) ∧
      entryDownloads <$> entryOf b w' = Some (downloads db)) ∧
  (∀ a b da db w,
      a ≠ b →
      let w' := (run [0; 1; 0; 1]%nat [update a da; update b db] w).2 in
      entryOf a w' = entryOf a w ∧
      entryDownloads <$> entryOf b w' = Some (downloads db)).
Proof.
  split; [|split; [|split; [|split]]].
  - intros. now rewrite run_alone, updateProviderMetadata_run.
  - intros. rewrite run_alone. now apply entryOf_afterAggregate_ne.
  - intros. rewrite run_alone. simpl. now rewrite entryOf_afterAggregate.
  - intros a b da db w Hne. cbv zeta. rewrite run_serial.
    rewrite entryOf_afterAggregate_ne by congruence.
    rewrite !entryOf_afterAggregate. auto.
  - intros a b da db w Hne. cbv zeta. rewrite run_interleaved.
    change (withGlobalFile (Json (aggregateAfter b db (withTicks (S (S (ticks w))) w)))
              (withTicks (S (S (S (S (ticks w))))) w))
      with (afterAggregate b db (withTicks (S (S (ticks w))) w)).
    rewrite entryOf_afterAggregate_ne by congruence.
    rewrite entryOf_afterAggregate. auto.
Qed.

End AggregateFile.

(** ** Sample runs *)

Section Samples.
Import BaseProvider.

Example sample_clean_filename :
  extractCleanFilename decodePlain "https://host/path/Installer.exe?sig=abc&signed=true"
  = Some "Installer.exe".
Proof. vm_compute. reflexivity. Qed.

Example sample_fallback_name :
  resolveFileName decodePlain
    {| candidate := {| title := "ISTA Client"; url := "https://host/api/v2/downloads/7";
                       method := "link_search_main"; actualFilename := None |};
       category := "client"; appType := "ista-next"; displayName := None;
       version := "unknown"; originalFilename := None |}
  = "client.bin".
Proof. vm_compute. reflexivity. Qed.

Example sample_base_names :
  getBaseFileName "Tool_1.0.0.exe" = "Tool" ∧
  getBaseFileName "ISTA-P_2025-02-03_full.zip" = "ISTA-P" ∧
  getBaseFileName "ODIS_25-1-0.zip" = "ODIS" ∧
  getBaseFileName "fw_3.12.bin" = "fw" ∧
  getBaseFileName "Tool-1.0.0.exe" = "Tool-1.0.0".
Proof. vm_compute. auto. Qed.

Example sample_extname :
  Path.extname "Tool_1.0.0.exe" = ".exe" ∧ Path.extname ".json" = "" ∧
  Path.extname "archive" = "" ∧ Path.extname "a." = "." ∧ Path.extname ".." = "".
Proof. vm_compute. auto. Qed.

Example sample_versions :
  Version.extractVersion "https://h/ISTA_3.74.0.930.exe" = "3.74.0.930" ∧
  Version.extractVersion "https://h/fw_04-25-10.bin" = "04-25-10" ∧
  Version.extractVersion "https://h/ODIS_25_1_0_20250820.zip" = "unknown" ∧
  Version.vwExtractVersion "https://h/x" "ODIS_25_1_0-EU_20250820.zip" = "25_1_0-EU_20250820" ∧
  Version.vwExtractVersion "https://h/x" "fmc_2025-02-03.zip" = "2025-02-03" ∧
  Version.vwExtractVersion "https://h/setup_4.53.30.exe" "" = "4.53.30".
Proof. vm_compute. auto 10. Qed.

Example sample_constructor_state :
  isNewVersion constructedMetadata "installer" "unknown" = true.
Proof. reflexivity. Qed.

End Samples.

(** ** Further properties of the cleanup and of the transfer manager *)

Section CleanupFacts.
Import BaseProvider.


End CleanupFacts.
Section TransferFacts.
Import BaseProvider.
Variable decodeURIComponent : string -> option string.

Lemma recordOf_forget category md c r :
  recordOf (forget category md) c = Some r → recordOf md c = Some r.
Proof.
  unfold recordOf, forget. simpl. destruct (downloads md) as [dl|]; [|discriminate].
  simpl. intros H. now apply lookup_delete_Some in H as [_ H].
Qed.

Lemma afterCleanup_recordOf self category name w c r :
  recordOf (metadata (afterCleanup self category name w)) c = Some r →
  recordOf (metadata w) c = Some r.
Proof.
  rewrite afterCleanup_metadata. destruct (staleFile category name w); [|auto].
  apply recordOf_forget.
Qed.

Lemma downloadFile_run self download transfer w :
  downloadFile decodeURIComponent self download transfer w
  = transferTo self download (resolveFileName decodeURIComponent download) transfer w.
Proof.
  unfold downloadFile, tryCatch.
  destruct transfer as [e|n e|size].
  - now rewrite transferTo_failed by discriminate.
  - now rewrite transferTo_failed by discriminate.
  - rewrite transferTo_finished. now destruct (0 <? size)%N.
Qed.

Lemma vwDownloadFile_run baseDir download transfer w :
  VWProvider.downloadFile decodeURIComponent baseDir download transfer w
  = transferTo (VWProvider.self baseDir) download
      (VWProvider.resolveFileName decodeURIComponent download) transfer w.
Proof.
  unfold VWProvider.downloadFile, tryCatch.
  destruct transfer as [e|n e|size].
  - now rewrite transferTo_failed by discriminate.
  - now rewrite transferTo_failed by discriminate.
  - rewrite transferTo_finished. now destruct (0 <? size)%N.
Qed.

(** What a transfer that settles leaves. *)
Lemma settled_transfer self download name transfer w :
  ∃ b w',
    transferTo self download name transfer w = (Ok b, w') ∧
    (b = true ↔ ∃ size, transfer = Finished size ∧ (0 < size)%N) ∧
    (b = true →
     ∃ r, recordOf (metadata w') (category download) = Some r ∧
          fileName r = name ∧ artifact r = download ∧
          transfer = Finished (fileSize r) ∧
          files w' !! name = Some (fileSize r) ∧
          vendorFile w' = Json (metadata w')) ∧
    (b = false →
     files w' !! name = None ∧
     ∀ c r, recordOf (metadata w') c = Some r → recordOf (metadata w) c = Some r).
Proof.
  assert (Hcases : (∀ size, transfer = Finished size → size = 0%N) ∨
                   ∃ size, transfer = Finished size ∧ (0 < size)%N).
  { destruct transfer as [e|n e|size]; [left; discriminate|left; discriminate|].
    destruct (N.eq_dec size 0%N) as [->|Hpos]; [left; now intros ? [= <-]|].
    right. exists size. split; [reflexivity|lia]. }
  destruct Hcases as [Hz|(size & -> & Hpos)].
  - exists false, (afterFailure self download name w).
    split; [now apply transferTo_failed|].
    split; [|split; [discriminate|]].
    + split; [discriminate|]. intros (size & -> & Hpos).
      specialize (Hz size eq_refl). lia.
    + intros _. split; [apply lookup_delete_eq|].
      intros c r. apply afterCleanup_recordOf.
  - exists true, (afterSuccess self download name size w).
    split; [rewrite transferTo_finished; apply N.ltb_lt in Hpos; now rewrite Hpos|].
    split; [split; eauto|]. split; [|discriminate]. intros _.
    set (w1 := afterCleanup self (category download) name w).
    exists (recordFor self download name size (clock w1 (ticks w1))).
    split; [|split; [reflexivity|split; [reflexivity|split; [reflexivity|split]]]].
    + unfold recordOf, afterSuccess. simpl. apply lookup_insert_eq.
    + unfold afterSuccess. simpl. apply lookup_insert_eq.
    + reflexivity.
Qed.

Lemma transferOn_break self download name partial w :
  transferOn self download name (SourceFails partial) w
  = (None, afterBreak self download name partial w).
Proof.
  unfold transferOn, stuck, bind. rewrite cleanupOldVersions_run. reflexivity.
Qed.

(** X2.  A download attempt (of the base class, which BMW uses, and of
    VW) on the response as it comes.  When the transfer settles, the
    attempt returns and does not throw: [true] exactly when the writer
    finished with a non-empty file, and then the file is on disk under
    the resolved name and the record of the category names it, with its
    size; [false] otherwise (the request failed, the writer failed
    midway, or the file is empty), and then no file is left under that
    name and no record is created or altered.  When the response stream
    itself fails midway the attempt never returns: the bytes written so
    far stay on disk under the resolved name, the cleanup before the
    transfer has been done, and no record is created or altered. *)
Theorem downloadFile_outcome (self : Provider) (download : Artifact) (name : string)
    (response : Response) (w : World) :
  (name = resolveFileName decodeURIComponent download →
   downloadFileOn decodeURIComponent self download response w
   = transferOn self download name response w) ∧
  (∀ baseDir,
      self = VWProvider.self baseDir →
      name = VWProvider.resolveFileName decodeURIComponent download →
      VWProvider.downloadFileOn decodeURIComponent baseDir download response w
      = transferOn self download name response w) ∧
  (∀ transfer, response = Settles transfer →
     ∃ b w',
       transferOn self download name response w = (Some (Ok b), w') ∧
       (b = true ↔ ∃ size, transfer = Finished size ∧ (0 < size)%N) ∧
       (b = true →
        ∃ r, recordOf (metadata w') (category download) = Some r ∧
             fileName r = name ∧ artifact r = download ∧
             transfer = Finished (fileSize r) ∧
             files w' !! name = Some (fileSize r) ∧
             vendorFile w' = Json (metadata w')) ∧
       (b = false →
        files w' !! name = None ∧
        ∀ c r, recordOf (metadata w') c = Some r → recordOf (metadata w) c = Some r)) ∧
  (∀ partial, response = SourceFails partial →
     ∃ w',
       transferOn self download name response w = (None, w') ∧
       files w' !! name = Some partial ∧
       w' = afterBreak self download name partial w ∧
       (∀ f, f ≠ name →
             files w' !! f
             = files (cleanupOldVersions self (category download) name w).2 !! f) ∧
       metadata w' = metadata (cleanupOldVersions self (category download) name w).2 ∧
       ∀ c r, recordOf (metadata w') c = Some r → recordOf (metadata w) c = Some r).
Proof.
  split; [|split; [|split]].
  - intros ->. destruct response as [transfer|partial]; [|reflexivity].
    unfold downloadFileOn, transferOn, returning. now rewrite downloadFile_run.
  - intros baseDir -> ->. destruct response as [transfer|partial]; [|reflexivity].
    unfold VWProvider.downloadFileOn, transferOn, returning.
    now rewrite vwDownloadFile_run.
  - intros transfer ->.
    destruct (settled_transfer self download name transfer w) as (b & w' & E & H).
    exists b, w'. split; [|exact H]. unfold transferOn, returning. now rewrite E.
  - intros partial ->. exists (afterBreak self download name partial w).
    split; [apply transferOn_break|].
    rewrite cleanupOldVersions_run. unfold afterBreak. simpl.
    split; [apply lookup_insert_eq|]. split; [reflexivity|].
    split; [intros f Hf; now apply lookup_insert_ne|]. split; [reflexivity|].
    intros c r. apply afterCleanup_recordOf.
Qed.

(** X3.  A download that succeeded is not offered again: with the state
    it leaves, [isNewVersion] rejects the category at the version just
    recorded, unless that version is the empty string.  The versions the
    two categorisers attach are never empty, so an artifact of BMW or of
    VW that was just downloaded is rejected while the portal shows the
    same version. *)
Theorem recorded_download_not_new :
  (∀ self download p w,
      isNewVersion
        (metadata (downloadFile decodeURIComponent self download (Finished (N.pos p)) w).2)
        (category download) (version download)
      = negb (Js.truthy (version download))) ∧
  (∀ baseDir appType d c p w,
      let download := BMWProvider.categorize appType d c in
      isNewVersion
        (metadata (downloadFile decodeURIComponent (BMWProvider.self baseDir) download
                     (Finished (N.pos p)) w).2)
        c (version download) = false) ∧
  (∀ baseDir appType d c p w,
      let download := VWProvider.categorize appType d c in
      isNewVersion
        (metadata (VWProvider.downloadFile decodeURIComponent baseDir download
                     (Finished (N.pos p)) w).2)
        c (version download) = false).
Proof.
  assert (Hgen : ∀ self download name p w,
             isNewVersion
               (metadata (transferTo self download name (Finished (N.pos p)) w).2)
               (category download) (version download)
             = negb (Js.truthy (version download))).
  { intros self download name p w. rewrite transferTo_finished. simpl.
    unfold isNewVersion, afterSuccess. simpl. rewrite lookup_insert_eq. simpl.
    unfold recordedVersion. simpl.
    destruct (Js.truthy (version download)); simpl; [|reflexivity].
    destruct (String.eqb (version download) "unknown"); [reflexivity|].
    now rewrite String.eqb_refl. }
  assert (Hbase : ∀ self download p w,
             isNewVersion
               (metadata (downloadFile decodeURIComponent self download
                            (Finished (N.pos p)) w).2)
               (category download) (version download)
             = negb (Js.truthy (version download))).
  { intros self download p w.
    specialize (Hgen self download (resolveFileName decodeURIComponent download) p w).
    destruct (transferTo self download (resolveFileName decodeURIComponent download)
                (Finished (N.pos p)) w) as [[b|e] w'] eqn:E.
    - now rewrite (downloadFile_as_transfer _ _ _ _ _ _ _ E).
    - rewrite transferTo_finished in E. discriminate. }
  split; [exact Hbase|]. split.
  - intros baseDir appType d c p w download.
    change c with (category download) at 1.
    rewrite Hbase. subst download. simpl. now rewrite extractVersion_truthy.
  - intros baseDir appType d c p w download.
    change c with (category download) at 1.
    specialize (Hgen (VWProvider.self baseDir) download
                  (VWProvider.resolveFileName decodeURIComponent download) p w).
    destruct (transferTo (VWProvider.self baseDir) download
                (VWProvider.resolveFileName decodeURIComponent download)
                (Finished (N.pos p)) w) as [[b|e] w'] eqn:E.
    + rewrite (vwDownloadFile_as_transfer _ _ _ _ _ _ _ E). simpl in *.
      rewrite Hgen. subst download. simpl. now rewrite vwExtractVersion_truthy.
    + rewrite transferTo_finished in E. discriminate.
Qed.

End TransferFacts.
Section StoreFacts.
Import BaseProvider.

(** X4.  [updateMetadata] on a store that can be written and whose
    aggregate file is absent, unparsable or of the shape this program
    writes (the states of [stored]; the function has no [try] of its
    own).  It stores the record under its category, also when the state
    is still the empty object of the constructor, and leaves the
    records of the other categories and the directory as they were;
    [lastUpdate] is the reading of the clock.  The state is written
    through: the vendor file holds the state in memory, the entry of
    the vendor in the aggregate file holds the same downloads, and
    loading the metadata again right away changes nothing.  The same
    holds for [updateLastCheck], which keeps every record. *)
Theorem updateMetadata_round_trip (self : Provider) (category : string)
    (data : ArtifactRecord) (w : World) :
  (∃ w',
      updateMetadata self category data w = (Ok tt, w') ∧
      recordOf (metadata w') category = Some data ∧
      (∀ c, c ≠ category → recordOf (metadata w') c = recordOf (metadata w) c) ∧
      lastUpdate (metadata w') = Some (clock w (ticks w)) ∧
      files w' = files w ∧
      vendorFile w' = Json (metadata w') ∧
      entryDownloads <$> Aggregate.entryOf (providerName self) w'
      = Some (downloads (metadata w')) ∧
      loadMetadata self w' = (Ok tt, w')) ∧
  (∃ w',
      updateLastCheck self w = (Ok tt, w') ∧
      (∀ c, recordOf (metadata w') c = recordOf (metadata w) c) ∧
      lastUpdate (metadata w') = Some (clock w (ticks w)) ∧
      files w' = files w ∧
      vendorFile w' = Json (metadata w') ∧
      entryDownloads <$> Aggregate.entryOf (providerName self) w'
      = Some (downloads (metadata w')) ∧
      loadMetadata self w' = (Ok tt, w')).
Proof.
  split.
  - eexists. split; [apply updateMetadata_run|].
    split; [unfold recordOf; simpl; apply lookup_insert_eq|].
    split.
    { intros c Hc. unfold recordOf. simpl. rewrite lookup_insert_ne by congruence.
      destruct (downloads (metadata w)); reflexivity. }
    split; [reflexivity|]. split; [reflexivity|]. split; [reflexivity|].
    split.
    { unfold afterPersist. rewrite entryOf_afterAggregate. reflexivity. }
    rewrite loadMetadata_run. reflexivity.
  - eexists. split; [apply updateLastCheck_run|].
    split; [reflexivity|].
    split; [reflexivity|]. split; [reflexivity|]. split; [reflexivity|].
    split.
    { unfold afterPersist. rewrite entryOf_afterAggregate. reflexivity. }
    rewrite loadMetadata_run. reflexivity.
Qed.

End StoreFacts.
Section FileNames.
Import BaseProvider.
Variable decodeURIComponent : string -> option string.

Lemma endsWith_extension a url :
  Js.endsWith (a +:+ getFileExtension url) (getFileExtension url) = true.
Proof. apply endsWith_sapp. Qed.

Lemma fallbackName_usable download :
  fallbackName download ≠ "" ∧ fallbackName download ≠ "download".
Proof.
  unfold fallbackName.
  set (v := if String.eqb (version download) "unknown" then "" else "_" +:+ version download).
  rewrite <- sapp_assoc.
  pose proof (endsWith_extension (category download +:+ v) (url (candidate download))) as He.
  revert He. generalize (category download +:+ v). intros a.
  unfold getFileExtension.
  destruct (Js.includes _ ".exe"); [|destruct (Js.includes _ ".zip");
    [|destruct (Js.includes _ ".istapdata")]];
    intros He; split; intros Heq; rewrite Heq in He; discriminate.
Qed.

Lemma usable_name f :
  unusable (Some f) = false → f ≠ "" ∧ f ≠ "download" ∧ (5 <= String.length f)%nat.
Proof.
  unfold unusable. intros H.
  apply orb_false_iff in H as [H H3]. apply orb_false_iff in H as [H1 H2].
  apply negb_false_iff in H1. apply String.eqb_neq in H2. apply Nat.ltb_ge in H3.
  repeat split; auto. intros ->. discriminate.
Qed.

Lemma resolveFileName_nonempty download :
  resolveFileName decodeURIComponent download ≠ "".
Proof.
  unfold resolveFileName.
  destruct (extractCleanFilename decodeURIComponent _) as [f|] eqn:E.
  - destruct (unusable (Some f)) eqn:Hu; [apply fallbackName_usable|].
    now apply usable_name in Hu.
  - apply fallbackName_usable.
Qed.

Lemma vwResolveFileName_nonempty download :
  VWProvider.resolveFileName decodeURIComponent download ≠ "".
Proof.
  unfold VWProvider.resolveFileName.
  destruct (unusable (originalFilename download)) eqn:H1.
  - destruct (extractCleanFilename decodeURIComponent _) as [f|] eqn:E.
    + destruct (unusable (Some f)) eqn:Hu; [apply fallbackName_usable|].
      now apply usable_name in Hu.
    + apply fallbackName_usable.
  - rewrite H1. destruct (originalFilename download) as [f|]; [|discriminate].
    now apply usable_name in H1.
Qed.

(** X5.  The file name a download is stored under is never empty and
    never the bare word [download].  The base class (BMW) takes the
    name recovered from the URL when that one has at least five
    characters, and the generated [category_version.ext] otherwise, also
    when the URL cannot be decoded; VW prefers the file name read from
    the page, then the one recovered from the URL, then the generated
    one. *)
Theorem resolveFileName_usable (download : Artifact) :
  let fromUrl := extractCleanFilename decodeURIComponent (url (candidate download)) in
  let name := resolveFileName decodeURIComponent download in
  let vwName := VWProvider.resolveFileName decodeURIComponent download in
  (name ≠ "" ∧ name ≠ "download" ∧
   (name = fallbackName download ∨ (fromUrl = Some name ∧ (5 <= String.length name)%nat)) ∧
   (fromUrl = None → name = fallbackName download)) ∧
  (vwName ≠ "" ∧ vwName ≠ "download" ∧
   (unusable (originalFilename download) = false →
    originalFilename download = Some vwName ∧ (5 <= String.length vwName)%nat) ∧
   (unusable (originalFilename download) = true → vwName = name)).
Proof.
  intros fromUrl name vwName.
  assert (Hname : name ≠ "" ∧ name ≠ "download" ∧
            (name = fallbackName download ∨
             (fromUrl = Some name ∧ (5 <= String.length name)%nat)) ∧
            (fromUrl = None → name = fallbackName download)).
  { subst name. unfold resolveFileName. fold fromUrl.
    destruct fromUrl as [f|].
    - destruct (unusable (Some f)) eqn:Hu.
      + destruct (fallbackName_usable download). repeat split; auto; discriminate.
      + apply usable_name in Hu as (H1 & H2 & H3). repeat split; auto; discriminate.
    - destruct (fallbackName_usable download). repeat split; auto. }
  split; [exact Hname|].
  assert (Hvw : unusable (originalFilename download) = true → vwName = name).
  { intros Hu. subst vwName name. unfold VWProvider.resolveFileName, resolveFileName.
    now rewrite Hu. }
  destruct (unusable (originalFilename download)) eqn:Hu.
  - rewrite (Hvw eq_refl). destruct Hname as (H1 & H2 & _).
    repeat split; auto; discriminate.
  - assert (Ho : ∃ f, originalFilename download = Some f)
      by (destruct (originalFilename download); [eauto|discriminate]).
    destruct Ho as [f Ho].
    assert (Hv : vwName = f).
    { subst vwName. unfold VWProvider.resolveFileName. rewrite Hu, Hu, Ho. reflexivity. }
    rewrite Ho in Hu. apply usable_name in Hu as (H1 & H2 & H3).
    rewrite Hv, Ho. repeat split; auto; discriminate.
Qed.

End FileNames.

Section Tracking.
Import BaseProvider.
Variable decodeURIComponent : string -> option string.

(** A file that survives the cleanup before a transfer is the file of a
    record of another category. *)
Lemma afterCleanup_tracked_survivor self category name w f :
  tracked w → files w !! "" = None → f ≠ name →
  is_Some (files (afterCleanup self category name w) !! f) →
  Js.endsWith f ".json" = false →
  ∃ c r, c ≠ category ∧ recordOf (metadata w) c = Some r ∧ fileName r = f.
Proof.
  intros Ht Hnil Hf. rewrite afterCleanup_files.
  destruct (similar name f); [intros [? [=]]|].
  intros Hs Hj.
  assert (Hold : is_Some (files w !! f)).
  { destruct (staleFile category name w); [|exact Hs].
    destruct (decide (s = f)); [destruct Hs; discriminate|exact Hs]. }
  destruct (Ht f Hold Hj) as (c & r & Hr & Hname).
  exists c, r. split; [|auto]. intros ->.
  assert (Hstale : staleFile category name w = Some f).
  { apply staleFile_Some. exists r. repeat split; auto.
    intros ->. rewrite Hnil in Hold. destruct Hold; discriminate. }
  rewrite Hstale in Hs. rewrite decide_True in Hs by reflexivity.
  destruct Hs; discriminate.
Qed.

Lemma afterCleanup_no_empty_name self category name w :
  files w !! "" = None → files (afterCleanup self category name w) !! "" = None.
Proof.
  intros Hnil. rewrite afterCleanup_files, Hnil.
  destruct (similar name ""); [reflexivity|].
  destruct (staleFile category name w); [|reflexivity].
  destruct (decide (s = "")); reflexivity.
Qed.

Lemma transferTo_keeps_tracked self download name transfer w :
  name ≠ "" → tracked w → files w !! "" = None →
  tracked (transferTo self download name transfer w).2 ∧
  files (transferTo self download name transfer w).2 !! "" = None.
Proof.
  intros Hname Ht Hnil.
  pose proof (afterCleanup_no_empty_name self (category download) name w Hnil) as Hnil1.
  assert (Hfail : tracked (afterFailure self download name w) ∧
                  files (afterFailure self download name w) !! "" = None).
  { split.
    - intros f Hf Hj. unfold afterFailure in Hf. simpl in Hf.
      destruct (decide (name = f)) as [->|Hne];
        [rewrite lookup_delete_eq in Hf; destruct Hf; discriminate|].
      rewrite lookup_delete_ne in Hf by assumption.
      destruct (afterCleanup_tracked_survivor self (category download) name w f)
        as (c & r & Hc & Hr & Hfn); auto.
      exists c, r. split; [|exact Hfn].
      change (metadata (afterFailure self download name w))
        with (metadata (afterCleanup self (category download) name w)).
      now rewrite afterCleanup_recordOf_ne.
    - unfold afterFailure. simpl. rewrite lookup_delete_ne by assumption. exact Hnil1. }
  destruct transfer as [e|n e|size].
  - rewrite transferTo_failed by discriminate. exact Hfail.
  - rewrite transferTo_failed by discriminate. exact Hfail.
  - rewrite transferTo_finished. destruct (0 <? size)%N; [|exact Hfail].
    change ((Ok true, afterSuccess self download name size w).2)
      with (afterSuccess self download name size w).
    remember (afterCleanup self (category download) name w) as w1 eqn:Hw1.
    set (record := recordFor self download name size (clock w1 (ticks w1))).
    assert (Hfiles : files (afterSuccess self download name size w)
                     = <[name := size]> (files w1)) by (rewrite Hw1; reflexivity).
    assert (Hmd : metadata (afterSuccess self download name size w)
                  = {| lastUpdate := Some (clock w1 (S (ticks w1)));
                       downloads := Some (<[category download := record]>
                                            (default ∅ (downloads (metadata w1)))) |})
      by (subst record; rewrite Hw1; reflexivity).
    split.
    + intros f Hf Hj. rewrite Hfiles in Hf.
      destruct (decide (name = f)) as [<-|Hne].
      * exists (category download), record. split; [|reflexivity].
        rewrite Hmd. unfold recordOf. simpl. apply lookup_insert_eq.
      * rewrite lookup_insert_ne in Hf by assumption. rewrite Hw1 in Hf.
        destruct (afterCleanup_tracked_survivor self (category download) name w f)
          as (c & r & Hc & Hr & Hfn); auto.
        exists c, r. split; [|exact Hfn].
        rewrite Hmd. unfold recordOf at 1. simpl. rewrite lookup_insert_ne by congruence.
        rewrite <- Hr, <- (afterCleanup_recordOf_ne self (category download) name w c Hc).
        rewrite <- Hw1. unfold recordOf. destruct (downloads (metadata w1)); reflexivity.
    + rewrite Hfiles, lookup_insert_ne by assumption. exact Hnil1.
Qed.

(** A transfer left waiting by a failed response stream leaves its
    partial file without a record, unless a record named that file
    before. *)
Lemma afterBreak_untracked self download name partial w :
  Js.endsWith name ".json" = false →
  (∀ c r, recordOf (metadata w) c = Some r → fileName r ≠ name) →
  ¬ tracked (afterBreak self download name partial w).
Proof.
  intros Hj Hnone Ht.
  destruct (Ht name) as (c & r & Hr & Hn); [|exact Hj|].
  - unfold afterBreak. simpl. rewrite lookup_insert_eq. eauto.
  - apply afterCleanup_recordOf in Hr. exact (Hnone c r Hr Hn).
Qed.

(** X6.  A download attempt whose transfer settles leaves no orphan
    behind.  When every downloaded file of the vendor directory is the
    file of a record (and no entry has the empty name), the same holds
    after [downloadFile], of the base class and of VW, however the
    transfer settled: the files the attempt leaves are the new one,
    which is recorded, and files recorded under other categories.  An
    attempt whose response stream fails midway does leave one: the
    partial file stays under the resolved name (not a JSON name), and
    unless a record named that file before, no record names it. *)
Theorem downloads_stay_tracked (self : Provider) (download : Artifact)
    (response : Response) (w : World) :
  tracked w → files w !! "" = None →
  (∀ transfer, response = Settles transfer →
     (let w' := (downloadFileOn decodeURIComponent self download response w).2 in
      tracked w' ∧ files w' !! "" = None) ∧
     (∀ baseDir,
         let w' := (VWProvider.downloadFileOn decodeURIComponent baseDir download
                      response w).2 in
         tracked w' ∧ files w' !! "" = None)) ∧
  (∀ partial, response = SourceFails partial →
     (let name := resolveFileName decodeURIComponent download in
      let w' := (downloadFileOn decodeURIComponent self download response w).2 in
      files w' !! name = Some partial ∧
      (Js.endsWith name ".json" = false →
       (∀ c r, recordOf (metadata w) c = Some r → fileName r ≠ name) →
       ¬ tracked w')) ∧
     (∀ baseDir,
         let name := VWProvider.resolveFileName decodeURIComponent download in
         let w' := (VWProvider.downloadFileOn decodeURIComponent baseDir download
                      response w).2 in
         files w' !! name = Some partial ∧
         (Js.endsWith name ".json" = false →
          (∀ c r, recordOf (metadata w) c = Some r → fileName r ≠ name) →
          ¬ tracked w'))).
Proof.
  intros Ht Hnil. split.
  - intros transfer ->. split.
    + cbv zeta. unfold downloadFileOn, returning. simpl. rewrite downloadFile_run.
      apply transferTo_keeps_tracked; auto using resolveFileName_nonempty.
    + intros baseDir. cbv zeta. unfold VWProvider.downloadFileOn, returning. simpl.
      rewrite vwDownloadFile_run.
      apply transferTo_keeps_tracked; auto using vwResolveFileName_nonempty.
  - intros partial ->. split.
    + cbv zeta. unfold downloadFileOn. rewrite transferOn_break. simpl.
      split; [apply lookup_insert_eq|]. apply afterBreak_untracked.
    + intros baseDir. cbv zeta. unfold VWProvider.downloadFileOn.
      rewrite transferOn_break. simpl.
      split; [apply lookup_insert_eq|]. apply afterBreak_untracked.
Qed.

End Tracking.

Lemma tracked_example : tracked Examples.world ∧ files Examples.world !! "" = None.
Proof.
  split; [|vm_compute; reflexivity].
  intros f Hf _. exists "installer", (Examples.toolRecord "1.0.0" 4%Z).
  split; [vm_compute; reflexivity|].
  unfold Examples.world in Hf. simpl in Hf.
  destruct Hf as [n Hf]. apply lookup_singleton_Some in Hf as [<- _]. reflexivity.
Qed.

Lemma downloads_stay_tracked_witness :
  let failed := Settles (StreamFails 512 "ENOSPC: no space left on device, write") in
  let w1 := (BaseProvider.downloadFileOn BaseProvider.decodePlain Examples.bmw
               (Examples.tool "1.1.0") failed Examples.world).2 in
  let w2 := (BaseProvider.downloadFileOn BaseProvider.decodePlain Examples.bmw
               (Examples.tool "1.1.0") (SourceFails 512) Examples.world).2 in
  tracked Examples.world ∧ files Examples.world !! "" = None ∧
  (tracked w1 ∧ files w1 !! "" = None) ∧
  files w2 !! "Tool_1.1.0.exe" = Some 512%N ∧ ¬ tracked w2.
Proof.
  cbv zeta. destruct tracked_example as [Ht Hnil].
  split; [exact Ht|]. split; [exact Hnil|]. split.
  - exact (proj1 (proj1 (downloads_stay_tracked BaseProvider.decodePlain Examples.bmw
                           (Examples.tool "1.1.0") _ Examples.world Ht Hnil)
                    _ eq_refl)).
  - destruct (proj1 (proj2 (downloads_stay_tracked BaseProvider.decodePlain Examples.bmw
                              (Examples.tool "1.1.0") (SourceFails 512) Examples.world
                              Ht Hnil) 512%N eq_refl)) as [Hfile Hun].
    split; [exact Hfile|]. apply Hun; [vm_compute; reflexivity|].
    intros c r Hr. unfold recordOf in Hr. simpl in Hr.
    apply lookup_singleton_Some in Hr as [_ <-]. vm_compute. discriminate.
Defined.

(** ** Invariants of computations *)

Section Invariants.
Variable I : World → Prop.

Lemma Keeps_ret {A} (a : A) : Keeps I (ret a).
Proof. intros w H. exact H. Qed.

Lemma Keeps_throw {A} e : Keeps I (@throw A e).
Proof. intros w H. exact H. Qed.

Lemma Keeps_await {A} (o : outcome A) : Keeps I (await o).
Proof. intros w H. exact H. Qed.

Lemma Keeps_getMetadata : Keeps I getMetadata.
Proof. intros w H. exact H. Qed.

Lemma Keeps_getLoggedIn : Keeps I getLoggedIn.
Proof. intros w H. exact H. Qed.

Lemma Keeps_bind {A B} (m : M A) (f : A → M B) :
  Keeps I m → (∀ a, Keeps I (f a)) → Keeps I (bind m f).
Proof.
  intros Hm Hf w H. unfold bind. specialize (Hm w H).
  destruct (m w) as [[a|e] w1]; simpl in *; [now apply Hf|exact Hm].
Qed.

Lemma Keeps_tryCatch {A} (m : M A) (h : string → M A) :
  Keeps I m → (∀ e, Keeps I (h e)) → Keeps I (tryCatch m h).
Proof.
  intros Hm Hh w H. unfold tryCatch. specialize (Hm w H).
  destruct (m w) as [[a|e] w1]; simpl in *; [exact Hm|now apply Hh].
Qed.

End Invariants.

Lemma bind_Ok_inv {A B} (m : M A) (f : A → M B) w b w' :
  bind m f w = (Ok b, w') → ∃ a w1, m w = (Ok a, w1) ∧ f a w1 = (Ok b, w').
Proof.
  unfold bind. destruct (m w) as [[a|e] w1]; [eauto|discriminate].
Qed.

(** Decomposing a computation into steps that keep an invariant. *)
Ltac keeps_step :=
  lazymatch goal with
  | |- Keeps _ (ret _) => apply Keeps_ret
  | |- Keeps _ (throw _) => apply Keeps_throw
  | |- Keeps _ (await _) => apply Keeps_await
  | |- Keeps _ getMetadata => apply Keeps_getMetadata
  | |- Keeps _ getLoggedIn => apply Keeps_getLoggedIn
  | |- Keeps _ (bind _ _) => apply Keeps_bind; [|intros ?]
  | |- Keeps _ (tryCatch _ _) => apply Keeps_tryCatch; [|intros ?]
  | |- Keeps _ (if ?b then _ else _) => destruct b
  | |- Keeps _ (match ?x with _ => _ end) => destruct x
  end.
Ltac keeps := repeat keeps_step.

(** ** The mails of a cycle *)

Section Mails.
Import BaseProvider.
Variable decodeURIComponent : string -> option string.
Variable baseDir : string.

Lemma afterCleanup_mails self category name w :
  mails (afterCleanup self category name w) = mails w.
Proof. unfold afterCleanup. destruct (staleFile category name w); reflexivity. Qed.

Lemma transferTo_delivers self download name transfer w :
  ∃ w', transferTo self download name transfer w = (Ok (delivers transfer), w') ∧
        mails w' = mails w.
Proof.
  destruct transfer as [e|n e|size]; simpl.
  - rewrite transferTo_failed by discriminate. eexists. split; [reflexivity|].
    apply afterCleanup_mails.
  - rewrite transferTo_failed by discriminate. eexists. split; [reflexivity|].
    apply afterCleanup_mails.
  - rewrite transferTo_finished. destruct (0 <? size)%N; eexists; (split; [reflexivity|]);
      apply afterCleanup_mails.
Qed.

Lemma downloadFile_delivers self download transfer w :
  ∃ w', downloadFile decodeURIComponent self download transfer w
        = (Ok (delivers transfer), w') ∧ mails w' = mails w.
Proof. rewrite downloadFile_run. apply transferTo_delivers. Qed.

Lemma vwDownloadFile_delivers download transfer w :
  ∃ w', VWProvider.downloadFile decodeURIComponent baseDir download transfer w
        = (Ok (delivers transfer), w') ∧ mails w' = mails w.
Proof. rewrite vwDownloadFile_run. apply transferTo_delivers. Qed.

Lemma Keeps_mails_setLoggedIn ms b : Keeps (fun w => mails w = ms) (setLoggedIn b).
Proof. intros w H. exact H. Qed.

Lemma Keeps_mails_updateLastCheck ms self :
  Keeps (fun w => mails w = ms) (updateLastCheck self).
Proof. intros w H. rewrite updateLastCheck_run. exact H. Qed.

Lemma Keeps_mails_vwLogin ms page : Keeps (fun w => mails w = ms) (VWProvider.login page).
Proof.
  unfold VWProvider.login.
  generalize (VWProvider.poll (VWProvider.statusAt page) 0 VWProvider.maxAttempts).
  intros polled. keeps; apply Keeps_mails_setLoggedIn.
Qed.

Lemma Keeps_mails_vwNavigate ms portal :
  Keeps (fun w => mails w = ms) (VWProvider.navigateToDownloads portal).
Proof.
  unfold VWProvider.navigateToDownloads. keeps;
    first [apply Keeps_mails_setLoggedIn | apply Keeps_mails_vwLogin].
Qed.

Lemma Keeps_mails_vwDownloadFile ms download transfer :
  Keeps (fun w => mails w = ms)
        (VWProvider.downloadFile decodeURIComponent baseDir download transfer).
Proof.
  intros w H. destruct (vwDownloadFile_delivers download transfer w) as (w' & E & Hm).
  rewrite E. simpl. congruence.
Qed.

Lemma Keeps_mails_vwDownloadAll ms portal updates : ∀ acc,
  Keeps (fun w => mails w = ms)
        (VWProvider.downloadAll decodeURIComponent baseDir portal updates acc).
Proof.
  induction updates as [|update rest IH]; intros [successCount failCount]; simpl.
  - keeps.
  - apply Keeps_bind; [|intros success; apply IH].
    keeps. apply Keeps_mails_vwDownloadFile.
Qed.

(** X7.  The VW provider never hands anything to the e-mail service:
    neither its login, nor its navigation with the second login, nor a
    download, nor a whole check cycle, whatever the portal does and
    however many new versions were downloaded.  (The BMW cycle sends a
    mail for its new versions and for a failed login.) *)
Theorem vw_cycle_sends_no_mail :
  (∀ page w, mails (VWProvider.login page w).2 = mails w) ∧
  (∀ portal w, mails (VWProvider.navigateToDownloads portal w).2 = mails w) ∧
  (∀ download transfer w,
      mails (VWProvider.downloadFile decodeURIComponent baseDir download transfer w).2
      = mails w) ∧
  (∀ downloadFilter portal w,
      mails (VWProvider.checkForUpdates decodeURIComponent baseDir downloadFilter portal w).2
      = mails w).
Proof.
  split; [intros page w; now apply (Keeps_mails_vwLogin (mails w))|].
  split; [intros portal w; now apply (Keeps_mails_vwNavigate (mails w))|].
  split; [intros download transfer w; now apply (Keeps_mails_vwDownloadFile (mails w))|].
  intros downloadFilter portal w.
  enough (Hk : Keeps (fun w' => mails w' = mails w)
                 (VWProvider.checkForUpdates decodeURIComponent baseDir downloadFilter
                    portal)) by exact (Hk w eq_refl).
  unfold VWProvider.checkForUpdates.
  apply Keeps_bind; [keeps|intros loggedIn].
  apply Keeps_bind; [destruct (_ || _); [apply Keeps_mails_vwLogin|keeps]|intros proceed].
  destruct (negb proceed); [keeps|].
  apply Keeps_bind; [apply Keeps_mails_vwNavigate|intros navigationSuccess].
  destruct (negb navigationSuccess); [keeps|].
  apply Keeps_bind; [keeps|intros md].
  apply Keeps_bind; [apply Keeps_mails_vwDownloadAll|intros counts].
  apply Keeps_bind; [apply Keeps_mails_updateLastCheck|intros _]. keeps.
Qed.

End Mails.
(** ** What a check cycle downloads and reports *)

(** ** Calls on the responses *)

Section Calls.

Lemma andThen_returning {A B} (m : M A) (f : A → Call B) w :
  andThen (returning m) f w =
  match m w with
  | (Ok a, w') => f a w'
  | (Throw e, w') => (Some (Throw e), w')
  end.
Proof. unfold andThen, returning. destruct (m w) as [[a|e] w']; reflexivity. Qed.

Lemma returning_bind {A B} (m : M A) (k : A → M B) w :
  andThen (returning m) (fun a => returning (k a)) w = returning (bind m k) w.
Proof.
  rewrite andThen_returning. unfold returning, bind.
  destruct (m w) as [[a|e] w']; reflexivity.
Qed.

Lemma andThen_ext {A B} (c : Call A) (f g : A → Call B) w :
  (∀ a w', f a w' = g a w') → andThen c f w = andThen c g w.
Proof.
  intros H. unfold andThen. destruct (c w) as [[[a|e]|] w']; [apply H|reflexivity..].
Qed.

Lemma returning_unbind {A B} (m : M A) (k : A → M B) w :
  returning (bind m k) w = andThen (returning m) (fun a => returning (k a)) w.
Proof. symmetry. apply returning_bind. Qed.

Lemma andThen_returning_bind {A B C} (m : M A) (f : A → M B) (k : B → Call C) w :
  andThen (returning (bind m f)) k w
  = andThen (returning m) (fun a => andThen (returning (f a)) k) w.
Proof.
  rewrite !andThen_returning. unfold bind.
  destruct (m w) as [[a|e] w']; [|reflexivity]. now rewrite andThen_returning.
Qed.

Lemma andThen_cong {A B} (c c' : Call A) (f : A → Call B) w :
  c w = c' w → andThen c f w = andThen c' f w.
Proof. intros H. unfold andThen. now rewrite H. Qed.

Lemma andThen_attempt_returning {B} (m : M bool) (f : bool → Call B) w :
  andThen (attempt (returning m)) f w
  = andThen (returning (tryCatch m (fun _ => ret false))) f w.
Proof.
  unfold andThen, attempt, returning, tryCatch, ret.
  destruct (m w) as [[b|e] w']; reflexivity.
Qed.

Lemma anyBreaks_never breaks updates : (∀ u, breaks u = None) → anyBreaks breaks updates = false.
Proof.
  intros H. induction updates as [|u rest IH]; [reflexivity|].
  cbn [anyBreaks existsb]. rewrite H. exact IH.
Qed.

Lemma afterBreak_mails self download name partial w :
  mails (afterBreak self download name partial w) = mails w.
Proof. unfold afterBreak. simpl. apply afterCleanup_mails. Qed.

End Calls.

Section BmwCheck.
Import BaseProvider.
Variable decodeURIComponent : string -> option string.
Variable baseDir : string.
Variable cfg : BMWProvider.Filters.
Variable portal : BMWProvider.Portal.
Variable breaks : string -> option N.

Lemma bmwDownloadAll_run updates : ∀ successCount failCount successful w,
  let delivered :=
    List.filter (fun u => delivers (BMWProvider.transfers portal (url (candidate u))))
                updates in
  ∃ w',
    BMWProvider.downloadAll decodeURIComponent baseDir portal updates
      (successCount, failCount, successful) w
    = (Ok ((successCount + length delivered)%nat,
           (failCount + (length updates - length delivered))%nat,
           app successful delivered), w') ∧
    mails w' = mails w.
Proof.
  induction updates as [|u rest IH]; intros s f l w; cbv zeta.
  - exists w. simpl. unfold ret. rewrite !Nat.add_0_r, app_nil_r. auto.
  - cbn [BMWProvider.downloadAll List.filter].
    unfold bind at 1. unfold tryCatch.
    destruct (downloadFile_delivers decodeURIComponent (BMWProvider.self baseDir) u
                (BMWProvider.transfers portal (url (candidate u))) w) as (w1 & E & Hm).
    rewrite E.
    pose proof (List.filter_length_le
                  (fun u => delivers (BMWProvider.transfers portal (url (candidate u))))
                  rest) as Hle.
    destruct (delivers (BMWProvider.transfers portal (url (candidate u)))).
    + destruct (IH (S s) f (app l [u]) w1) as (w' & E' & Hm'). cbv zeta in E'.
      exists w'. rewrite E'. split; [|congruence].
      rewrite <- app_assoc. cbn [length app].
      match goal with
      | |- (Ok (?a, ?b, _), _) = (Ok (?a', ?b', _), _) =>
          replace a with a' by lia; replace b with b' by lia
      end. reflexivity.
    + destruct (IH s (S f) l w1) as (w' & E' & Hm'). cbv zeta in E'.
      exists w'. rewrite E'. split; [|congruence].
      cbn [length].
      match goal with
      | |- (Ok (?a, ?b, _), _) = (Ok (?a', ?b', _), _) =>
          replace a with a' by lia; replace b with b' by lia
      end. reflexivity.
Qed.

(** What a check whose transfers all settle comes to. *)
Lemma bmwCheck_run (appType : string) (w : World) :
  let updates :=
    if BMWProvider.navigates portal appType
    then bmwUpdates cfg portal appType (metadata w) else [] in
  let delivered :=
    List.filter (fun u => delivers (BMWProvider.transfers portal (url (candidate u))))
                updates in
  ∃ w',
    BMWProvider.checkApplicationUpdates decodeURIComponent baseDir cfg portal appType w
    = (Ok (length delivered, (length updates - length delivered)%nat), w') ∧
    mails w' = app (mails w)
                   match delivered with
                   | [] => []
                   | _ => [NewVersions "bmw" delivered]
                   end.
Proof.
  cbv zeta. unfold BMWProvider.checkApplicationUpdates.
  destruct (BMWProvider.navigates portal appType); simpl.
  2: { exists w. unfold ret. now rewrite app_nil_r. }
  unfold bind at 1. unfold getMetadata. fold (bmwUpdates cfg portal appType (metadata w)).
  destruct (bmwUpdates cfg portal appType (metadata w)) as [|u updates] eqn:Hu.
  { exists w. unfold ret. simpl. now rewrite app_nil_r. }
  rewrite <- Hu. generalize (bmwUpdates cfg portal appType (metadata w)). clear Hu.
  intros all.
  destruct (bmwDownloadAll_run all 0 0 [] w) as (w1 & E & Hm). cbv zeta in E.
  unfold bind at 1. rewrite E. simpl.
  set (delivered := List.filter _ all) in *.
  unfold sendNewVersionNotification.
  destruct delivered as [|d ds].
  - exists w1. unfold bind, ret. simpl. rewrite app_nil_r. auto.
  - eexists. unfold bind, ignoreErrors, tryCatch, emailService, ret. simpl.
    split; [reflexivity|]. simpl. now rewrite Hm.
Qed.


Lemma bmwDownloadAllOn_settles updates : ∀ acc w,
  anyBreaks breaks updates = false →
  BMWProvider.downloadAllOn decodeURIComponent baseDir portal breaks updates acc w
  = returning (BMWProvider.downloadAll decodeURIComponent baseDir portal updates acc) w.
Proof.
  induction updates as [|u rest IH]; intros [[s f] l] w Hb; [reflexivity|].
  cbn [anyBreaks existsb] in Hb. apply orb_false_iff in Hb as [Hu Hrest].
  cbn [BMWProvider.downloadAllOn BMWProvider.downloadAll].
  unfold BMWProvider.responseOf.
  destruct (breaks (url (candidate u))); [discriminate|].
  unfold downloadFileOn. rewrite andThen_attempt_returning.
  rewrite <- returning_bind. apply andThen_ext. intros success w'. now apply IH.
Qed.

Lemma bmwDownloadAllOn_breaks updates : ∀ acc w,
  anyBreaks breaks updates = true →
  ∃ w', BMWProvider.downloadAllOn decodeURIComponent baseDir portal breaks updates acc w
        = (None, w') ∧ mails w' = mails w.
Proof.
  induction updates as [|u rest IH]; intros [[s f] l] w Hb; [discriminate|].
  cbn [anyBreaks existsb] in Hb.
  cbn [BMWProvider.downloadAllOn]. unfold BMWProvider.responseOf.
  destruct (breaks (url (candidate u))) as [partial|].
  - exists (afterBreak (BMWProvider.self baseDir) u
              (resolveFileName decodeURIComponent u) partial w).
    unfold andThen, attempt, downloadFileOn. rewrite transferOn_break.
    split; [reflexivity|apply afterBreak_mails].
  - simpl in Hb. unfold downloadFileOn. rewrite andThen_attempt_returning, andThen_returning.
    unfold tryCatch.
    destruct (downloadFile_delivers decodeURIComponent (BMWProvider.self baseDir) u
                (BMWProvider.transfers portal (url (candidate u))) w) as (w1 & E & Hm).
    rewrite E.
    match goal with
    | |- ∃ w', BMWProvider.downloadAllOn _ _ _ _ _ ?acc _ = _ ∧ _ =>
        destruct (IH acc w1 Hb) as (w' & E' & Hm')
    end.
    exists w'. split; [exact E'|congruence].
Qed.

Lemma bmwCheckOn_settles (appType : string) (w : World) :
  anyBreaks breaks (if BMWProvider.navigates portal appType
                    then bmwUpdates cfg portal appType (metadata w) else []) = false →
  BMWProvider.checkApplicationUpdatesOn decodeURIComponent baseDir cfg portal breaks
    appType w
  = returning (BMWProvider.checkApplicationUpdates decodeURIComponent baseDir cfg
                 portal appType) w.
Proof.
  unfold BMWProvider.checkApplicationUpdatesOn, BMWProvider.checkApplicationUpdates.
  destruct (BMWProvider.navigates portal appType); simpl; [|reflexivity].
  intros Hb. rewrite <- returning_bind, !andThen_returning. unfold getMetadata.
  fold (bmwUpdates cfg portal appType (metadata w)) in *.
  destruct (bmwUpdates cfg portal appType (metadata w)) as [|u updates]; [reflexivity|].
  unfold andThen. rewrite (bmwDownloadAllOn_settles _ _ _ Hb).
  unfold returning, bind.
  destruct (BMWProvider.downloadAll _ _ _ _ _ w) as [[[[sc fc] l]|e] w1]; reflexivity.
Qed.

(** X8.  A BMW application check on the responses as they come.  When
    the navigation fails it reports no success and no failure.
    Otherwise it attempts every categorised download that
    [isNewVersion] accepts, in order.  When all of these transfers
    settle, the check returns and does not throw: the success count is
    the number of those whose transfer delivered a non-empty file and
    the failure count is the number of the others; one mail goes out
    when at least one download succeeded, listing exactly the downloads
    that succeeded, and none goes out otherwise.  When the response
    stream of one of them fails midway, the check never returns: no
    count is reported and no mail goes out, not even for the downloads
    that succeeded before. *)
Theorem bmw_application_check (appType : string) (w : World) :
  let updates :=
    if BMWProvider.navigates portal appType
    then bmwUpdates cfg portal appType (metadata w) else [] in
  let delivered :=
    List.filter (fun u => delivers (BMWProvider.transfers portal (url (candidate u))))
                updates in
  let check :=
    BMWProvider.checkApplicationUpdatesOn decodeURIComponent baseDir cfg portal breaks
      appType in
  (anyBreaks breaks updates = false →
   check w = returning (BMWProvider.checkApplicationUpdates decodeURIComponent baseDir cfg
                          portal appType) w ∧
   ∃ w',
     check w = (Some (Ok (length delivered, (length updates - length delivered)%nat)), w') ∧
     mails w' = app (mails w)
                    match delivered with
                    | [] => []
                    | _ => [NewVersions "bmw" delivered]
                    end) ∧
  (anyBreaks breaks updates = true →
   ∃ w', check w = (None, w') ∧ mails w' = mails w).
Proof.
  cbv zeta. split.
  - intros Hb. rewrite (bmwCheckOn_settles _ _ Hb). split; [reflexivity|].
    destruct (bmwCheck_run appType w) as (w' & E & Hm). cbv zeta in E, Hm.
    exists w'. unfold returning. rewrite E. split; [reflexivity|exact Hm].
  - unfold BMWProvider.checkApplicationUpdatesOn.
    destruct (BMWProvider.navigates portal appType); simpl; [|discriminate].
    intros Hb. rewrite andThen_returning. unfold getMetadata.
    fold (bmwUpdates cfg portal appType (metadata w)) in *.
    destruct (bmwUpdates cfg portal appType (metadata w)) as [|u updates]; [discriminate|].
    destruct (bmwDownloadAllOn_breaks (u :: updates) (0, 0, [])%nat w Hb) as (w' & E & Hm).
    exists w'. unfold andThen. rewrite E. split; [reflexivity|exact Hm].
Qed.

End BmwCheck.
(** ** Skipped cycles and the VW login *)

Section Skipped.
Import BaseProvider.
Variable decodeURIComponent : string -> option string.
Variable baseDir : string.

Lemma sameStore_refl w : sameStore w w.
Proof. repeat split. Qed.

Lemma Keeps_sameStore_setLoggedIn w0 b : Keeps (sameStore w0) (setLoggedIn b).
Proof. intros w H. exact H. Qed.

Lemma Keeps_sameStore_vwLogin w0 page : Keeps (sameStore w0) (VWProvider.login page).
Proof.
  unfold VWProvider.login.
  generalize (VWProvider.poll (VWProvider.statusAt page) 0 VWProvider.maxAttempts).
  intros polled. keeps; apply Keeps_sameStore_setLoggedIn.
Qed.

Lemma Keeps_sameStore_vwNavigate w0 portal :
  Keeps (sameStore w0) (VWProvider.navigateToDownloads portal).
Proof.
  unfold VWProvider.navigateToDownloads. keeps;
    first [apply Keeps_sameStore_setLoggedIn | apply Keeps_sameStore_vwLogin].
Qed.

(** X9.  A cycle that is skipped leaves the store alone.  When the BMW
    cycle returns without having run (its [false]), the session was
    closed and the login failed: the world is the one before, with one
    [LoginFailure] mail more, so that neither [lastUpdate] nor any file
    or record has changed.  When the VW cycle returns without counts
    (its bare [return], after a failed login or a failed navigation),
    the directory, the vendor state, both metadata files and the mails
    are what they were and the clock was not read. *)
Theorem skipped_cycle_leaves_store :
  (∀ cfg portal w w',
      BMWProvider.checkForUpdates decodeURIComponent baseDir cfg portal w = (Ok false, w') →
      isLoggedIn w = false ∧
      ∃ reason,
        bmwLoginFailure (BMWProvider.loginPage portal) = Some reason ∧
        w' = withMails (mails w ++ [LoginFailure "bmw" reason]) w) ∧
  (∀ downloadFilter portal w w',
      VWProvider.checkForUpdates decodeURIComponent baseDir downloadFilter portal w
      = (Ok None, w') →
      sameStore w w') ∧
  (∀ cfg transfers,
      BMWProvider.checkForUpdates decodeURIComponent baseDir cfg
        {| BMWProvider.loginPage := Throw "page.goto: Timeout 30000ms exceeded.";
           BMWProvider.navigates := fun _ => true;
           BMWProvider.found := fun _ => Ok [];
           BMWProvider.transfers := transfers |} Examples.world
      = (Ok false,
         withMails [LoginFailure "bmw" "page.goto: Timeout 30000ms exceeded."]
           Examples.world)).
Proof.
  split; [|split].
  - intros cfg portal w w' H.
    destruct (bmwCheckForUpdates_ends_with_check decodeURIComponent baseDir cfg portal w)
      as (b & w'' & E & Hiff & _).
    rewrite E in H. injection H as -> ->.
    destruct (isLoggedIn w) eqn:Hl; [destruct Hiff as [_ Hiff]; discriminate Hiff; auto|].
    split; [reflexivity|].
    destruct (bmwLoginFailure (BMWProvider.loginPage portal)) as [reason|] eqn:Hf;
      [|destruct Hiff as [_ Hiff]; discriminate Hiff; auto].
    exists reason. split; [reflexivity|].
    revert E. unfold BMWProvider.checkForUpdates.
    unfold bind at 1. unfold getLoggedIn. rewrite Hl.
    unfold bind at 1. rewrite (bmw_login_failure_notified baseDir _ w reason Hl Hf).
    unfold ret. now intros [= <-].
  - intros downloadFilter portal w w' H.
    revert H. unfold VWProvider.checkForUpdates.
    unfold bind at 1. unfold getLoggedIn.
    intros H. apply bind_Ok_inv in H as (proceed & w1 & E1 & H).
    assert (H1 : sameStore w w1).
    { destruct (_ || _) in E1.
      - pose proof (Keeps_sameStore_vwLogin w (VWProvider.loginPage portal) w
                      (sameStore_refl w)) as Hk.
        now rewrite E1 in Hk.
      - injection E1 as _ <-. apply sameStore_refl. }
    destruct proceed; simpl in H; [|now injection H as <-].
    apply bind_Ok_inv in H as (nav & w2 & E2 & H).
    assert (H2 : sameStore w w2).
    { pose proof (Keeps_sameStore_vwNavigate w portal w1 H1) as Hk.
      now rewrite E2 in Hk. }
    destruct nav; simpl in H; [|now injection H as <-].
    apply bind_Ok_inv in H as (md & w3 & _ & H).
    apply bind_Ok_inv in H as (counts & w4 & _ & H).
    apply bind_Ok_inv in H as (u & w5 & _ & H).
    discriminate H.
  - intros cfg transfers. reflexivity.
Qed.

End Skipped.

Section VwLogin.

Lemma poll_spec status :
  (∀ n, ∃ b, status n = Ok b) →
  ∀ remaining attempts,
    ∃ b n, VWProvider.poll status attempts remaining = Ok (b, n) ∧
           (b = true ↔ ∃ i, (attempts < i <= attempts + remaining)%nat ∧ status i = Ok true).
Proof.
  intros Hs. induction remaining as [|remaining IH]; intros attempts; simpl.
  - exists false, attempts. split; [reflexivity|]. split; [discriminate|].
    intros (i & Hi & _). lia.
  - destruct (Hs (S attempts)) as [b Hb]. rewrite Hb. destruct b.
    + exists true, (S attempts). split; [reflexivity|]. split; [|reflexivity].
      intros _. exists (S attempts). split; [lia|exact Hb].
    + destruct (IH (S attempts)) as (b & n & E & Hiff).
      exists b, n. split; [exact E|]. rewrite Hiff. split.
      * intros (i & Hi & Hok). exists i. split; [lia|exact Hok].
      * intros (i & Hi & Hok). exists i. split; [|exact Hok].
        destruct (decide (i = S attempts)) as [->|]; [congruence|lia].
Qed.

(** X10.  The VW login, when the session is closed, the form can be
    submitted and the status check answers: it polls the status at most
    ten times and stops at the first attempt that sees the session; it
    returns [true] and opens the session exactly when an attempt saw it
    or, failing that, when the address of the page contains [erwin] or
    [volkswagen]; otherwise it returns [false] and changes nothing. *)
Theorem vw_login_outcome (page : VWProvider.LoginPage) (w : World) :
  isLoggedIn w = false →
  VWProvider.submitted page = Ok tt →
  (∀ n, ∃ b, VWProvider.statusAt page n = Ok b) →
  (vwAccepted page → VWProvider.login page w = (Ok true, withLoggedIn true w)) ∧
  (¬ vwAccepted page → VWProvider.login page w = (Ok false, w)).
Proof.
  intros Hl Hsub Hst.
  destruct (poll_spec (VWProvider.statusAt page) Hst VWProvider.maxAttempts 0)
    as (b & n & E & Hiff).
  unfold VWProvider.login. unfold_effects. rewrite Hl, Hsub, E. simpl.
  unfold vwAccepted. destruct b.
  - split; [reflexivity|]. intros Hn. exfalso. apply Hn. left.
    destruct Hiff as [Hiff _]. destruct (Hiff eq_refl) as (i & Hi & Hok).
    exists i. split; [simpl in *; lia|exact Hok].
  - assert (Hnone : ¬ ∃ i, (1 <= i <= VWProvider.maxAttempts)%nat ∧
                           VWProvider.statusAt page i = Ok true).
    { intros (i & Hi & Hok). destruct Hiff as [_ Hiff].
      discriminate Hiff. exists i. split; [simpl in *; lia|exact Hok]. }
    destruct (Js.includes (VWProvider.finalUrl page) "erwin") eqn:H1; simpl.
    + split; [reflexivity|]. intros Hn. exfalso. apply Hn. auto.
    + destruct (Js.includes (VWProvider.finalUrl page) "volkswagen") eqn:H2; simpl.
      * split; [reflexivity|]. intros Hn. exfalso. apply Hn. auto.
      * split; [|reflexivity]. intros [H|[H|H]]; [tauto|discriminate|discriminate].
Qed.

End VwLogin.

Lemma vw_login_outcome_witness :
  let page := {| VWProvider.submitted := Ok tt;
                 VWProvider.statusAt := fun n => Ok (n =? 3)%nat;
                 VWProvider.finalUrl := "about:blank" |} in
  isLoggedIn Examples.world = false ∧
  VWProvider.submitted page = Ok tt ∧
  (∀ n, ∃ b, VWProvider.statusAt page n = Ok b) ∧
  vwAccepted page ∧
  VWProvider.login page Examples.world = (Ok true, withLoggedIn true Examples.world).
Proof.
  cbv zeta.
  set (page := {| VWProvider.submitted := Ok tt;
                  VWProvider.statusAt := fun n => Ok (n =? 3)%nat;
                  VWProvider.finalUrl := "about:blank" |}).
  assert (Hst : ∀ n, ∃ b, VWProvider.statusAt page n = Ok b) by (intros n; eexists; reflexivity).
  assert (Hacc : vwAccepted page).
  { left. exists 3%nat. split; [unfold VWProvider.maxAttempts; lia|reflexivity]. }
  split; [reflexivity|]. split; [reflexivity|]. split; [exact Hst|]. split; [exact Hacc|].
  exact (proj1 (vw_login_outcome page Examples.world eq_refl eq_refl Hst) Hacc).
Defined.
(** ** No orphan over a whole cycle *)

Section CyclesOnResponses.
Import BaseProvider.
Variable decodeURIComponent : string -> option string.
Variable baseDir : string.
Variable breaks : string -> option N.

Lemma vwDownloadAllOn_settles portal updates : ∀ acc w,
  anyBreaks breaks updates = false →
  VWProvider.downloadAllOn decodeURIComponent baseDir portal breaks updates acc w
  = returning (VWProvider.downloadAll decodeURIComponent baseDir portal updates acc) w.
Proof.
  induction updates as [|u rest IH]; intros [s f] w Hb; [reflexivity|].
  cbn [anyBreaks existsb] in Hb. apply orb_false_iff in Hb as [Hu Hrest].
  cbn [VWProvider.downloadAllOn VWProvider.downloadAll].
  unfold VWProvider.responseOf.
  destruct (breaks (url (candidate u))); [discriminate|].
  unfold VWProvider.downloadFileOn. rewrite andThen_attempt_returning.
  rewrite <- returning_bind. apply andThen_ext. intros success w'. now apply IH.
Qed.

Lemma vwDownloadAllOn_breaks portal updates : ∀ acc w,
  anyBreaks breaks updates = true →
  ∃ w', VWProvider.downloadAllOn decodeURIComponent baseDir portal breaks updates acc w
        = (None, w').
Proof.
  induction updates as [|u rest IH]; intros [s f] w Hb; [discriminate|].
  cbn [anyBreaks existsb] in Hb.
  cbn [VWProvider.downloadAllOn]. unfold VWProvider.responseOf.
  destruct (breaks (url (candidate u))) as [partial|].
  - eexists. unfold andThen, attempt, VWProvider.downloadFileOn.
    rewrite transferOn_break. reflexivity.
  - simpl in Hb. unfold VWProvider.downloadFileOn.
    rewrite andThen_attempt_returning, andThen_returning. unfold tryCatch.
    destruct (vwDownloadFile_delivers decodeURIComponent baseDir u
                (VWProvider.transfers portal (url (candidate u))) w) as (w1 & E & Hm).
    rewrite E. apply IH. exact Hb.
Qed.

(** A cycle none of whose responses fails comes to the cycle as the
    portal settles it. *)
Lemma bmwCycleOn_settles cfg portal w :
  (∀ u, breaks u = None) →
  BMWProvider.checkForUpdatesOn decodeURIComponent baseDir cfg portal breaks w
  = returning (BMWProvider.checkForUpdates decodeURIComponent baseDir cfg portal) w.
Proof.
  intros Hn. unfold BMWProvider.checkForUpdatesOn, BMWProvider.checkForUpdates.
  rewrite andThen_returning_bind, returning_unbind.
  apply andThen_ext. intros loggedIn w0.
  rewrite returning_unbind. apply andThen_ext. intros [|] w1; [|reflexivity].
  rewrite (andThen_cong _ _ _ _
             (bmwCheckOn_settles decodeURIComponent baseDir cfg portal breaks "ista-p" w1
                (anyBreaks_never _ _ Hn))).
  rewrite returning_unbind. apply andThen_ext. intros r1 w2.
  rewrite (andThen_cong _ _ _ _
             (bmwCheckOn_settles decodeURIComponent baseDir cfg portal breaks "ista-next" w2
                (anyBreaks_never _ _ Hn))).
  rewrite returning_unbind. apply andThen_ext. intros r2 w3. reflexivity.
Qed.

Lemma vwCycleOn_settles downloadFilter portal w :
  (∀ u, breaks u = None) →
  VWProvider.checkForUpdatesOn decodeURIComponent baseDir downloadFilter portal breaks w
  = returning (VWProvider.checkForUpdates decodeURIComponent baseDir downloadFilter
                 portal) w.
Proof.
  intros Hn. unfold VWProvider.checkForUpdatesOn, VWProvider.checkForUpdates.
  rewrite andThen_returning_bind, returning_unbind.
  apply andThen_ext. intros loggedIn w0.
  rewrite returning_unbind. apply andThen_ext. intros proceed w1.
  destruct (negb proceed); [reflexivity|].
  rewrite returning_unbind. apply andThen_ext. intros navigationSuccess w2.
  destruct (negb navigationSuccess); [reflexivity|].
  rewrite returning_unbind. apply andThen_ext. intros md w3.
  rewrite returning_unbind.
  rewrite (andThen_cong _ _ _ _
             (vwDownloadAllOn_settles portal _ (0, 0)%nat w3 (anyBreaks_never _ _ Hn))).
  apply andThen_ext. intros counts w4. reflexivity.
Qed.

End CyclesOnResponses.

Section TrackedCycles.
Import BaseProvider.
Variable decodeURIComponent : string -> option string.
Variable baseDir : string.

Lemma Keeps_tracked_setLoggedIn b : Keeps wellTracked (setLoggedIn b).
Proof. intros w H. exact H. Qed.

Lemma Keeps_tracked_emailService n : Keeps wellTracked (emailService n).
Proof. intros w H. exact H. Qed.

Lemma Keeps_tracked_updateLastCheck self : Keeps wellTracked (updateLastCheck self).
Proof. intros w H. rewrite updateLastCheck_run. exact H. Qed.

Lemma Keeps_tracked_downloadFile self download transfer :
  Keeps wellTracked (downloadFile decodeURIComponent self download transfer).
Proof.
  intros w [Ht Hnil]. rewrite downloadFile_run.
  apply transferTo_keeps_tracked; auto using resolveFileName_nonempty.
Qed.

Lemma Keeps_tracked_vwDownloadFile download transfer :
  Keeps wellTracked (VWProvider.downloadFile decodeURIComponent baseDir download transfer).
Proof.
  intros w [Ht Hnil]. rewrite vwDownloadFile_run.
  apply transferTo_keeps_tracked; auto using vwResolveFileName_nonempty.
Qed.

Lemma Keeps_tracked_bmwLogin page : Keeps wellTracked (BMWProvider.login baseDir page).
Proof.
  unfold BMWProvider.login, sendLoginFailureNotification, ignoreErrors.
  keeps; first [apply Keeps_tracked_setLoggedIn | apply Keeps_tracked_emailService].
Qed.

Lemma Keeps_tracked_vwLogin page : Keeps wellTracked (VWProvider.login page).
Proof.
  unfold VWProvider.login.
  generalize (VWProvider.poll (VWProvider.statusAt page) 0 VWProvider.maxAttempts).
  intros polled. keeps; apply Keeps_tracked_setLoggedIn.
Qed.

Lemma Keeps_tracked_vwNavigate portal :
  Keeps wellTracked (VWProvider.navigateToDownloads portal).
Proof.
  unfold VWProvider.navigateToDownloads. keeps;
    first [apply Keeps_tracked_setLoggedIn | apply Keeps_tracked_vwLogin].
Qed.

Lemma Keeps_tracked_bmwDownloadAll portal updates : ∀ acc,
  Keeps wellTracked (BMWProvider.downloadAll decodeURIComponent baseDir portal updates acc).
Proof.
  induction updates as [|update rest IH]; intros [[successCount failCount] successful]; simpl.
  - keeps.
  - apply Keeps_bind; [|intros success; apply IH].
    keeps. apply Keeps_tracked_downloadFile.
Qed.

Lemma Keeps_tracked_vwDownloadAll portal updates : ∀ acc,
  Keeps wellTracked (VWProvider.downloadAll decodeURIComponent baseDir portal updates acc).
Proof.
  induction updates as [|update rest IH]; intros [successCount failCount]; simpl.
  - keeps.
  - apply Keeps_bind; [|intros success; apply IH].
    keeps. apply Keeps_tracked_vwDownloadFile.
Qed.

Lemma Keeps_tracked_bmwCheckApplicationUpdates cfg portal appType :
  Keeps wellTracked
        (BMWProvider.checkApplicationUpdates decodeURIComponent baseDir cfg portal appType).
Proof.
  unfold BMWProvider.checkApplicationUpdates.
  destruct (negb _); [keeps|].
  apply Keeps_bind; [keeps|intros md].
  destruct (_.*2) as [|u updates]; [keeps|].
  apply Keeps_bind; [apply Keeps_tracked_bmwDownloadAll|intros [[s f] l]].
  apply Keeps_bind; [|intros _; keeps].
  unfold sendNewVersionNotification, ignoreErrors.
  keeps; apply Keeps_tracked_emailService.
Qed.

(** What the cycles keep when every transfer settles. *)
Lemma cycles_keep_tracked (w : World) :
  tracked w → files w !! "" = None →
  (∀ cfg portal,
      wellTracked (BMWProvider.checkForUpdates decodeURIComponent baseDir cfg portal w).2) ∧
  (∀ downloadFilter portal,
      wellTracked
        (VWProvider.checkForUpdates decodeURIComponent baseDir downloadFilter portal w).2).
Proof.
  intros Ht Hnil. split.
  - intros cfg portal.
    enough (Hk : Keeps wellTracked
                   (BMWProvider.checkForUpdates decodeURIComponent baseDir cfg portal))
      by (apply Hk; now split).
    unfold BMWProvider.checkForUpdates.
    apply Keeps_bind; [keeps|intros loggedIn].
    apply Keeps_bind; [destruct loggedIn; [keeps|apply Keeps_tracked_bmwLogin]|].
    intros [|]; [|keeps].
    apply Keeps_bind; [apply Keeps_tracked_bmwCheckApplicationUpdates|intros _].
    apply Keeps_bind; [apply Keeps_tracked_bmwCheckApplicationUpdates|intros _].
    apply Keeps_bind; [apply Keeps_tracked_updateLastCheck|intros _]. keeps.
  - intros downloadFilter portal.
    enough (Hk : Keeps wellTracked
                   (VWProvider.checkForUpdates decodeURIComponent baseDir downloadFilter
                      portal))
      by (apply Hk; now split).
    unfold VWProvider.checkForUpdates.
    apply Keeps_bind; [keeps|intros loggedIn].
    apply Keeps_bind; [destruct (_ || _); [apply Keeps_tracked_vwLogin|keeps]|intros proceed].
    destruct (negb proceed); [keeps|].
    apply Keeps_bind; [apply Keeps_tracked_vwNavigate|intros navigationSuccess].
    destruct (negb navigationSuccess); [keeps|].
    apply Keeps_bind; [keeps|intros md].
    apply Keeps_bind; [apply Keeps_tracked_vwDownloadAll|intros counts].
    apply Keeps_bind; [apply Keeps_tracked_updateLastCheck|intros _]. keeps.
Qed.

(** X11.  A check cycle whose transfers all settle leaves no orphan
    behind.  When every downloaded file of the vendor directory is the
    file of a record (and no entry has the empty name) and no response
    stream fails midway, a whole cycle of BMW and a whole cycle of VW
    return, and the same holds afterwards, whatever the portal answers
    and whichever transfers fail: login, cleanup, downloads,
    notification and the closing [updateLastCheck] included. *)
Theorem cycle_keeps_downloads_tracked (breaks : string → option N) (w : World) :
  tracked w → files w !! "" = None → (∀ u, breaks u = None) →
  (∀ cfg portal,
      let run := BMWProvider.checkForUpdatesOn decodeURIComponent baseDir cfg portal
                   breaks w in
      (∃ b, run.1 = Some (Ok b)) ∧ wellTracked run.2) ∧
  (∀ downloadFilter portal,
      let run := VWProvider.checkForUpdatesOn decodeURIComponent baseDir downloadFilter
                   portal breaks w in
      (∃ r, run.1 = Some (Ok r)) ∧ wellTracked run.2).
Proof.
  intros Ht Hnil Hn. destruct (cycles_keep_tracked w Ht Hnil) as [Hbmw Hvw]. split.
  - intros cfg portal. cbv zeta. rewrite (bmwCycleOn_settles _ _ _ _ _ _ Hn).
    unfold returning. simpl. split; [|apply Hbmw].
    destruct (bmwCheckForUpdates_ends_with_check decodeURIComponent baseDir cfg portal w)
      as (b & w' & E & _).
    exists b. now rewrite E.
  - intros downloadFilter portal. cbv zeta. rewrite (vwCycleOn_settles _ _ _ _ _ _ Hn).
    unfold returning. simpl. split; [|apply Hvw].
    destruct (vwCheckForUpdates_ends_with_check decodeURIComponent baseDir downloadFilter
                portal w) as (r & w' & E & _).
    exists r. now rewrite E.
Qed.

End TrackedCycles.

Lemma cycle_keeps_downloads_tracked_witness :
  let portal := {| BMWProvider.loginPage := Ok "https://aos.bmwgroup.com/startpage-workshop";
                   BMWProvider.navigates := fun _ => true;
                   BMWProvider.found := fun _ =>
                     Ok [candidate (Examples.tool "1.1.0")];
                   BMWProvider.transfers := fun _ => Finished 2048 |} in
  let cfg := {| BMWProvider.istaPFilter := ["ISTA"];
                BMWProvider.istaNextFilter := ["ISTA"] |} in
  let run := BMWProvider.checkForUpdatesOn BaseProvider.decodePlain
               "/mnt/storagebox/providers" cfg portal (fun _ => None) Examples.world in
  tracked Examples.world ∧ files Examples.world !! "" = None ∧
  run.1 = Some (Ok true) ∧ wellTracked run.2.
Proof.
  cbv zeta. destruct tracked_example as [Ht Hnil].
  split; [exact Ht|]. split; [exact Hnil|]. split; [vm_compute; reflexivity|].
  exact (proj2 (proj1 (cycle_keeps_downloads_tracked BaseProvider.decodePlain
                         "/mnt/storagebox/providers" (fun _ => None) Examples.world
                         Ht Hnil (fun _ => eq_refl)) _ _)).
Defined.

(** ** Maintenance of the aggregate file *)

Section AggregateCleanup.
Import MetadataManager.
Variable daysBefore : Z -> Time -> Time.

Lemma cleanDownloads_fold cutoff (base : gmap string ArtifactRecord) (n : nat)
    (m : gmap string ArtifactRecord) :
  let r := map_fold (fun category download '(downloads, cleanedCount) =>
                       if expired cutoff download
                       then (delete category downloads, S cleanedCount)
                       else (downloads, cleanedCount))
                    (base, n) m in
  (∀ k, r.1 !! k = match m !! k with
                   | Some x => if expired cutoff x then None else base !! k
                   | None => base !! k
                   end) ∧
  r.2 = (n + size (filter (fun kv => expired cutoff kv.2 = true) m))%nat.
Proof.
  cbv zeta. revert m.
  apply (map_fold_weak_ind (fun (r : gmap string ArtifactRecord * nat) m =>
    (∀ k, r.1 !! k = match m !! k with
                     | Some x => if expired cutoff x then None else base !! k
                     | None => base !! k
                     end) ∧
    r.2 = (n + size (filter (fun kv => expired cutoff kv.2 = true) m))%nat)).
  - split; [intros k; now rewrite lookup_empty|].
    rewrite map_filter_empty, map_size_empty. simpl. lia.
  - intros i x m [dl c] Hi [Hl Hc]. simpl in Hl, Hc.
    destruct (expired cutoff x) eqn:He; simpl.
    + split.
      * intros k. destruct (decide (k = i)) as [->|Hne].
        -- now rewrite lookup_delete_eq, lookup_insert_eq, He.
        -- rewrite lookup_delete_ne, lookup_insert_ne by congruence. apply Hl.
      * rewrite map_filter_insert_True by exact He.
        rewrite map_size_insert_None by (now rewrite map_lookup_filter_None; left).
        lia.
    + split.
      * intros k. destruct (decide (k = i)) as [->|Hne].
        -- rewrite lookup_insert_eq, He. specialize (Hl i). now rewrite Hi in Hl.
        -- rewrite lookup_insert_ne by congruence. apply Hl.
      * rewrite map_filter_insert_False by (simpl; congruence).
        now rewrite delete_id.
Qed.

Lemma cleanDownloads_run cutoff dl n :
  cleanDownloads cutoff dl n
  = (filter (fun kv => expired cutoff kv.2 = false) dl,
     (n + size (filter (fun kv => expired cutoff kv.2 = true) dl))%nat).
Proof.
  unfold cleanDownloads.
  destruct (cleanDownloads_fold cutoff dl n dl) as [Hl Hc]. cbv zeta in *.
  destruct (map_fold _ (dl, n) dl) as [dl' c]. simpl in *. f_equal; [|exact Hc].
  apply map_eq. intros k. rewrite Hl. apply option_eq. intros r.
  rewrite map_lookup_filter_Some. simpl.
  destruct (dl !! k) as [x|] eqn:Hk.
  - destruct (expired cutoff x) eqn:He.
    + split; [discriminate|]. intros [[= <-] H]. congruence.
    + split; [intros [= <-]; auto|tauto].
  - split; [discriminate|]. intros [H _]. discriminate.
Qed.

Lemma expiredRecords_insert cutoff (ps : gmap string ProviderEntry) i e :
  ps !! i = None →
  expiredRecords cutoff (<[i := e]> ps)
  = (expiredRecords cutoff ps + expiredOf cutoff e)%nat.
Proof.
  intros Hi. unfold expiredRecords.
  rewrite map_fold_insert_L; [reflexivity| |exact Hi].
  intros. lia.
Qed.

Lemma cleanProviders_run cutoff ps :
  cleanProviders cutoff ps = (pruned cutoff <$> ps, expiredRecords cutoff ps).
Proof.
  unfold cleanProviders.
  assert (H : ∀ base m : gmap string ProviderEntry,
    let r := map_fold (fun providerName providerData '(providers, cleanedCount) =>
                match entryDownloads providerData with
                | Some downloads =>
                    let '(downloads, cleanedCount) :=
                      cleanDownloads cutoff downloads cleanedCount in
                    (<[providerName :=
                         {| entryDownloads := Some downloads;
                            entryLastUpdate := entryLastUpdate providerData;
                            entryVersion := entryVersion providerData |}]> providers,
                     cleanedCount)
                | None => (providers, cleanedCount)
                end) (base, 0%nat) m in
    (∀ k, r.1 !! k = match m !! k with
                     | Some e => match entryDownloads e with
                                 | Some _ => Some (pruned cutoff e)
                                 | None => base !! k
                                 end
                     | None => base !! k
                     end) ∧
    r.2 = expiredRecords cutoff m).
  { intros base. cbv zeta.
    apply (map_fold_weak_ind (fun (r : gmap string ProviderEntry * nat) m =>
      (∀ k, r.1 !! k = match m !! k with
                       | Some e => match entryDownloads e with
                                   | Some _ => Some (pruned cutoff e)
                                   | None => base !! k
                                   end
                       | None => base !! k
                       end) ∧
      r.2 = expiredRecords cutoff m)).
    - split; [intros k; now rewrite lookup_empty|reflexivity].
    - intros i e m [ps' c] Hi [Hl Hc]. simpl in Hl, Hc.
      rewrite expiredRecords_insert by exact Hi. unfold expiredOf.
      destruct e as [[dl|] lu v]; simpl.
      + rewrite cleanDownloads_run. simpl. split; [|now rewrite Hc].
        intros k. destruct (decide (k = i)) as [->|Hne].
        * now rewrite !lookup_insert_eq.
        * rewrite !lookup_insert_ne by congruence. apply Hl.
      + rewrite map_filter_empty, map_size_empty. split; [|rewrite Hc; lia].
        intros k. destruct (decide (k = i)) as [->|Hne].
        * rewrite lookup_insert_eq. simpl. specialize (Hl i). now rewrite Hi in Hl.
        * rewrite lookup_insert_ne by congruence. apply Hl. }
  destruct (H ps ps) as [Hl Hc]. cbv zeta in *.
  destruct (map_fold _ (ps, 0%nat) ps) as [ps' c]. simpl in *. f_equal; [|exact Hc].
  apply map_eq. intros k. rewrite Hl, lookup_fmap.
  destruct (ps !! k) as [[[dl|] lu v]|]; reflexivity.
Qed.

Lemma expiredOf_zero cutoff e :
  expiredOf cutoff e = 0%nat ↔
  ∀ dl category r, entryDownloads e = Some dl → dl !! category = Some r →
                   (cutoff <= downloadedAt r)%Z.
Proof.
  unfold expiredOf. rewrite map_size_empty_iff, map_empty_filter.
  unfold map_Forall, expired. simpl. split.
  - intros H dl category r Hdl Hr. rewrite Hdl in H. simpl in H.
    specialize (H category r Hr). apply Z.ltb_ge.
    destruct (downloadedAt r <? cutoff)%Z; [now destruct H|reflexivity].
  - intros H category r Hr. destruct (entryDownloads e) as [dl|]; simpl in Hr.
    + specialize (H dl category r eq_refl Hr). apply Z.ltb_ge in H. congruence.
    + now rewrite lookup_empty in Hr.
Qed.

Lemma expiredRecords_zero cutoff (ps : gmap string ProviderEntry) :
  expiredRecords cutoff ps = 0%nat ↔
  ∀ name e, ps !! name = Some e → expiredOf cutoff e = 0%nat.
Proof.
  induction ps as [|i x m Hi IH] using map_ind.
  - split; [intros _ name e H; now rewrite lookup_empty in H|reflexivity].
  - rewrite expiredRecords_insert by exact Hi. split.
    + intros H name e He. apply Nat.eq_add_0 in H as [Hm Hx].
      apply lookup_insert_Some in He as [[<- <-]|[Hne He]]; [exact Hx|].
      now apply (proj1 IH Hm name e).
    + intros H. apply Nat.eq_add_0. split.
      * apply IH. intros name e He. apply (H name e).
        rewrite lookup_insert_ne; [exact He|]. intros <-. congruence.
      * apply (H i x). apply lookup_insert_eq.
Qed.

Lemma cleanupOldMetadata_run daysToKeep w :
  let g := aggregate w in
  let cutoff := daysBefore daysToKeep (clock w (ticks w)) in
  let n := expiredRecords cutoff (providers g) in
  cleanupOldMetadata daysBefore daysToKeep w
  = (Ok n,
     if (0 <? n)%nat
     then withGlobalFile
            (Json {| providers := pruned cutoff <$> providers g;
                     lastGlobalUpdate := lastGlobalUpdate g;
                     schemaVersion := schemaVersion g |})
            (withTicks (S (ticks w)) w)
     else withTicks (S (ticks w)) w).
Proof.
  cbv zeta. unfold cleanupOldMetadata, loadGlobalMetadata, saveGlobalMetadata, aggregate.
  unfold_effects.
  assert (E : (match readStored (globalFile w) with
               | Ok a => (Ok a, w)
               | Throw e => (Ok emptyGlobal, w)
               end)
              = (Ok match globalFile w with Json g => g | _ => emptyGlobal end, w))
    by (destruct (globalFile w); reflexivity).
  rewrite E. clear E. simpl.
  generalize (match globalFile w with Json g => g | _ => emptyGlobal end). intros g.
  rewrite cleanProviders_run.
  destruct (0 <? _)%nat eqn:Hn; [reflexivity|].
  apply Nat.ltb_ge in Hn. f_equal. f_equal. lia.
Qed.

(** X12.  [cleanupOldMetadata] on a store that can be written and
    whose aggregate file is absent, unparsable or of the shape this
    program writes (the states of [stored]), for whatever cutoff the
    calendar arithmetic of [Date] makes of the reading of the clock and
    [daysToKeep] (the function [daysBefore], a parameter here).  It
    returns the number of records of the aggregate file whose download
    stamp is before the cutoff.  When there is none it writes nothing,
    so a missing file stays missing.  Otherwise it rewrites the
    aggregate file with every entry keeping its [lastUpdate] and
    [version] and exactly its records that are not before the cutoff;
    [lastGlobalUpdate] is not renewed.  In either case it touches no
    downloaded file, no vendor file and no record a provider holds in
    memory. *)
Theorem cleanupOldMetadata_effect (daysToKeep : Z) (w : World) :
  let g := aggregate w in
  let cutoff := daysBefore daysToKeep (clock w (ticks w)) in
  let n := expiredRecords cutoff (providers g) in
  ∃ w',
    cleanupOldMetadata daysBefore daysToKeep w = (Ok n, w') ∧
    files w' = files w ∧ metadata w' = metadata w ∧
    vendorFile w' = vendorFile w ∧ mails w' = mails w ∧
    (n = 0%nat ↔
     ∀ name e dl category r,
       providers g !! name = Some e → entryDownloads e = Some dl →
       dl !! category = Some r → (cutoff <= downloadedAt r)%Z) ∧
    (n = 0%nat → globalFile w' = globalFile w) ∧
    (n ≠ 0%nat →
     ∃ g', globalFile w' = Json g' ∧
           lastGlobalUpdate g' = lastGlobalUpdate g ∧ schemaVersion g' = schemaVersion g ∧
           (∀ name, providers g' !! name = pruned cutoff <$> providers g !! name) ∧
           (∀ name e dl category r,
               providers g !! name = Some e → entryDownloads e = Some dl →
               (entryDownloads (pruned cutoff e) ≫= (.!! category)) = Some r ↔
               dl !! category = Some r ∧ (cutoff <= downloadedAt r)%Z)).
Proof.
  cbv zeta. eexists. split; [apply cleanupOldMetadata_run|].
  assert (Hzero : expiredRecords (daysBefore daysToKeep (clock w (ticks w)))
                    (providers (aggregate w)) = 0%nat ↔
                  ∀ name e dl category r,
                    providers (aggregate w) !! name = Some e → entryDownloads e = Some dl →
                    dl !! category = Some r →
                    (daysBefore daysToKeep (clock w (ticks w)) <= downloadedAt r)%Z).
  { rewrite expiredRecords_zero. split.
    - intros H name e dl category r He. apply expiredOf_zero. eauto.
    - intros H name e He. apply expiredOf_zero. eauto. }
  destruct (0 <? _)%nat eqn:Hn.
  - split; [reflexivity|]. split; [reflexivity|]. split; [reflexivity|].
    split; [reflexivity|]. split; [exact Hzero|]. split.
    + intros H0. rewrite H0 in Hn. discriminate.
    + intros _. eexists. split; [reflexivity|]. split; [reflexivity|].
      split; [reflexivity|]. split; [intros name; apply lookup_fmap|].
      intros name e dl category r He Hdl. unfold pruned. rewrite Hdl. simpl.
      rewrite map_lookup_filter_Some. simpl. unfold expired.
      rewrite Z.ltb_ge. reflexivity.
  - apply Nat.ltb_ge in Hn.
    split; [reflexivity|]. split; [reflexivity|]. split; [reflexivity|].
    split; [reflexivity|]. split; [exact Hzero|]. split; [reflexivity|]. lia.
Qed.

(** X13.  The cleanup of the aggregate file is undone by the next update
    of a provider.  A provider decides on new versions from its own
    state, which the cleanup does not touch: [isNewVersion] answers as
    before and the directory is as before.  And since every update of
    the provider writes its whole state into its entry, after the next
    [updateLastCheck] the status of the provider lists again all the
    downloads it holds, the ones the cleanup had removed included. *)
Theorem cleanup_undone_by_update (self : Provider) (daysToKeep : Z) (w : World) :
  let w1 := (cleanupOldMetadata daysBefore daysToKeep w).2 in
  let w2 := (BaseProvider.updateLastCheck self w1).2 in
  metadata w1 = metadata w ∧
  (∀ category v,
      BaseProvider.isNewVersion (metadata w1) category v
      = BaseProvider.isNewVersion (metadata w) category v) ∧
  files w1 = files w ∧
  ∃ e, getProviderStatus (providerName self) w2 = (Ok (Some e), w2) ∧
       entryDownloads e = downloads (metadata w).
Proof.
  cbv zeta. rewrite cleanupOldMetadata_run.
  set (w1 := (_, if (0 <? _)%nat then _ else _).2).
  assert (Hmd : metadata w1 = metadata w) by (subst w1; simpl; now destruct (0 <? _)%nat).
  assert (Hfs : files w1 = files w) by (subst w1; simpl; now destruct (0 <? _)%nat).
  split; [exact Hmd|]. split; [intros category v; now rewrite Hmd|]. split; [exact Hfs|].
  rewrite updateLastCheck_run. simpl.
  eexists. split.
  - unfold getProviderStatus, loadGlobalMetadata. unfold_effects. simpl.
    rewrite lookup_insert_eq. reflexivity.
  - simpl. now rewrite Hmd.
Qed.

End AggregateCleanup.

(** ** The filters of the constructors *)

Section Filters.

Lemma matchesFilter_nil d : BMWProvider.matchesFilter [] d = false.
Proof. reflexivity. Qed.

Lemma bmw_fold_blocked appType ds : ∀ acc,
  fold_left (BMWProvider.categorizeStep [] appType) ds acc = acc.
Proof. induction ds as [|d ds IH]; intros acc; simpl; [reflexivity|apply IH]. Qed.

Lemma vw_fold_blocked ds : ∀ acc,
  fold_left (VWProvider.categorizeStep []) ds acc = acc.
Proof. induction ds as [|d ds IH]; intros acc; simpl; [reflexivity|apply IH]. Qed.

(** X14.  A filter variable that is unset or empty gives the empty
    filter list, and a provider with an empty filter list categorises
    nothing, whatever the portal offers: the check of the application
    (BMW) or the cycle (VW) then finds no update to download. *)
Theorem unset_filter_blocks_everything :
  parseFilter None = [] ∧ parseFilter (Some "") = [] ∧
  (∀ other downloads,
      BMWProvider.categorizeDownloads
        {| BMWProvider.istaPFilter := parseFilter None;
           BMWProvider.istaNextFilter := other |} downloads "ista-p" = []) ∧
  (∀ other downloads,
      BMWProvider.categorizeDownloads
        {| BMWProvider.istaPFilter := other;
           BMWProvider.istaNextFilter := parseFilter None |} downloads "ista-next" = []) ∧
  (∀ downloads, VWProvider.categorizeDownloads (parseFilter None) downloads = []) ∧
  (∀ portal appType md,
      bmwUpdates {| BMWProvider.istaPFilter := parseFilter None;
                    BMWProvider.istaNextFilter := parseFilter None |} portal appType md
      = []) ∧
  (∀ portal md, vwUpdates (parseFilter None) portal md = []).
Proof.
  split; [reflexivity|]. split; [reflexivity|].
  assert (Hp : ∀ other downloads,
             BMWProvider.categorizeDownloads
               {| BMWProvider.istaPFilter := []; BMWProvider.istaNextFilter := other |}
               downloads "ista-p" = [])
    by (intros; apply bmw_fold_blocked).
  assert (Hn : ∀ other downloads appType,
             String.eqb appType "ista-p" = false →
             BMWProvider.categorizeDownloads
               {| BMWProvider.istaPFilter := other; BMWProvider.istaNextFilter := [] |}
               downloads appType = []).
  { intros other downloads appType H. unfold BMWProvider.categorizeDownloads.
    rewrite H. apply bmw_fold_blocked. }
  assert (Hv : ∀ downloads, VWProvider.categorizeDownloads [] downloads = [])
    by (intros; apply vw_fold_blocked).
  split; [exact Hp|]. split; [intros; now apply Hn|]. split; [exact Hv|].
  split.
  - intros portal appType md. unfold bmwUpdates, BMWProvider.findDownloads. simpl.
    destruct (BMWProvider.found portal appType); [|reflexivity].
    destruct (String.eqb appType "ista-p") eqn:E.
    + apply String.eqb_eq in E. subst. now rewrite Hp.
    + now rewrite Hn.
  - intros portal md. unfold vwUpdates, VWProvider.findDownloads. simpl.
    destruct (VWProvider.found portal); [|reflexivity]. now rewrite Hv.
Qed.

Lemma includes_nil s : Js.includes s "" = true.
Proof. destruct s; reflexivity. Qed.

Lemma split_trailing sep s :
  ∃ part parts, Js.split sep (s +:+ String sep "") = app (part :: parts) [""].
Proof.
  induction s as [|c s IH]; simpl.
  - rewrite Ascii.eqb_refl. now exists "", [].
  - destruct IH as (part & parts & ->). destruct (Ascii.eqb c sep).
    + now exists "", (part :: parts).
    + now exists (String c part), parts.
Qed.

(** X15.  An entry of a filter list that is empty lets every candidate
    through, for both providers: the empty string is contained in every
    title.  A trailing comma in the variable produces such an entry, and
    so does a doubled comma, so that the filter then restricts
    nothing. *)
Theorem empty_filter_entry_matches_all :
  (∀ filter d, "" ∈ filter →
               BMWProvider.matchesFilter filter d = true ∧
               VWProvider.matchesFilter filter d = true) ∧
  (∀ s, "" ∈ parseFilter (Some (s +:+ ","))) ∧
  parseFilter (Some "ISTA/P,") = ["ISTA/P"; ""] ∧
  parseFilter (Some "ODIS,,FMC") = ["ODIS"; ""; "FMC"].
Proof.
  split; [|split; [|split; reflexivity]].
  - intros filter d Hin.
    assert (H : existsb (fun filterText =>
                           Js.includes (Js.toLowerCase (title d)) (Js.toLowerCase filterText)
                           || Js.includes (title d) filterText) filter = true).
    { apply existsb_exists. exists "". split; [now apply list_elem_of_In|].
      simpl. now rewrite includes_nil. }
    split; exact H.
  - intros s. unfold parseFilter.
    assert (Ht : Js.truthy (s +:+ ",") = true) by (destruct s; reflexivity).
    rewrite Ht. destruct (split_trailing "," s) as (part & parts & ->).
    rewrite fmap_app. apply elem_of_app. right. apply list_elem_of_here.
Qed.

End Filters.
(** ** What is categorised *)

Section CategorisedFacts.

Lemma bmwCategorizeDownloads_member cfg downloads appType category a :
  (category, a) ∈ BMWProvider.categorizeDownloads cfg downloads appType →
  ∃ d, d ∈ downloads ∧ bmwAssigned (bmwFilterOf cfg appType) appType d = Some category ∧
       a = BMWProvider.categorize appType d category.
Proof.
  unfold BMWProvider.categorizeDownloads. fold (bmwFilterOf cfg appType). intros H.
  apply bmw_fold_member in H as [H|H]; [now apply elem_of_nil in H|exact H].
Qed.

(** X16.  What [categorizeDownloads] returns, for BMW and for VW: no
    category appears twice; every artifact is a candidate of the page
    that passed the filter, with the fields the categoriser adds; its
    category is one of the table of its application (for VW, one of the
    three pairs of the table), so that its display name is always
    defined. *)
Theorem categorizeDownloads_sound :
  (∀ cfg downloads appType,
      let result := BMWProvider.categorizeDownloads cfg downloads appType in
      NoDup result.*1 ∧
      ∀ category a, (category, a) ∈ result →
        ∃ d, d ∈ downloads ∧ a = BMWProvider.categorize appType d category ∧
             BMWProvider.matchesFilter (bmwFilterOf cfg appType) d = true ∧
             category ∈ BMWProvider.validCategories appType ∧
             is_Some (displayName a)) ∧
  (∀ downloadFilter downloads,
      let result := VWProvider.categorizeDownloads downloadFilter downloads in
      NoDup result.*1 ∧
      ∀ category a, (category, a) ∈ result →
        ∃ d appType, d ∈ downloads ∧ a = VWProvider.categorize appType d category ∧
             VWProvider.matchesFilter downloadFilter d = true ∧
             (appType, category) ∈ [("odis_service", "installation");
                                    ("odis_service", "update"); ("fmc", "installer")] ∧
             is_Some (displayName a)).
Proof.
  split.
  - intros cfg downloads appType result. subst result.
    unfold BMWProvider.categorizeDownloads. fold (bmwFilterOf cfg appType).
    split; [apply bmw_fold_keys; apply NoDup_nil_2|].
    intros category a H.
    apply bmw_fold_member in H as [H|(d & Hin & Ha & ->)]; [now apply elem_of_nil in H|].
    apply bmwAssigned_Some in Ha as [Hm Hv].
    exists d. repeat split; auto.
    change (is_Some (assoc appType BMWProvider.downloadCategories ≫= assoc category)).
    unfold BMWProvider.validCategories in Hv.
    destruct (assoc appType BMWProvider.downloadCategories) as [table|];
      [|now apply elem_of_nil in Hv].
    now apply assoc_member.
  - intros downloadFilter downloads result. subst result.
    unfold VWProvider.categorizeDownloads.
    split; [apply vw_fold_keys; apply NoDup_nil_2|].
    intros category a H.
    apply vw_fold_member in H as [H|(d & appType & Hin & Ha & ->)];
      [now apply elem_of_nil in H|].
    apply vwAssigned_Some in Ha as [Hm Hv].
    exists d, appType. repeat split; auto.
    apply elem_of_cons in Hv as [[= -> ->]|Hv]; [simpl; eauto|].
    apply elem_of_cons in Hv as [[= -> ->]|Hv]; [simpl; eauto|].
    apply list_elem_of_singleton in Hv as [= -> ->]. simpl. eauto.
Qed.

End CategorisedFacts.

(** ** The scan of the BMW page *)

Section ScanFacts.
Import BMWProvider.

Lemma scanLink_Some frameInfo link c :
  scanLink frameInfo link = Some c →
  title c ≠ "" ∧ actualFilename c = None ∧
  method c = "link_search_" +:+ frameInfo ∧
  Js.includes (url c) "/api/v2/downloads" = true ∧
  Js.includes (Js.toLowerCase (url c)) ".pdf" = false ∧
  Js.includes (Js.toLowerCase (title c)) ".pdf" = false.
Proof.
  unfold scanLink.
  destruct (Js.includes (Js.toLowerCase (href link)) ".pdf") eqn:H1; [discriminate|].
  destruct (Js.includes (Js.toLowerCase (Js.trim (linkText link))) ".pdf") eqn:H2;
    [discriminate|]. simpl.
  destruct (Js.truthy (href link)); [|discriminate]. simpl.
  destruct (Js.includes (href link) "/api/v2/downloads") eqn:H3; [|discriminate]. simpl.
  destruct (Js.truthy (Js.trim (linkText link))) eqn:H4; [|discriminate].
  intros [= <-]. simpl. repeat split; auto.
  intros Hnil. rewrite Hnil in H4. discriminate.
Qed.

Lemma scanButton_Some frameInfo button c :
  scanButton frameInfo button = Some c →
  title c ≠ "" ∧ actualFilename c = None ∧
  method c = "button_search_" +:+ frameInfo ∧
  Js.includes (url c) "download" = true.
Proof.
  unfold scanButton. destruct (onclick button) as [code|]; [|discriminate].
  destruct (Js.truthy (Js.trim (buttonText button))) eqn:H1; [|discriminate]. simpl.
  destruct (Js.truthy code); [|discriminate]. simpl.
  destruct (Js.includes code "download") eqn:H2; [|discriminate].
  intros [= <-]. simpl. repeat split; auto.
  intros Hnil. rewrite Hnil in H1. discriminate.
Qed.

Lemma searchForDownloads_member doc frameInfo c :
  c ∈ searchForDownloads doc frameInfo →
  title c ≠ "" ∧ actualFilename c = None ∧
  ((method c = "link_search_" +:+ frameInfo ∧
    Js.includes (url c) "/api/v2/downloads" = true ∧
    Js.includes (Js.toLowerCase (url c)) ".pdf" = false ∧
    Js.includes (Js.toLowerCase (title c)) ".pdf" = false) ∨
   (method c = "button_search_" +:+ frameInfo ∧
    Js.includes (url c) "download" = true)).
Proof.
  unfold searchForDownloads. intros H. apply elem_of_app in H as [H|H].
  - apply list_elem_of_omap in H as (link & _ & H).
    apply scanLink_Some in H. tauto.
  - apply list_elem_of_omap in H as (button & _ & H).
    apply scanButton_Some in H. tauto.
Qed.

(** X17.  The scan of the BMW page.  Every download it returns has a
    title that is not empty and comes from the main document or from a
    frame whose document can be read, a frame without one contributing
    nothing.  A download found as a link has [/api/v2/downloads] in its
    address and [.pdf] neither in its address nor in its title, whatever
    the case of the letters; a download found as a button has
    [download] in its [onclick] code, which is taken as its address.
    Hence no artifact [categorizeDownloads] returns for the page is a
    PDF link. *)
Theorem scan_candidates :
  (∀ page c, c ∈ scan page →
     title c ≠ "" ∧ actualFilename c = None ∧
     ∃ frameInfo,
       (frameInfo = "main" ∨
        ∃ index doc, frames page !! index = Some (Some doc) ∧
                     frameInfo = "frame_" +:+ pretty index) ∧
       ((method c = "link_search_" +:+ frameInfo ∧
         Js.includes (url c) "/api/v2/downloads" = true ∧
         Js.includes (Js.toLowerCase (url c)) ".pdf" = false ∧
         Js.includes (Js.toLowerCase (title c)) ".pdf" = false) ∨
        (method c = "button_search_" +:+ frameInfo ∧
         Js.includes (url c) "download" = true))) ∧
  (∀ cfg page appType category a,
     (category, a) ∈ categorizeDownloads cfg (scan page) appType →
     candidate a ∈ scan page ∧
     (Js.startsWith "link_search_" (method (candidate a)) = true →
      Js.includes (Js.toLowerCase (url (candidate a))) ".pdf" = false ∧
      Js.includes (Js.toLowerCase (title (candidate a))) ".pdf" = false)).
Proof.
  assert (Hscan : ∀ page c, c ∈ scan page →
     title c ≠ "" ∧ actualFilename c = None ∧
     ∃ frameInfo,
       (frameInfo = "main" ∨
        ∃ index doc, frames page !! index = Some (Some doc) ∧
                     frameInfo = "frame_" +:+ pretty index) ∧
       ((method c = "link_search_" +:+ frameInfo ∧
         Js.includes (url c) "/api/v2/downloads" = true ∧
         Js.includes (Js.toLowerCase (url c)) ".pdf" = false ∧
         Js.includes (Js.toLowerCase (title c)) ".pdf" = false) ∨
        (method c = "button_search_" +:+ frameInfo ∧
         Js.includes (url c) "download" = true))).
  { intros page c H. unfold scan in H. apply elem_of_app in H as [H|H].
    - apply searchForDownloads_member in H as (H1 & H2 & H3).
      split; [exact H1|]. split; [exact H2|]. exists "main". auto.
    - apply list_elem_of_In, in_concat in H as (found & Hfound & Hc).
      apply list_elem_of_In in Hfound, Hc.
      apply elem_of_lookup_imap in Hfound as (index & frame & -> & Hframe).
      destruct frame as [doc|]; [|now apply elem_of_nil in Hc].
      apply searchForDownloads_member in Hc as (H1 & H2 & H3).
      split; [exact H1|]. split; [exact H2|].
      exists ("frame_" +:+ pretty index). split; [|exact H3]. right. eauto. }
  split; [exact Hscan|].
  intros cfg page appType category a H.
  apply bmwCategorizeDownloads_member in H as (d & Hin & _ & ->). simpl.
  split; [exact Hin|]. intros Hlink.
  destruct (Hscan page d Hin) as (_ & _ & frameInfo & _ & [Hl|[Hb _]]); [tauto|].
  rewrite Hb in Hlink. discriminate.
Qed.

End ScanFacts.

(** ** The log lines of the dashboard *)

Section LogLines.
Import Regex.

Lemma Matches_fixedWidth p u rest :
  Matches p u rest → ∀ k, fixedWidth p = Some k → String.length u = k ∧ ∀ rest', Matches p u rest'.
Proof.
  induction 1 as [rest|cls lo hi p u v rest Hu Hlo Hhi HM IH|p HM IH]; intros k Hk.
  - injection Hk as <-. split; [reflexivity|]. intros rest'. constructor.
  - simpl in Hk. destruct hi as [hi|]; [|discriminate].
    destruct (Nat.eqb_spec lo hi) as [->|]; [|discriminate].
    destruct (fixedWidth p) as [k'|]; [|discriminate]. injection Hk as <-.
    destruct (IH k' eq_refl) as [Hlen Hext]. simpl in Hhi. split.
    + rewrite sapp_length. lia.
    + intros rest'. now constructor.
  - discriminate.
Qed.

Lemma extractTimestamp_stamp timestamp :
  WebServer.extractTimestamp timestamp = Some timestamp →
  String.length timestamp = 24%nat ∧ ∀ rest, Matches WebServer.isoInstant timestamp rest.
Proof.
  unfold WebServer.extractTimestamp. intros H.
  destruct (matchHere WebServer.isoInstant timestamp) as [n|] eqn:E; [|discriminate].
  injection H as H.
  apply matchHere_sound in E as (u & rest & Hts & Hn & HM).
  destruct (Matches_fixedWidth _ _ _ HM 24%nat eq_refl) as [Hlen Hext].
  assert (Hu : timestamp = u).
  { rewrite <- H, Hts, <- Hn, Hlen. rewrite <- Hlen. apply take_sapp. }
  subst u. auto.
Qed.

(** X18.  The time stamp of a log line.  A stamp [extractTimestamp]
    recognises has 24 characters, and the dashboard recovers it from
    every line that starts with it, whatever follows: so from every
    line the loggers print, which put the stamp first.  A line that
    does not start with a digit, such as the continuation of a message
    of several lines, has no stamp. *)
Theorem extractTimestamp_round_trip (timestamp : string) :
  WebServer.extractTimestamp timestamp = Some timestamp →
  String.length timestamp = 24%nat ∧
  (∀ rest, WebServer.extractTimestamp (timestamp +:+ rest) = Some timestamp) ∧
  (∀ level source message,
      WebServer.extractTimestamp (logLine timestamp level source message)
      = Some timestamp) ∧
  WebServer.extractTimestamp "" = None ∧
  (∀ c rest, Js.isDigit c = false → WebServer.extractTimestamp (String c rest) = None).
Proof.
  intros H. apply extractTimestamp_stamp in H as [Hlen HM].
  assert (Hrest : ∀ rest, WebServer.extractTimestamp (timestamp +:+ rest) = Some timestamp).
  { intros rest. unfold WebServer.extractTimestamp.
    destruct (matchHere_complete _ _ _ (HM rest)) as [n E]. rewrite E. simpl.
    apply matchHere_sound in E as (u & rest' & Heq & Hn & HM').
    destruct (Matches_fixedWidth _ _ _ HM' 24%nat eq_refl) as [Hlen' _].
    f_equal. rewrite <- Hn, Hlen', <- Hlen. apply take_sapp. }
  split; [exact Hlen|]. split; [exact Hrest|]. split; [intros; apply Hrest|].
  split; [reflexivity|].
  intros c rest Hc. unfold WebServer.extractTimestamp. simpl. now rewrite Hc.
Qed.

End LogLines.

Lemma extractTimestamp_round_trip_witness :
  WebServer.extractTimestamp "2024-01-15T10:30:45.123Z" = Some "2024-01-15T10:30:45.123Z" ∧
  WebServer.extractTimestamp
    (logLine "2024-01-15T10:30:45.123Z" "info" "BMW" "Login erfolgreich!")
  = Some "2024-01-15T10:30:45.123Z".
Proof.
  split; [reflexivity|].
  exact (proj1 (proj2 (proj2
           (extractTimestamp_round_trip "2024-01-15T10:30:45.123Z" eq_refl))) _ _ _).
Defined.

(** ** Sizes on the dashboard *)

Section Sizes.

Lemma pretty_zero : pretty 0%N = "0".
Proof. reflexivity. Qed.

(** X19.  [formatFileSize] prints a size in GB with at most two
    decimals.  Every size below 5 368 710 bytes is printed as [0 GB],
    like the size 0, and that many bytes are the first to be printed
    otherwise, as [0.01 GB].  A whole number of GB (below 2^23 GB, the
    sizes a number holds exactly) is printed without decimals, and half
    a hundredth is rounded up: 134 217 728 bytes, an eighth of a GB, are
    printed as [0.13 GB]. *)
Theorem formatFileSize_rounding :
  (∀ bytes, (bytes < 5368710)%N → WebServer.formatFileSize bytes = "0 GB") ∧
  WebServer.formatFileSize 5368710 = "0.01 GB" ∧
  (∀ k, (k < 2 ^ 23)%N → WebServer.formatFileSize (k * 2 ^ 30) = pretty k +:+ " GB") ∧
  WebServer.formatFileSize 134217728 = "0.13 GB".
Proof.
  split; [|split; [vm_compute; reflexivity|split; [|vm_compute; reflexivity]]].
  - intros bytes Hb. unfold WebServer.formatFileSize.
    destruct (bytes =? 0)%N; [reflexivity|].
    assert (H0 : ((200 * bytes + 2 ^ 30) / 2 ^ 31 = 0)%N).
    { apply N.div_small. change (2 ^ 30)%N with 1073741824%N.
      change (2 ^ 31)%N with 2147483648%N. lia. }
    rewrite H0. reflexivity.
  - intros k _. unfold WebServer.formatFileSize.
    destruct (N.eqb_spec (k * 2 ^ 30) 0) as [H0|Hne].
    + assert (k = 0%N) as -> by (change (2 ^ 30)%N with 1073741824%N in H0; lia).
      reflexivity.
    + assert (H : ((200 * (k * 2 ^ 30) + 2 ^ 30) / 2 ^ 31 = 100 * k)%N).
      { symmetry. apply (N.div_unique _ _ _ (2 ^ 30)%N).
        - change (2 ^ 30)%N with 1073741824%N. change (2 ^ 31)%N with 2147483648%N. lia.
        - change (2 ^ 30)%N with 1073741824%N. change (2 ^ 31)%N with 2147483648%N. lia. }
      rewrite H.
      replace (100 * k / 100)%N with k by (apply N.div_unique_exact; lia).
      replace ((100 * k) mod 100)%N with 0%N
        by (symmetry; rewrite N.mul_comm; apply N.Div0.mod_mul).
      reflexivity.
Qed.

End Sizes.
(** ** The manager *)

Section ManagerFacts.
Import CarDownloaderManager.

(** X20.  The status of a manager that was only initialised, which is
    what the [status] command prints.  [initialize] gives up exactly
    when neither provider has both its user name and its password.
    Otherwise the manager holds the configured providers, at least one,
    BMW first, and [getProviderStatus] reports every one of them as not
    running, never updated and without downloads, whatever the metadata
    files hold: the state of a provider is read from disk by its own
    [initialize], which the command does not call. *)
Theorem status_of_initialised_manager (env : Credentials) :
  let bmw := configured (bmwUsername env) && configured (bmwPassword env) in
  let vw := configured (vwUsername env) && configured (vwPassword env) in
  (initialize env = None ↔ bmw = false ∧ vw = false) ∧
  ∀ m, initialize env = Some m →
    runningProviders m = [] ∧
    (getProviderStatus m).*1
    = app (if bmw then ["bmw"] else []) (if vw then ["vw"] else []) ∧
    getProviderStatus m ≠ [] ∧
    ∀ name status, (name, status) ∈ getProviderStatus m →
      running status = false ∧ statusLastUpdate status = None ∧
      downloadCount status = 0%nat.
Proof.
  cbv zeta. unfold initialize.
  destruct (configured (bmwUsername env) && configured (bmwPassword env));
    destruct (configured (vwUsername env) && configured (vwPassword env)); simpl.
  4: { split; [split; auto|]. intros m [=]. }
  all: split; [split; [discriminate|intros [? ?]; discriminate]|].
  all: intros m [= <-]; split; [reflexivity|]; split; [reflexivity|].
  all: split; [discriminate|].
  all: intros name status H; unfold getProviderStatus in H; simpl in H.
  all: repeat (apply elem_of_cons in H as [H|H];
               [injection H as -> ->; repeat split; reflexivity|]).
  all: now apply elem_of_nil in H.
Qed.

End ManagerFacts.

(** ** The loop of a provider *)

Section RunLoop.
Import BaseProvider.
Variable decodeURIComponent : string -> option string.
Variable baseDir : string.
Variable cfg : BMWProvider.Filters.

Lemma periodicCheck_failing portal w reason :
  bmwLoginFailure (BMWProvider.loginPage portal) = Some reason →
  BMWProvider.periodicCheck decodeURIComponent baseDir cfg (Ok tt) portal w
  = (Ok tt, withMails (mails w ++ [LoginFailure "bmw" reason]) (withLoggedIn false w)).
Proof.
  intros Hf. unfold BMWProvider.periodicCheck, ignoreErrors, tryCatch.
  unfold bind at 1. unfold await. unfold bind at 1. unfold setLoggedIn.
  unfold bind at 1. unfold BMWProvider.checkForUpdates.
  unfold bind at 1. unfold getLoggedIn. simpl isLoggedIn.
  unfold bind at 1.
  rewrite (bmw_login_failure_notified baseDir _ (withLoggedIn false w) reason eq_refl Hf).
  reflexivity.
Qed.

(** X21.  The loop of the BMW provider resets the session before every
    check, so every check logs in again.  Over any number of turns in
    which the browser restarts and the login fails, each turn hands one
    [LoginFailure] mail to the e-mail service, with the reason of that
    turn: as many mails as turns, without a limit.  Nothing else
    changes: the directory, the vendor state and both metadata files
    are as before, and [lastUpdate] is not renewed. *)
Theorem login_failure_mail_every_turn
    (turns : list (outcome unit * BMWProvider.Portal)) (w : World) :
  Forall (fun turn => turn.1 = Ok tt ∧
                      is_Some (bmwLoginFailure (BMWProvider.loginPage turn.2))) turns →
  ∃ w',
    BMWProvider.periodicChecks decodeURIComponent baseDir cfg turns w = (Ok tt, w') ∧
    mails w' = app (mails w) (omap turnFailure turns) ∧
    length (omap turnFailure turns) = length turns ∧
    files w' = files w ∧ metadata w' = metadata w ∧
    vendorFile w' = vendorFile w ∧ globalFile w' = globalFile w.
Proof.
  unfold BMWProvider.periodicChecks. revert w.
  induction turns as [|[restart portal] turns IH]; intros w Hall.
  - exists w. simpl. unfold ret. rewrite app_nil_r. repeat split.
  - apply Forall_cons in Hall as [[Hr [reason Hf]] Hall]. simpl in Hr, Hf. subst restart.
    cbn [forEach]. unfold bind at 1. cbn [fst snd].
    rewrite (periodicCheck_failing portal w reason Hf).
    destruct (IH (withMails (mails w ++ [LoginFailure "bmw" reason]) (withLoggedIn false w))
                Hall) as (w' & E & Hm & Hl & Hfs & Hmd & Hvf & Hgf).
    exists w'. split; [exact E|].
    assert (Hhead : omap turnFailure ((Ok tt, portal) :: turns)
                    = LoginFailure "bmw" reason :: omap turnFailure turns).
    { change (omap turnFailure ((Ok tt, portal) :: turns))
        with (match turnFailure (Ok tt, portal) with
              | Some n => n :: omap turnFailure turns
              | None => omap turnFailure turns
              end).
      unfold turnFailure at 1. cbn [snd]. rewrite Hf. reflexivity. }
    rewrite Hhead.
    split; [rewrite Hm; simpl; now rewrite <- app_assoc|].
    split; [simpl; now rewrite Hl|]. auto.
Qed.

End RunLoop.

Lemma login_failure_mail_every_turn_witness :
  let down := {| BMWProvider.loginPage := Throw "page.goto: Timeout 30000ms exceeded.";
                 BMWProvider.navigates := fun _ => true;
                 BMWProvider.found := fun _ => Ok [];
                 BMWProvider.transfers := fun _ => RequestFails "" |} in
  let cfg := {| BMWProvider.istaPFilter := ["ISTA"]; BMWProvider.istaNextFilter := ["ISTA"] |} in
  let turns := [(Ok tt, down); (Ok tt, down); (Ok tt, down)] in
  Forall (fun turn => turn.1 = Ok tt ∧
                      is_Some (bmwLoginFailure (BMWProvider.loginPage turn.2))) turns ∧
  length (mails (BMWProvider.periodicChecks BaseProvider.decodePlain
                   "/mnt/storagebox/providers" cfg turns Examples.world).2) = 3%nat.
Proof.
  cbv zeta.
  set (down := {| BMWProvider.loginPage := Throw "page.goto: Timeout 30000ms exceeded.";
                  BMWProvider.navigates := fun _ => true;
                  BMWProvider.found := fun _ => Ok [];
                  BMWProvider.transfers := fun _ => RequestFails "" |}).
  assert (Hall : Forall (fun turn => turn.1 = Ok tt ∧
                           is_Some (bmwLoginFailure (BMWProvider.loginPage turn.2)))
                        [(Ok tt, down); (Ok tt, down); (Ok tt, down)]).
  { repeat constructor; simpl; eauto. }
  split; [exact Hall|].
  destruct (login_failure_mail_every_turn BaseProvider.decodePlain
              "/mnt/storagebox/providers"
              {| BMWProvider.istaPFilter := ["ISTA"]; BMWProvider.istaNextFilter := ["ISTA"] |}
              _ Examples.world Hall) as (w' & E & Hm & Hl & _).
  rewrite E. simpl. rewrite Hm, length_app, Hl. reflexivity.
Defined.

(** ** The counts of a VW cycle *)

Section VwCounts.
Import BaseProvider.
Variable decodeURIComponent : string -> option string.
Variable baseDir : string.
Variable downloadFilter : list string.
Variable portal : VWProvider.Portal.

Lemma vwDownloadAll_run updates : ∀ successCount failCount w,
  let delivered :=
    List.filter (fun u => delivers (VWProvider.transfers portal (url (candidate u))))
                updates in
  ∃ w',
    VWProvider.downloadAll decodeURIComponent baseDir portal updates
      (successCount, failCount) w
    = (Ok ((successCount + length delivered)%nat,
           (failCount + (length updates - length delivered))%nat), w').
Proof.
  induction updates as [|u rest IH]; intros s f w; cbv zeta.
  - exists w. simpl. unfold ret. now rewrite !Nat.add_0_r.
  - cbn [VWProvider.downloadAll List.filter].
    unfold bind at 1. unfold tryCatch.
    destruct (vwDownloadFile_delivers decodeURIComponent baseDir u
                (VWProvider.transfers portal (url (candidate u))) w) as (w1 & E & _).
    rewrite E.
    pose proof (List.filter_length_le
                  (fun u => delivers (VWProvider.transfers portal (url (candidate u))))
                  rest) as Hle.
    destruct (delivers (VWProvider.transfers portal (url (candidate u)))).
    + destruct (IH (S s) f w1) as (w' & E'). cbv zeta in E'.
      exists w'. rewrite E'. cbn [length].
      match goal with
      | |- (Ok (?a, ?b), _) = (Ok (?a', ?b'), _) =>
          replace a with a' by lia; replace b with b' by lia
      end. reflexivity.
    + destruct (IH s (S f) w1) as (w' & E'). cbv zeta in E'.
      exists w'. rewrite E'. cbn [length].
      match goal with
      | |- (Ok (?a, ?b), _) = (Ok (?a', ?b'), _) =>
          replace a with a' by lia; replace b with b' by lia
      end. reflexivity.
Qed.

(** With the session alive and the download page reached, the cycle
    comes to its download loop and the closing [updateLastCheck]. *)
Lemma vwCycleOn_run (breaks : string → option N) (w : World) :
  VWProvider.sessionAlive portal = true →
  isLoggedIn w = true →
  VWProvider.navigation portal = Ok true →
  VWProvider.checkForUpdatesOn decodeURIComponent baseDir downloadFilter portal breaks w
  = andThen
      (VWProvider.downloadAllOn decodeURIComponent baseDir portal breaks
         (vwUpdates downloadFilter portal (metadata w)) (0, 0)%nat)
      (fun counts =>
         returning (updateLastCheck (VWProvider.self baseDir) ;; ret (Some counts))) w.
Proof.
  intros Ha Hl Hn. unfold VWProvider.checkForUpdatesOn.
  rewrite andThen_returning.
  unfold bind at 1. unfold getLoggedIn. rewrite Ha, Hl. simpl. unfold ret at 1. simpl.
  rewrite andThen_returning.
  unfold VWProvider.navigateToDownloads, tryCatch.
  unfold bind at 1. unfold bind at 1. unfold await. rewrite Hn. unfold ret at 1 2. simpl.
  rewrite andThen_returning. unfold getMetadata. reflexivity.
Qed.

(** X22.  A VW cycle on the responses as they come, when the session
    is alive and the navigation reaches the download page.  It attempts
    every categorised download that [isNewVersion] accepts, in order.
    When all of these transfers settle, the cycle returns its counts:
    the number of those whose transfer delivered a non-empty file, and
    the number of the others; it closes with [updateLastCheck], so that
    the state on disk is the state in memory.  When the response stream
    of one of them fails midway, the cycle never returns. *)
Theorem vw_cycle_counts (breaks : string → option N) (w : World) :
  VWProvider.sessionAlive portal = true →
  isLoggedIn w = true →
  VWProvider.navigation portal = Ok true →
  let updates := vwUpdates downloadFilter portal (metadata w) in
  let delivered :=
    List.filter (fun u => delivers (VWProvider.transfers portal (url (candidate u))))
                updates in
  let cycle :=
    VWProvider.checkForUpdatesOn decodeURIComponent baseDir downloadFilter portal breaks in
  (anyBreaks breaks updates = false →
   ∃ w',
     cycle w = (Some (Ok (Some (length delivered,
                                (length updates - length delivered)%nat))), w') ∧
     vendorFile w' = Json (metadata w')) ∧
  (anyBreaks breaks updates = true → ∃ w', cycle w = (None, w')).
Proof.
  intros Ha Hl Hn. cbv zeta.
  rewrite (vwCycleOn_run breaks w Ha Hl Hn).
  split; intros Hb.
  - unfold andThen. rewrite (vwDownloadAllOn_settles _ _ _ _ _ _ _ Hb).
    destruct (vwDownloadAll_run (vwUpdates downloadFilter portal (metadata w)) 0 0 w)
      as (w1 & E). cbv zeta in E.
    unfold returning at 1. rewrite E. simpl.
    unfold returning, bind. rewrite updateLastCheck_run. unfold ret.
    eexists. split; reflexivity.
  - destruct (vwDownloadAllOn_breaks decodeURIComponent baseDir breaks portal _
                (0, 0)%nat w Hb) as (w' & E).
    exists w'. unfold andThen. now rewrite E.
Qed.

End VwCounts.

Lemma vw_cycle_counts_witness :
  let odis := {| title := "ODIS-Service Update 25.1.0"; url := "DownloadODIS?id=7";
                 method := "link_search_main";
                 actualFilename := Some "ODIS-Service_update_25_1_0_20250820.zip" |} in
  let portal := {| VWProvider.sessionAlive := true;
                   VWProvider.loginPage := vwTimeout;
                   VWProvider.navigation := Ok true;
                   VWProvider.reloginPage := vwTimeout;
                   VWProvider.found := Ok [odis];
                   VWProvider.transfers := fun _ => Finished 4096 |} in
  let w := withLoggedIn true Examples.world in
  VWProvider.sessionAlive portal = true ∧ isLoggedIn w = true ∧
  VWProvider.navigation portal = Ok true ∧
  (VWProvider.checkForUpdatesOn BaseProvider.decodePlain "/mnt/storagebox/providers"
     ["ODIS"] portal (fun _ => None) w).1 = Some (Ok (Some (1, 0)%nat)) ∧
  (VWProvider.checkForUpdatesOn BaseProvider.decodePlain "/mnt/storagebox/providers"
     ["ODIS"] portal (fun _ => Some 512%N) w).1 = None.
Proof.
  cbv zeta. split; [reflexivity|]. split; [reflexivity|]. split; [reflexivity|].
  set (portal := {| VWProvider.sessionAlive := true;
                    VWProvider.loginPage := vwTimeout;
                    VWProvider.navigation := Ok true;
                    VWProvider.reloginPage := vwTimeout;
                    VWProvider.found :=
                      Ok [{| title := "ODIS-Service Update 25.1.0"; url := "DownloadODIS?id=7";
                             method := "link_search_main";
                             actualFilename :=
                               Some "ODIS-Service_update_25_1_0_20250820.zip" |}];
                    VWProvider.transfers := fun _ => Finished 4096 |}).
  split.
  - destruct (vw_cycle_counts BaseProvider.decodePlain "/mnt/storagebox/providers" ["ODIS"]
                portal (fun _ => None) (withLoggedIn true Examples.world)
                eq_refl eq_refl eq_refl) as [H _].
    destruct (H ltac:(vm_compute; reflexivity)) as (w' & E & _).
    rewrite E. vm_compute. reflexivity.
  - destruct (vw_cycle_counts BaseProvider.decodePlain "/mnt/storagebox/providers" ["ODIS"]
                portal (fun _ => Some 512%N) (withLoggedIn true Examples.world)
                eq_refl eq_refl eq_refl) as [_ H].
    destruct (H ltac:(vm_compute; reflexivity)) as (w' & E).
    now rewrite E.
Defined.

(** ** A check settles *)

Section Settling.
Import BaseProvider.
Variable decodeURIComponent : string -> option string.
Variable baseDir : string.

Lemma afterSuccess_record self d name size w :
  recordedVersion <$> recordOf (metadata (afterSuccess self d name size w)) (category d)
  = Some (version d) ∧
  ∀ c, c ≠ category d →
       recordOf (metadata (afterSuccess self d name size w)) c = recordOf (metadata w) c.
Proof.
  remember (afterCleanup self (category d) name w) as w1 eqn:Hw1.
  assert (Hmd : metadata (afterSuccess self d name size w)
                = {| lastUpdate := Some (clock w1 (S (ticks w1)));
                     downloads :=
                       Some (<[category d := recordFor self d name size (clock w1 (ticks w1))]>
                               (default ∅ (downloads (metadata w1)))) |})
    by (rewrite Hw1; reflexivity).
  rewrite Hmd. split.
  - unfold recordOf. simpl. now rewrite lookup_insert_eq.
  - intros c Hc. unfold recordOf at 1. simpl. rewrite lookup_insert_ne by congruence.
    rewrite <- (afterCleanup_recordOf_ne self (category d) name w c Hc), <- Hw1.
    unfold recordOf. destruct (downloads (metadata w1)); reflexivity.
Qed.

Lemma delivered_transfer self d name transfer w :
  delivers transfer = true →
  ∃ w', transferTo self d name transfer w = (Ok true, w') ∧
        recordedVersion <$> recordOf (metadata w') (category d) = Some (version d) ∧
        ∀ c, c ≠ category d → recordOf (metadata w') c = recordOf (metadata w) c.
Proof.
  intros Hd. destruct transfer as [e|n e|size]; try discriminate. simpl in Hd.
  exists (afterSuccess self d name size w). rewrite transferTo_finished, Hd.
  split; [reflexivity|]. apply afterSuccess_record.
Qed.

Lemma isNewVersion_recordOf md md' c v :
  recordOf md c = recordOf md' c → isNewVersion md c v = isNewVersion md' c v.
Proof. unfold isNewVersion, recordOf. now intros ->. Qed.

Lemma isNewVersion_recorded md c v :
  recordedVersion <$> recordOf md c = Some v → Js.truthy v = true →
  isNewVersion md c v = false.
Proof.
  unfold isNewVersion, recordOf. intros -> Ht. rewrite Ht. simpl.
  destruct (String.eqb v "unknown"); [reflexivity|]. now rewrite String.eqb_refl.
Qed.

(** The state a sequence of delivered downloads leaves: every artifact
    is recorded at its version, the other categories are as before. *)
Lemma delivered_sequence (run : Artifact → M bool) (updates : list Artifact) :
  (∀ u w, u ∈ updates →
          ∃ w', run u w = (Ok true, w') ∧
                recordedVersion <$> recordOf (metadata w') (category u) = Some (version u) ∧
                ∀ c, c ≠ category u → recordOf (metadata w') c = recordOf (metadata w) c) →
  NoDup (category <$> updates) →
  ∀ w, ∃ w',
    forEach updates (fun u => _ <- run u ;; ret tt) w = (Ok tt, w') ∧
    (∀ u, u ∈ updates →
          recordedVersion <$> recordOf (metadata w') (category u) = Some (version u)) ∧
    (∀ c, c ∉ category <$> updates → recordOf (metadata w') c = recordOf (metadata w) c).
Proof.
  induction updates as [|u rest IH]; intros Hrun Hnd w.
  - exists w. split; [reflexivity|]. split; [|reflexivity].
    intros u Hu. now apply elem_of_nil in Hu.
  - rewrite fmap_cons in Hnd. apply NoDup_cons in Hnd as [Hu Hnd].
    destruct (Hrun u w (list_elem_of_here _ _)) as (w1 & E1 & Hv1 & Ho1).
    destruct (IH (fun u' w' Hin => Hrun u' w' (list_elem_of_further _ _ _ Hin)) Hnd w1)
      as (w' & E & Hv & Ho).
    exists w'. split.
    + cbn [forEach]. unfold bind at 1. unfold bind at 1. rewrite E1. unfold ret at 1.
      exact E.
    + split.
      * intros u' Hu'. apply elem_of_cons in Hu' as [->|Hu']; [|now apply Hv].
        rewrite (Ho (category u) Hu). exact Hv1.
      * intros c Hc. rewrite fmap_cons in Hc. apply not_elem_of_cons in Hc as [Hc1 Hc2].
        rewrite (Ho c Hc2). now apply Ho1.
Qed.

Lemma discard_run {A} (m : M A) w a w1 :
  m w = (Ok a, w1) → (_ <- m ;; ret tt)%js w = (Ok tt, w1).
Proof. intros E. unfold bind. now rewrite E. Qed.

Lemma forEach_cons_ok {A} (body : A → M unit) u rest w w1 :
  body u w = (Ok tt, w1) → forEach (u :: rest) body w = forEach rest body w1.
Proof. intros E. cbn [forEach]. unfold bind. now rewrite E. Qed.

Lemma bmwDownloadAll_forEach portal updates : ∀ acc w,
  (BMWProvider.downloadAll decodeURIComponent baseDir portal updates acc w).2
  = (forEach updates (fun u =>
       _ <- downloadFile decodeURIComponent (BMWProvider.self baseDir) u
              (BMWProvider.transfers portal (url (candidate u))) ;; ret tt) w).2.
Proof.
  induction updates as [|u rest IH]; intros [[s f] l] w; [reflexivity|].
  destruct (downloadFile_delivers decodeURIComponent (BMWProvider.self baseDir) u
              (BMWProvider.transfers portal (url (candidate u))) w) as (w1 & E & _).
  rewrite (forEach_cons_ok _ u rest w w1 (discard_run _ _ _ _ E)).
  cbn [BMWProvider.downloadAll]. unfold bind at 1. unfold tryCatch. rewrite E.
  apply IH.
Qed.

Lemma vwDownloadAll_forEach portal updates : ∀ acc w,
  (VWProvider.downloadAll decodeURIComponent baseDir portal updates acc w).2
  = (forEach updates (fun u =>
       _ <- VWProvider.downloadFile decodeURIComponent baseDir u
              (VWProvider.transfers portal (url (candidate u))) ;; ret tt) w).2.
Proof.
  induction updates as [|u rest IH]; intros [s f] w; [reflexivity|].
  destruct (vwDownloadFile_delivers decodeURIComponent baseDir u
              (VWProvider.transfers portal (url (candidate u))) w) as (w1 & E & _).
  rewrite (forEach_cons_ok _ u rest w w1 (discard_run _ _ _ _ E)).
  cbn [VWProvider.downloadAll]. unfold bind at 1. unfold tryCatch. rewrite E.
  apply IH.
Qed.

Lemma keys_unique {A} (l : list (string * A)) k a b :
  NoDup l.*1 → (k, a) ∈ l → (k, b) ∈ l → a = b.
Proof.
  induction l as [|[k' x] l IH]; intros Hnd Ha Hb; [now apply elem_of_nil in Ha|].
  rewrite fmap_cons in Hnd. apply NoDup_cons in Hnd as [Hk Hnd]. simpl in Hk.
  apply elem_of_cons in Ha as [Ha|Ha]; apply elem_of_cons in Hb as [Hb|Hb].
  - congruence.
  - injection Ha as -> ->. exfalso. apply Hk.
    apply list_elem_of_fmap. now exists (k', b).
  - injection Hb as -> ->. exfalso. apply Hk.
    apply list_elem_of_fmap. now exists (k', a).
  - now apply IH.
Qed.

(** Nothing of a categorised page is accepted any more once its
    accepted artifacts are recorded at their versions. *)
Lemma settled (categorised : list (string * Artifact)) md md' :
  NoDup categorised.*1 →
  (∀ c a, (c, a) ∈ categorised → category a = c ∧ Js.truthy (version a) = true) →
  (∀ u, u ∈ (filter (fun cd => isNewVersion md cd.1 (version cd.2)) categorised).*2 →
        recordedVersion <$> recordOf md' (category u) = Some (version u)) →
  (∀ c, c ∉ category <$> (filter (fun cd => isNewVersion md cd.1 (version cd.2))
                                 categorised).*2 →
        recordOf md' c = recordOf md c) →
  (filter (fun cd => isNewVersion md' cd.1 (version cd.2)) categorised).*2 = [].
Proof.
  intros Hnd Hcat Hv Ho.
  destruct (filter (fun cd => isNewVersion md' cd.1 (version cd.2)) categorised)
    as [|[c a] l] eqn:E; [reflexivity|]. exfalso.
  assert (Hin : (c, a) ∈ filter (fun cd => isNewVersion md' cd.1 (version cd.2)) categorised)
    by (rewrite E; apply list_elem_of_here).
  apply list_elem_of_filter in Hin as [Hnew Hin]. simpl in Hnew.
  destruct (Hcat c a Hin) as [Hc Ht].
  destruct (isNewVersion md c (version a)) eqn:Hold.
  - assert (Hu : a ∈ (filter (fun cd => isNewVersion md cd.1 (version cd.2)) categorised).*2).
    { apply list_elem_of_fmap. exists (c, a). split; [reflexivity|].
      apply list_elem_of_filter. split; [simpl; now rewrite Hold|exact Hin]. }
    specialize (Hv a Hu). rewrite Hc in Hv.
    rewrite (isNewVersion_recorded md' c (version a) Hv Ht) in Hnew. exact Hnew.
  - assert (Hc' : c ∉ category <$> (filter (fun cd => isNewVersion md cd.1 (version cd.2))
                                           categorised).*2).
    { intros Hmem. apply list_elem_of_fmap in Hmem as (u & Hcu & Hmem).
      apply list_elem_of_fmap in Hmem as ([c' u'] & Hu' & Hmem). simpl in Hu'. subst u'.
      apply list_elem_of_filter in Hmem as [Hnew' Hin']. simpl in Hnew'.
      destruct (Hcat c' u Hin') as [Hc'' _].
      assert (c' = c) as -> by congruence.
      pose proof (keys_unique categorised c u a Hnd Hin' Hin) as ->.
      rewrite Hold in Hnew'. exact Hnew'. }
    rewrite (isNewVersion_recordOf md' md c (version a) (Ho c Hc')), Hold in Hnew.
    exact Hnew.
Qed.

Lemma categories_keys (l : list (string * Artifact)) :
  (∀ c a, (c, a) ∈ l → category a = c) → category <$> l.*2 = l.*1.
Proof.
  induction l as [|[c a] l IH]; intros H; [reflexivity|].
  rewrite !fmap_cons. simpl. f_equal.
  - apply (H c a). apply list_elem_of_here.
  - apply IH. intros c' a' Hin. apply H. now apply list_elem_of_further.
Qed.

Lemma updates_categories (categorised : list (string * Artifact)) md :
  NoDup categorised.*1 →
  (∀ c a, (c, a) ∈ categorised → category a = c) →
  NoDup (category <$> (filter (fun cd => isNewVersion md cd.1 (version cd.2))
                              categorised).*2).
Proof.
  intros Hnd Hcat. rewrite categories_keys.
  - apply (sublist_NoDup _ _ Hnd). apply fmap_sublist. apply sublist_filter.
  - intros c a Hin. apply list_elem_of_filter in Hin as [_ Hin]. now apply Hcat.
Qed.

Lemma bmwFindDownloads_shape cfg portal appType :
  NoDup (BMWProvider.findDownloads cfg portal appType).*1 ∧
  ∀ c a, (c, a) ∈ BMWProvider.findDownloads cfg portal appType →
         category a = c ∧ Js.truthy (version a) = true.
Proof.
  unfold BMWProvider.findDownloads.
  destruct (BMWProvider.found portal appType) as [ds|e].
  - split; [apply bmw_fold_keys; apply NoDup_nil_2|].
    intros c a H. apply bmwCategorizeDownloads_member in H as (d & _ & _ & ->).
    split; [reflexivity|]. apply extractVersion_truthy.
  - split; [apply NoDup_nil_2|]. intros c a H. now apply elem_of_nil in H.
Qed.

Lemma vwFindDownloads_shape downloadFilter portal :
  NoDup (VWProvider.findDownloads downloadFilter portal).*1 ∧
  ∀ c a, (c, a) ∈ VWProvider.findDownloads downloadFilter portal →
         category a = c ∧ Js.truthy (version a) = true.
Proof.
  unfold VWProvider.findDownloads.
  destruct (VWProvider.found portal) as [ds|e].
  - split; [apply vw_fold_keys; apply NoDup_nil_2|].
    intros c a H. apply vw_fold_member in H as [H|(d & appType & _ & _ & ->)];
      [now apply elem_of_nil in H|].
    split; [reflexivity|]. apply vwExtractVersion_truthy.
  - split; [apply NoDup_nil_2|]. intros c a H. now apply elem_of_nil in H.
Qed.

Lemma Keeps_session_updateLastCheck b self :
  Keeps (fun w => isLoggedIn w = b) (updateLastCheck self).
Proof. intros w H. rewrite updateLastCheck_run. exact H. Qed.

Lemma Keeps_session_transferTo b self d name transfer :
  Keeps (fun w => isLoggedIn w = b) (transferTo self d name transfer).
Proof.
  intros w H.
  assert (Hc : isLoggedIn (afterCleanup self (category d) name w) = b)
    by (unfold afterCleanup; destruct (staleFile _ _ _); exact H).
  destruct transfer as [e|n e|size].
  - rewrite transferTo_failed by discriminate. exact Hc.
  - rewrite transferTo_failed by discriminate. exact Hc.
  - rewrite transferTo_finished. destruct (0 <? size)%N; exact Hc.
Qed.

Lemma Keeps_session_vwDownloadAll b portal updates : ∀ acc,
  Keeps (fun w => isLoggedIn w = b)
        (VWProvider.downloadAll decodeURIComponent baseDir portal updates acc).
Proof.
  induction updates as [|update rest IH]; intros [successCount failCount]; simpl.
  - keeps.
  - apply Keeps_bind; [|intros success; apply IH].
    keeps. intros w H. rewrite vwDownloadFile_run. now apply Keeps_session_transferTo.
Qed.

Lemma bmwCheck_metadata cfg portal appType w :
  BMWProvider.navigates portal appType = true →
  metadata (BMWProvider.checkApplicationUpdates decodeURIComponent baseDir cfg portal
              appType w).2
  = metadata (BMWProvider.downloadAll decodeURIComponent baseDir portal
                (bmwUpdates cfg portal appType (metadata w)) (0, 0, [])%nat w).2.
Proof.
  intros Hnav. unfold BMWProvider.checkApplicationUpdates. rewrite Hnav.
  change (negb true) with false. cbv iota.
  unfold bind at 1. unfold getMetadata. fold (bmwUpdates cfg portal appType (metadata w)).
  destruct (bmwUpdates cfg portal appType (metadata w)) as [|u0 us] eqn:Hu; [reflexivity|].
  destruct (bmwDownloadAll_run decodeURIComponent baseDir portal (u0 :: us) 0 0 [] w)
    as (w1 & E & _). cbv zeta in E.
  unfold bind at 1. rewrite E. cbv iota beta.
  unfold sendNewVersionNotification.
  destruct (app [] _); reflexivity.
Qed.

Lemma bmwCheck_idle cfg portal appType w :
  (BMWProvider.navigates portal appType = true →
   bmwUpdates cfg portal appType (metadata w) = []) →
  BMWProvider.checkApplicationUpdates decodeURIComponent baseDir cfg portal appType w
  = (Ok (0, 0)%nat, w).
Proof.
  intros H. unfold BMWProvider.checkApplicationUpdates.
  destruct (BMWProvider.navigates portal appType); [|reflexivity].
  change (negb true) with false. cbv iota.
  unfold bind at 1. unfold getMetadata. fold (bmwUpdates cfg portal appType (metadata w)).
  now rewrite H.
Qed.

Lemma vwCycle_run downloadFilter portal w :
  VWProvider.sessionAlive portal = true → isLoggedIn w = true →
  VWProvider.navigation portal = Ok true →
  ∃ counts w1,
    VWProvider.downloadAll decodeURIComponent baseDir portal
      (vwUpdates downloadFilter portal (metadata w)) (0, 0)%nat w = (Ok counts, w1) ∧
    VWProvider.checkForUpdates decodeURIComponent baseDir downloadFilter portal w
    = (Ok (Some counts), (updateLastCheck (VWProvider.self baseDir) w1).2).
Proof.
  intros Ha Hl Hn.
  destruct (vwDownloadAll_run decodeURIComponent baseDir portal
              (vwUpdates downloadFilter portal (metadata w)) 0 0 w) as (w1 & E).
  cbv zeta in E. eexists. exists w1. split; [exact E|].
  unfold VWProvider.checkForUpdates.
  unfold bind at 1. unfold getLoggedIn. rewrite Ha, Hl. simpl.
  unfold bind at 1. unfold ret at 1. simpl.
  unfold bind at 1. unfold VWProvider.navigateToDownloads, tryCatch.
  unfold bind at 1. unfold bind at 1. unfold await. rewrite Hn. unfold ret at 1 2. simpl.
  unfold bind at 1. unfold getMetadata. fold (vwUpdates downloadFilter portal (metadata w)).
  unfold bind at 1. rewrite E. simpl.
  unfold bind at 1. rewrite updateLastCheck_run. reflexivity.
Qed.

(** X23.  A check settles.  After a BMW application check, or a VW
    cycle, in which every transfer delivered a non-empty file, nothing
    of what the page offers is accepted as new any more: every artifact
    that was new is recorded at its version, and the records of the
    other categories are as before.  A second check of the same page
    right away therefore downloads nothing: the BMW application check
    reports no success and no failure and changes nothing, mails
    included; the VW cycle reports the same and only renews
    [lastUpdate]. *)
Theorem check_settles :
  (∀ cfg portal appType w,
      (∀ u, delivers (BMWProvider.transfers portal u) = true) →
      let check := BMWProvider.checkApplicationUpdates decodeURIComponent baseDir cfg
                     portal appType in
      let w' := (check w).2 in
      (BMWProvider.navigates portal appType = true →
       bmwUpdates cfg portal appType (metadata w') = []) ∧
      check w' = (Ok (0, 0)%nat, w')) ∧
  (∀ downloadFilter portal w,
      VWProvider.sessionAlive portal = true → isLoggedIn w = true →
      VWProvider.navigation portal = Ok true →
      (∀ u, delivers (VWProvider.transfers portal u) = true) →
      let cycle := VWProvider.checkForUpdates decodeURIComponent baseDir downloadFilter
                     portal in
      let w' := (cycle w).2 in
      vwUpdates downloadFilter portal (metadata w') = [] ∧
      ∃ w'', cycle w' = (Ok (Some (0, 0)%nat), w'') ∧
             files w'' = files w' ∧ mails w'' = mails w' ∧
             ∀ c, recordOf (metadata w'') c = recordOf (metadata w') c).
Proof.
  split.
  - intros cfg portal appType w Hdel check w'.
    destruct (bmwFindDownloads_shape cfg portal appType) as [Hnd Hcat].
    assert (Hsettled : BMWProvider.navigates portal appType = true →
                       bmwUpdates cfg portal appType (metadata w') = []).
    { intros Hnav. subst w' check. rewrite (bmwCheck_metadata _ _ _ _ Hnav).
      rewrite bmwDownloadAll_forEach.
      destruct (delivered_sequence
                  (fun u => downloadFile decodeURIComponent (BMWProvider.self baseDir) u
                              (BMWProvider.transfers portal (url (candidate u))))
                  (bmwUpdates cfg portal appType (metadata w))) with (w := w)
        as (w1 & E1 & Hv & Ho).
      { intros u w0 _. rewrite downloadFile_run. now apply delivered_transfer. }
      { apply updates_categories; [exact Hnd|]. intros c a Hin. now apply Hcat. }
      rewrite E1. unfold bmwUpdates. apply (settled _ (metadata w)); auto. }
    split; [exact Hsettled|]. now apply bmwCheck_idle.
  - intros downloadFilter portal w Ha Hl Hn Hdel cycle w'.
    destruct (vwFindDownloads_shape downloadFilter portal) as [Hnd Hcat].
    destruct (vwCycle_run downloadFilter portal w Ha Hl Hn) as (counts & w1 & E1 & Ecycle).
    assert (Hw' : w' = (updateLastCheck (VWProvider.self baseDir) w1).2)
      by (subst w' cycle; now rewrite Ecycle).
    assert (Hl1 : isLoggedIn w1 = true).
    { pose proof (Keeps_session_vwDownloadAll true portal
                    (vwUpdates downloadFilter portal (metadata w)) (0, 0)%nat w Hl) as H.
      now rewrite E1 in H. }
    assert (Hl' : isLoggedIn w' = true).
    { rewrite Hw'. now apply Keeps_session_updateLastCheck. }
    assert (Hrec : ∀ c, recordOf (metadata w') c = recordOf (metadata w1) c).
    { intros c. rewrite Hw', updateLastCheck_run. reflexivity. }
    assert (Hsettled : vwUpdates downloadFilter portal (metadata w') = []).
    { destruct (delivered_sequence
                  (fun u => VWProvider.downloadFile decodeURIComponent baseDir u
                              (VWProvider.transfers portal (url (candidate u))))
                  (vwUpdates downloadFilter portal (metadata w))) with (w := w)
        as (w1' & E1' & Hv & Ho).
      { intros u w0 _. rewrite vwDownloadFile_run. now apply delivered_transfer. }
      { apply updates_categories; [exact Hnd|]. intros c a Hin. now apply Hcat. }
      assert (w1' = w1) as ->.
      { pose proof (vwDownloadAll_forEach portal
                      (vwUpdates downloadFilter portal (metadata w)) (0, 0)%nat w) as H.
        now rewrite E1, E1' in H. }
      unfold vwUpdates. apply (settled _ (metadata w)); auto.
      - intros u Hu. rewrite Hrec. now apply Hv.
      - intros c Hc. rewrite Hrec. now apply Ho. }
    split; [exact Hsettled|].
    destruct (vwCycle_run downloadFilter portal w' Ha Hl' Hn)
      as (counts' & w2 & E2 & Ecycle').
    rewrite Hsettled in E2. simpl in E2. unfold ret in E2. injection E2 as <- <-.
    eexists. split; [exact Ecycle'|]. rewrite updateLastCheck_run.
    repeat split.
Qed.

End Settling.

Lemma check_settles_witness :
  let portal := {| BMWProvider.loginPage := Ok "https://aos.bmwgroup.com/startpage-workshop";
                   BMWProvider.navigates := fun _ => true;
                   BMWProvider.found := fun _ => Ok [candidate (Examples.tool "1.1.0")];
                   BMWProvider.transfers := fun _ => Finished 2048 |} in
  let cfg := {| BMWProvider.istaPFilter := ["ISTA"];
                BMWProvider.istaNextFilter := ["ISTA"] |} in
  let check := BMWProvider.checkApplicationUpdates BaseProvider.decodePlain
                 "/mnt/storagebox/providers" cfg portal "ista-p" in
  (∀ u, delivers (BMWProvider.transfers portal u) = true) ∧
  (check Examples.world).1 = Ok (1, 0)%nat ∧
  check (check Examples.world).2 = (Ok (0, 0)%nat, (check Examples.world).2).
Proof.
  cbv zeta. split; [reflexivity|]. split; [vm_compute; reflexivity|].
  exact (proj2 (proj1 (check_settles BaseProvider.decodePlain "/mnt/storagebox/providers")
                  {| BMWProvider.istaPFilter := ["ISTA"];
                     BMWProvider.istaNextFilter := ["ISTA"] |}
                  {| BMWProvider.loginPage :=
                       Ok "https://aos.bmwgroup.com/startpage-workshop";
                     BMWProvider.navigates := fun _ => true;
                     BMWProvider.found := fun _ => Ok [candidate (Examples.tool "1.1.0")];
                     BMWProvider.transfers := fun _ => Finished 2048 |}
                  "ista-p" Examples.world (fun _ => eq_refl))).
Defined.

(** ** Rules of the category chains that decide nothing *)

Section RuleChains.

Lemma startsWith_app p q s : Js.startsWith (p +:+ q) s = true → Js.startsWith p s = true.
Proof.
  revert s. induction p as [|a p IH]; intros s; [destruct s; reflexivity|].
  destruct s as [|b s]; simpl; [discriminate|].
  destruct (Ascii.eqb a b); [apply IH|discriminate].
Qed.

(** A string that contains a needle contains every prefix of it. *)
Lemma includes_app s p q : Js.includes s (p +:+ q) = true → Js.includes s p = true.
Proof.
  induction s as [|c s IH]; simpl; intros H.
  - rewrite orb_false_r in *. exact (startsWith_app _ _ _ H).
  - apply orb_true_iff in H as [H|H]; apply orb_true_iff.
    + left. exact (startsWith_app _ _ _ H).
    + right. exact (IH H).
Qed.

Lemma includes_absorb s p q : Js.includes s (p +:+ q) || Js.includes s p = Js.includes s p.
Proof.
  destruct (Js.includes s (p +:+ q)) eqn:E; [|reflexivity].
  rewrite (includes_app _ _ _ E). reflexivity.
Qed.

(** X24.  On the lowercased title and URL the loop computes, the category
    chains of both vendors decide by fewer tests than they list.  For VW
    the needles ["installation"], ["installer"], ["flashmediacreator"] and
    the capitalised ["FMC-Installer"] change nothing: the result depends
    only on ["odis-service"], ["odis_service"], ["install"], ["update"],
    ["fmc"], ["flashmedia"] and ["download"].  For BMW the capitalised URL
    needles ["ISTAOSS_ProgrammingData_"] and ["ICOM-Next-FW"] never match,
    and for ISTA-P the test for ["ista-p"] together with ["commondat"] is
    covered by the test for ["commondat"] alone. *)
Theorem category_rules_reduced (rawTitle rawUrl : string) :
  let title := Js.toLowerCase rawTitle in
  let url := Js.toLowerCase rawUrl in
  let odis := Js.includes title "odis-service" || Js.includes title "odis_service" in
  VWProvider.categoryOf title =
    (if odis && Js.includes title "install" then Some ("odis_service", "installation")
     else if odis && Js.includes title "update" then Some ("odis_service", "update")
     else if (Js.includes title "fmc" || Js.includes title "flashmedia")
             && (Js.includes title "install" || Js.includes title "download")
     then Some ("fmc", "installer")
     else None) ∧
  BMWProvider.categoryOf "ista-next" title url =
    (if Js.includes title "programmierdaten" then Some "programming_data"
     else if Js.includes title "installationsdatei" || Js.includes title "client"
             || Js.includes url "istaoss" || Js.includes url "client"
     then Some "client"
     else if (Js.includes title "icom" && Js.includes title "firmware")
             || (Js.includes url "icom" && Js.includes url "fw")
     then Some "icom_firmware"
     else if Js.includes title "ptd" || Js.includes title "treiber"
             || Js.includes url "ptd" || Js.includes url "passthru"
     then Some "ptd_driver"
     else None) ∧
  BMWProvider.categoryOf "ista-p" title url =
    (if Js.includes title "installationsprogramm" || Js.includes title "installationsdatei"
        || Js.includes url "istaoss" || Js.includes url "bdrclient"
     then Some "installer"
     else if Js.includes title "datenarchiv" || Js.includes url "commondat"
             || Js.includes url ".istapdata"
     then Some "data_archive"
     else None).
Proof.
  intros title url odis. split; [|split].
  - unfold VWProvider.categoryOf. fold odis.
    assert (Hf : Js.includes title "FMC-Installer" = false)
      by (apply includes_lower_capital; reflexivity).
    rewrite Hf, !orb_false_r.
    pose proof (includes_absorb title "install" "ation") as H1.
    pose proof (includes_absorb title "install" "er") as H2.
    pose proof (includes_absorb title "flashmedia" "creator") as H3.
    change ("install" +:+ "ation") with "installation" in H1.
    change ("install" +:+ "er") with "installer" in H2.
    change ("flashmedia" +:+ "creator") with "flashmediacreator" in H3.
    rewrite H1, H2. rewrite <- (orb_assoc (Js.includes title "fmc")), H3.
    rewrite orb_diag. reflexivity.
  - unfold BMWProvider.categoryOf. simpl String.eqb. cbv iota.
    assert (Hp : Js.includes url "ISTAOSS_ProgrammingData_" = false)
      by (apply includes_lower_capital; reflexivity).
    assert (Hi : Js.includes url "ICOM-Next-FW" = false)
      by (apply includes_lower_capital; reflexivity).
    rewrite Hp, Hi, !orb_false_r. reflexivity.
  - unfold BMWProvider.categoryOf. simpl String.eqb. cbv iota.
    destruct (Js.includes url "commondat"); rewrite ?andb_true_r, ?andb_false_r,
      ?orb_true_r, ?orb_false_r; reflexivity.
Qed.

End RuleChains.

(** ** The file name taken from a URL *)

Section UrlNames.

Variable decodeURIComponent : string -> option string.

Lemma includes_char s c : Js.includes s (String c "") = occurs c s.
Proof.
  induction s as [|b s IH]; [reflexivity|].
  simpl. rewrite IH. destruct (Ascii.eqb c b); [destruct s|]; reflexivity.
Qed.

Lemma occurs_app c s t : occurs c (s +:+ t) = occurs c s || occurs c t.
Proof.
  induction s as [|b s IH]; simpl; [reflexivity|].
  rewrite IH, orb_assoc. reflexivity.
Qed.

Lemma occurs_take c n s : occurs c s = false → occurs c (Js.take n s) = false.
Proof.
  revert n. induction s as [|b s IH]; intros [|n]; simpl; try reflexivity.
  intros H. apply orb_false_iff in H as [-> H]. simpl. exact (IH n H).
Qed.

Lemma occurs_drop c n s : occurs c s = false → occurs c (Js.drop n s) = false.
Proof.
  revert n. induction s as [|b s IH]; intros [|n]; simpl; try reflexivity.
  - intros H. exact H.
  - intros H. apply orb_false_iff in H as [_ H]. exact (IH n H).
Qed.

Lemma occurs_removeFirst c s needle :
  occurs c s = false → occurs c (Js.removeFirst s needle) = false.
Proof.
  intros H. unfold Js.removeFirst. destruct (Js.indexOf s needle); [|exact H].
  rewrite occurs_app, occurs_take, occurs_drop by assumption. reflexivity.
Qed.

Lemma occurs_beforeFirst_sep c s : occurs c (Js.beforeFirst c s) = false.
Proof.
  induction s as [|b s IH]; simpl; [reflexivity|].
  rewrite Ascii.eqb_sym. destruct (Ascii.eqb c b) eqn:E; simpl; [reflexivity|].
  rewrite E. exact IH.
Qed.

Lemma occurs_beforeFirst c sep s :
  occurs c s = false → occurs c (Js.beforeFirst sep s) = false.
Proof.
  induction s as [|b s IH]; simpl; [reflexivity|].
  intros H. apply orb_false_iff in H as [Hb H].
  destruct (Ascii.eqb b sep); simpl; [reflexivity|]. rewrite Hb. exact (IH H).
Qed.

Lemma beforeFirst_absent c s : occurs c s = false → Js.beforeFirst c s = s.
Proof.
  induction s as [|b s IH]; simpl; [reflexivity|].
  intros H. apply orb_false_iff in H as [Hb H].
  rewrite Ascii.eqb_sym, Hb, (IH H). reflexivity.
Qed.

Lemma afterLast_absent c s : occurs c s = false → Js.afterLast c s = s.
Proof.
  destruct s as [|b s]; simpl; [reflexivity|].
  intros H. apply orb_false_iff in H as [Hb H].
  rewrite includes_char, H, Ascii.eqb_sym, Hb. reflexivity.
Qed.

Lemma afterLast_app c a b :
  occurs c b = false → Js.afterLast c (a +:+ String c b) = b.
Proof.
  intros Hb. induction a as [|x a IH]; simpl.
  - rewrite includes_char, Hb, Ascii.eqb_refl. reflexivity.
  - rewrite includes_char, occurs_app. simpl. rewrite Ascii.eqb_refl, orb_true_r.
    exact IH.
Qed.

Lemma occurs_afterLast c s : occurs c (Js.afterLast c s) = false.
Proof.
  induction s as [|b s IH]; [reflexivity|].
  simpl. rewrite includes_char. destruct (occurs c s) eqn:E; [exact IH|].
  destruct (Ascii.eqb b c) eqn:Eb; [exact E|].
  simpl. rewrite Ascii.eqb_sym, Eb. exact E.
Qed.

(** The query is cut off whether or not the test for ['?'] is made. *)
Lemma extractCleanFilename_segment url :
  BaseProvider.extractCleanFilename decodeURIComponent url =
  BaseProvider.extractCleanFilename decodeURIComponent
    (Js.beforeFirst "?" (Js.afterLast "/" url)).
Proof.
  unfold BaseProvider.extractCleanFilename.
  set (seg := Js.afterLast "/" url).
  assert (Hs : occurs "/" (Js.beforeFirst "?" seg) = false).
  { apply occurs_beforeFirst, occurs_afterLast. }
  rewrite (afterLast_absent _ _ Hs).
  rewrite !includes_char, occurs_beforeFirst_sep.
  destruct (occurs "?" seg) eqn:E; [reflexivity|].
  rewrite (beforeFirst_absent _ _ E). reflexivity.
Qed.

(** X25.  [extractCleanFilename] splits the whole URL at ['/'] before it
    removes the query, so the name comes from what follows the last ['/']
    of the URL, query string included: for [rest] without a ['/'] the URL
    [base/rest] gives the name [rest] alone gives, whatever [base] is, and
    only the part of [rest] before its first ['?'] counts.  When that part
    holds no escape for the decoder to change, the name returned contains
    neither ['/'] nor ['?']. *)
Theorem extractCleanFilename_last_segment (base rest : string)
    (Hrest : Js.includes rest "/" = false) :
  BaseProvider.extractCleanFilename decodeURIComponent (base +:+ "/" +:+ rest) =
  BaseProvider.extractCleanFilename decodeURIComponent (Js.beforeFirst "?" rest) ∧
  (decodeURIComponent (Js.beforeFirst "?" rest) = Some (Js.beforeFirst "?" rest) →
   ∀ name,
     BaseProvider.extractCleanFilename decodeURIComponent (base +:+ "/" +:+ rest) = Some name →
     Js.includes name "/" = false ∧ Js.includes name "?" = false).
Proof.
  rewrite includes_char in Hrest.
  assert (Hcut : BaseProvider.extractCleanFilename decodeURIComponent (base +:+ "/" +:+ rest) =
                 BaseProvider.extractCleanFilename decodeURIComponent (Js.beforeFirst "?" rest)).
  { rewrite extractCleanFilename_segment.
    change (base +:+ "/" +:+ rest) with (base +:+ String "/" rest).
    rewrite (afterLast_app _ base rest Hrest). reflexivity. }
  split; [exact Hcut|].
  intros Hd name. rewrite Hcut. unfold BaseProvider.extractCleanFilename.
  set (seg := Js.beforeFirst "?" rest) in *.
  assert (Hq : occurs "?" seg = false) by apply occurs_beforeFirst_sep.
  assert (Hs : occurs "/" seg = false) by (apply occurs_beforeFirst; exact Hrest).
  rewrite (afterLast_absent _ _ Hs), includes_char, Hq, Hd.
  destruct (_ && _ && _); [|discriminate].
  intros [= <-]. rewrite !includes_char.
  destruct (Js.includes seg "&signed=true");
    rewrite ?occurs_removeFirst by assumption; auto.
Qed.

End UrlNames.

Lemma extractCleanFilename_last_segment_witness :
  Js.includes "home" "/" = false ∧
  BaseProvider.extractCleanFilename Some ("https://host/files/ISTA.zip?next=" +:+ "/" +:+ "home")
  = Some "home".
Proof.
  destruct (extractCleanFilename_last_segment Some
              "https://host/files/ISTA.zip?next=" "home" eq_refl) as [H _].
  split; [reflexivity|]. rewrite H. reflexivity.
Defined.
